(** * LoRaSimMac: the MAC state machine and the gateway reception model

    A shallow embedding of [loraDir_mac.py] (LoRaSimMac v1.0).  The parts
    embedded are the airtime calculator, the pairwise collision tests, the
    gateway arrival handler [checkcollision], the sensitivity table, the
    packet and node objects, the per-node generator [transmit] and, of the
    final report, the count of sent packets and the two data extraction
    rates.

    Conventions of the embedding.
    - Python integers are [Z]; Python floats (times in milliseconds, dBm
      levels, bandwidths in kHz) are exact rationals [Q], so the rounding of
      IEEE arithmetic is not represented.
    - The 0/1 flags [collided], [processed] and the True/False flag [lost]
      are [bool].
    - Objects that the script shares by reference live in one store: the
      node table [nodes]; [packetsAtBS], a Python list of node objects, is a
      list of indices into that table.
    - The random module is an oracle: every draw is an argument of the step
      that consumes it.
    - [print] statements, the placement of nodes, the graphics and the two
      histograms [retry_bin] / [retry_rts_bin] are not represented.
    - Some statements of the script can raise and do not stop the model: the
      histogram updates of lines 1235, 1416 and 1557 (IndexError for a
      negative retry limit), [random.randint] on an empty range, and
      [transmit_wait] read unbound for a [distribType] other than 1 or 2.
      Every run of the script is therefore a run of the model, and what
      holds at every instant of the runs of the model holds of the script;
      that the script does not raise is not among the statements below, and
      a step of the model that yields no timeout is not a [yield]. *)

From Stdlib Require Import ZArith QArith Qround Qabs Qpower Lia Lqa Bool.
From stdpp Require Import base list.

Local Open Scope Z_scope.

(** ** Numeric helpers *)

Definition Qltb (a b : Q) : bool := negb (Qle_bool b a).

(** [random.randint(a, b)], with [u] the value supplied by the oracle.
    Python raises ValueError when [b < a]; every call below has [a <= b]
    for the settings of the script. *)
Definition randint (u a b : Z) : Z := a + u mod (b - a + 1).

(** [random.uniform(lo, hi)] is [lo + (hi - lo) * random()]. *)
Definition uniform (u lo hi : Q) : Q := (lo + (hi - lo) * u)%Q.

(** One record of oracle values per step of a generator. *)
Record draws : Type := mk_draws {
  u_cca : Z;      (* random.randint(1,100) of a clear-channel assessment *)
  u_backoff : Z;  (* the draw of a backoff timer *)
  u_P : Z;        (* random.randint(0,100) for my_P *)
  u_nav : Z;      (* random.randint(0,Wnav) *)
  u_expo : Q;     (* random.expovariate(1.0/period) *)
  u_unif : Q      (* random.random() inside random.uniform *)
}.

(** ** Enumerations *)

(** [dataPacketType = 1], [rtsPacketType = 2]. *)
Inductive packet_type : Set := dataPacketType | rtsPacketType.

Definition packet_type_eqb (a b : packet_type) : bool :=
  match a, b with
  | dataPacketType, dataPacketType | rtsPacketType, rtsPacketType => true
  | _, _ => false
  end.

(** The node states [schedule_tx = 0] ... [start_nav = 9]. *)
Inductive mac_state : Set :=
  | schedule_tx | want_transmit | start_CA | start_phase1_listen
  | start_phase2_backoff | start_phase2_rts | start_phase2_listen
  | start_phase3_backoff | start_phase3_transmit | start_nav.

Definition mac_state_eqb (a b : mac_state) : bool :=
  match a, b with
  | schedule_tx, schedule_tx | want_transmit, want_transmit
  | start_CA, start_CA | start_phase1_listen, start_phase1_listen
  | start_phase2_backoff, start_phase2_backoff
  | start_phase2_rts, start_phase2_rts
  | start_phase2_listen, start_phase2_listen
  | start_phase3_backoff, start_phase3_backoff
  | start_phase3_transmit, start_phase3_transmit
  | start_nav, start_nav => true
  | _, _ => false
  end.

(** Builds the setter of one field from the eta-expansion of the record. *)
Ltac field_setter eta proj :=
  let v := fresh "v" in
  let r := fresh "r" in
  intros v r;
  let e := eval hnf in (eta r) in
  lazymatch eval pattern (proj r) in e with
  | ?f _ => let t := eval cbv beta in (f v) in exact t
  end.

(** ** The module-level settings of the script

    The constants at the top of the file and the values read from the command
    line.  They are never assigned once the simulation runs. *)
Module G.

Record settings : Type := mk {
  full_collision : bool;
  check_busy : bool;
  max_payload_size : Z;
  targetSentPacket : Z;
  CA : bool;
  CA1 : bool;
  CA2 : bool;
  lora24GHz : bool;
  n_retry : Z;
  n_retry_rts : Z;
  CCA_prob : Z;
  Wbusy_min : Z;
  Wbusy_BE : Z;
  Wbusy_maxBE : Z;
  Wbusy_add_max_toa : bool;
  Wbusy_exp_backoff : bool;
  P : Z;
  WL : Z;
  W2 : Z;
  W3 : Z;
  Wnav : Z;
  W2afterNAV : Z;
  check_busy_rts : bool;
  experiment : Z;
  maxBSReceives : Z
}.

(** The values written in the file, for the command line
    [1 20 20000 4 600000000 1 7 10 7 0 7] of its usage note;
    [targetSentPacket] is [2000 * nrNodes]. *)
Definition source : settings :=
  {| full_collision := true; check_busy := true; max_payload_size := 120;
     targetSentPacket := 2000 * 20; CA := true; CA1 := false; CA2 := false;
     lora24GHz := false; n_retry := 40; n_retry_rts := 20; CCA_prob := 50;
     Wbusy_min := 1; Wbusy_BE := 3; Wbusy_maxBE := 6;
     Wbusy_add_max_toa := false; Wbusy_exp_backoff := true;
     P := 0; WL := 7; W2 := 10; W3 := 7; Wnav := 0; W2afterNAV := 7;
     check_busy_rts := true; experiment := 4; maxBSReceives := 8 |}.

Definition eta (x : settings) : settings :=
  mk (full_collision x) (check_busy x) (max_payload_size x)
     (targetSentPacket x) (CA x) (CA1 x) (CA2 x) (lora24GHz x) (n_retry x)
     (n_retry_rts x) (CCA_prob x) (Wbusy_min x) (Wbusy_BE x) (Wbusy_maxBE x)
     (Wbusy_add_max_toa x) (Wbusy_exp_backoff x) (P x) (WL x) (W2 x) (W3 x)
     (Wnav x) (W2afterNAV x) (check_busy_rts x) (experiment x)
     (maxBSReceives x).

(** The same settings with another value of [check_busy], resp. of
    [CCA_prob]. *)
Definition set_check_busy : bool -> settings -> settings :=
  ltac:(field_setter eta check_busy).
Definition set_CCA_prob : Z -> settings -> settings :=
  ltac:(field_setter eta CCA_prob).

End G.

(** ** Airtime (lines 576-612) *)

Section Airtime.

Variable lora24GHz : bool.

Local Open Scope Q_scope.

(** [2.0**sf / bw] and the float division under [math.ceil] raise
    ZeroDivisionError for [bw = 0] or [sf = 2*DE]; [Qdiv] gives 0 there.
    Packets have [sf >= 5] and [bw > 0]. *)
Definition airtime (sf cr pl : Z) (bw : Q) : Q :=
  let DE := 0%Z in
  let Npream := 8 in
  if lora24GHz then
    let Npream := 12 in
    let H := 1%Z in
    let DE := if (sf >? 10)%Z then 1%Z else DE in
    let Tsym := (2 ^ sf) / bw in
    let Tpream :=
      if (sf <? 7)%Z then (Npream + 6.25) * Tsym else (Npream + 4.25) * Tsym in
    let payloadSymbNB :=
      if (sf >=? 7)%Z then
        (8 + Qceiling (inject_Z (Z.max (8 * pl + 16 - 4 * sf + 8 + 20 * H) 0)
                       / inject_Z (4 * (sf - 2 * DE))) * (cr + 4))%Z
      else
        (8 + Qceiling (inject_Z (Z.max (8 * pl + 16 - 4 * sf + 20 * H) 0)
                       / inject_Z (4 * (sf - 2 * DE))) * (cr + 4))%Z in
    let Tpayload := inject_Z payloadSymbNB * Tsym in
    Tpream + Tpayload
  else
    let H := 0%Z in
    let DE := if Qeq_bool bw 125 && ((sf =? 11)%Z || (sf =? 12)%Z) then 1%Z else DE in
    let H := if (sf =? 6)%Z then 1%Z else H in
    let Tsym := (2 ^ sf) / bw in
    let Tpream := (Npream + 4.25) * Tsym in
    let payloadSymbNB :=
      (8 + Z.max (Qceiling (inject_Z (8 * pl - 4 * sf + 28 + 16 - 20 * H)
                            / inject_Z (4 * (sf - 2 * DE))) * (cr + 4)) 0)%Z in
    let Tpayload := inject_Z payloadSymbNB * Tsym in
    Tpream + Tpayload.

End Airtime.

(** ** Packets (class myPacket, lines 734-891) *)

Module myPacket.

Record t : Type := mk {
  nodeid : Z;
  txpow : Q;
  sf : Z;
  bw : Q;
  cr : Z;
  pl : Z;
  symTime : Q;
  rssi : Q;
  freq : Z;
  ptype : packet_type;
  data_len : Z;
  Tpream : Q;
  rectime : Q;
  collided : bool;
  processed : bool;
  lost : bool;
  addTime : Q
}.

Definition eta (x : t) : t :=
  mk (nodeid x) (txpow x) (sf x) (bw x) (cr x) (pl x) (symTime x) (rssi x)
     (freq x) (ptype x) (data_len x) (Tpream x) (rectime x) (collided x)
     (processed x) (lost x) (addTime x).

Definition set_pl : Z -> t -> t := ltac:(field_setter eta pl).
Definition set_ptype : packet_type -> t -> t := ltac:(field_setter eta ptype).
Definition set_rectime : Q -> t -> t := ltac:(field_setter eta rectime).
Definition set_collided : bool -> t -> t := ltac:(field_setter eta collided).
Definition set_processed : bool -> t -> t := ltac:(field_setter eta processed).
Definition set_lost : bool -> t -> t := ltac:(field_setter eta lost).
Definition set_addTime : Q -> t -> t := ltac:(field_setter eta addTime).

(** What the first part of [__init__] (lines 746-857) settles: the random
    radio configuration, the preset of the experiment and the received power
    after the log-distance path loss. *)
Record radio : Type := mk_radio {
  r_txpow : Q; r_sf : Z; r_bw : Q; r_cr : Z; r_rssi : Q; r_freq : Z
}.

(** The rest of [__init__] (lines 834-881). *)
Definition init (lora24GHz : bool) (nodeid plen : Z) (r : radio) : t :=
  let symTime := ((2 ^ r_sf r) / r_bw r)%Q in
  let Tpream :=
    if lora24GHz then
      let Npream := 12%Q in
      if r_sf r <? 7 then ((Npream + 6.25) * symTime)%Q
      else ((Npream + 4.25) * symTime)%Q
    else
      let Npream := 8%Q in ((Npream + 4.25) * symTime)%Q in
  {| nodeid := nodeid; txpow := r_txpow r; sf := r_sf r; bw := r_bw r;
     cr := r_cr r; pl := plen; symTime := symTime; rssi := r_rssi r;
     freq := r_freq r; ptype := dataPacketType; data_len := plen;
     Tpream := Tpream;
     rectime := airtime lora24GHz (r_sf r) (r_cr r) plen (r_bw r);
     collided := false; processed := false; lost := false; addTime := 0%Q |}.

(** [setPacketType] (lines 883-891). *)
Definition setPacketType (lora24GHz : bool) (ty : packet_type) (self : t) : t :=
  let self := set_ptype ty self in
  match ty with
  | rtsPacketType =>
      let self := set_pl 5 self in
      set_rectime (airtime lora24GHz (sf self) (cr self) (pl self) (bw self)) self
  | dataPacketType =>
      let self := set_pl (data_len self) self in
      set_rectime (airtime lora24GHz (sf self) (cr self) (pl self) (bw self)) self
  end.

End myPacket.

(** ** The pairwise collision tests (lines 509-571) *)

Definition frequencyCollision (p1 p2 : myPacket.t) : bool :=
  if (Z.abs (myPacket.freq p1 - myPacket.freq p2) <=? 120)
     && (Qeq_bool (myPacket.bw p1) 500 || (myPacket.freq p2 =? 500)) then true
  else if (Z.abs (myPacket.freq p1 - myPacket.freq p2) <=? 60)
          && (Qeq_bool (myPacket.bw p1) 250 || (myPacket.freq p2 =? 250)) then true
  else if Z.abs (myPacket.freq p1 - myPacket.freq p2) <=? 30 then true
  else false.

Definition sfCollision (p1 p2 : myPacket.t) : bool :=
  if myPacket.sf p1 =? myPacket.sf p2 then true else false.

(** The tuple of casualties is returned as two flags: whether [p1] is in it
    and whether [p2] is in it. *)
Definition powerCollision (p1 p2 : myPacket.t) : bool * bool :=
  let powerThreshold := 6%Q in
  if Qltb (Qabs (myPacket.rssi p1 - myPacket.rssi p2)) powerThreshold then (true, true)
  else if Qltb (myPacket.rssi p1 - myPacket.rssi p2) powerThreshold then (true, false)
  else (false, true).

Definition timingCollision (now : Q) (p1 p2 : myPacket.t) : bool :=
  let Npream := 8%Q in
  let Tpreamb := (inject_Z (2 ^ myPacket.sf p1) / (1 * myPacket.bw p1) * (Npream - 5))%Q in
  let p2_end := (myPacket.addTime p2 + myPacket.rectime p2)%Q in
  let p1_cs := (now + Tpreamb)%Q in
  if Qltb p1_cs p2_end then true else false.

(** ** Nodes (class myNode, lines 617-728) *)

Module myNode.

Record t : Type := mk {
  nodeid : Z;
  period : Z;
  distrib : Z;
  packet : myPacket.t;
  data_len : Z;
  data_rectime : Q;
  rts_rectime : Q;
  n_data_sent : Z;
  n_rts_sent : Z;
  ca_state : mac_state;
  want_transmit_time : Q;
  ca_listen_start_time : Q;
  ca_listen_end_time : Q;
  total_listen_time : Q;
  P : Z;
  my_P : Z;
  backoff : Z;
  receive_rts : bool;
  receive_rts_time : Q;
  receive_rts_from : Z;
  n_receive_nav_rts_p1 : Z;
  n_receive_nav_rts_p2 : Z;
  receive_data : bool;
  receive_data_time : Q;
  receive_data_from : Z;
  n_receive_nav_data_p1 : Z;
  n_receive_nav_data_p2 : Z;
  nav : Z;
  cca : bool;
  n_cca : Z;
  n_busy_rts : Z;
  n_busy_rts_p1 : Z;
  n_busy_data : Z;
  n_retry : Z;
  total_retry : Z;
  n_retry_rts : Z;
  total_retry_rts : Z;
  n_aborted : Z;
  cycle : Z;
  W2 : Z;
  latency : Q;
  Wbusy_BE : Z
}.

Definition eta (x : t) : t :=
  mk (nodeid x) (period x) (distrib x) (packet x) (data_len x)
     (data_rectime x) (rts_rectime x) (n_data_sent x) (n_rts_sent x)
     (ca_state x) (want_transmit_time x) (ca_listen_start_time x)
     (ca_listen_end_time x) (total_listen_time x) (P x) (my_P x) (backoff x)
     (receive_rts x) (receive_rts_time x) (receive_rts_from x)
     (n_receive_nav_rts_p1 x) (n_receive_nav_rts_p2 x) (receive_data x)
     (receive_data_time x) (receive_data_from x) (n_receive_nav_data_p1 x)
     (n_receive_nav_data_p2 x) (nav x) (cca x) (n_cca x) (n_busy_rts x)
     (n_busy_rts_p1 x) (n_busy_data x) (n_retry x) (total_retry x)
     (n_retry_rts x) (total_retry_rts x) (n_aborted x) (cycle x) (W2 x)
     (latency x) (Wbusy_BE x).

Definition set_packet : myPacket.t -> t -> t := ltac:(field_setter eta packet).
Definition set_n_data_sent : Z -> t -> t := ltac:(field_setter eta n_data_sent).
Definition set_n_rts_sent : Z -> t -> t := ltac:(field_setter eta n_rts_sent).
Definition set_ca_state : mac_state -> t -> t :=
  ltac:(field_setter eta ca_state).
Definition set_want_transmit_time : Q -> t -> t :=
  ltac:(field_setter eta want_transmit_time).
Definition set_ca_listen_start_time : Q -> t -> t :=
  ltac:(field_setter eta ca_listen_start_time).
Definition set_ca_listen_end_time : Q -> t -> t :=
  ltac:(field_setter eta ca_listen_end_time).
Definition set_total_listen_time : Q -> t -> t :=
  ltac:(field_setter eta total_listen_time).
Definition set_my_P : Z -> t -> t := ltac:(field_setter eta my_P).
Definition set_backoff : Z -> t -> t := ltac:(field_setter eta backoff).
Definition set_receive_rts : bool -> t -> t :=
  ltac:(field_setter eta receive_rts).
Definition set_receive_rts_time : Q -> t -> t :=
  ltac:(field_setter eta receive_rts_time).
Definition set_receive_rts_from : Z -> t -> t :=
  ltac:(field_setter eta receive_rts_from).
Definition set_n_receive_nav_rts_p1 : Z -> t -> t :=
  ltac:(field_setter eta n_receive_nav_rts_p1).
Definition set_n_receive_nav_rts_p2 : Z -> t -> t :=
  ltac:(field_setter eta n_receive_nav_rts_p2).
Definition set_receive_data : bool -> t -> t :=
  ltac:(field_setter eta receive_data).
Definition set_receive_data_time : Q -> t -> t :=
  ltac:(field_setter eta receive_data_time).
Definition set_receive_data_from : Z -> t -> t :=
  ltac:(field_setter eta receive_data_from).
Definition set_n_receive_nav_data_p1 : Z -> t -> t :=
  ltac:(field_setter eta n_receive_nav_data_p1).
Definition set_n_receive_nav_data_p2 : Z -> t -> t :=
  ltac:(field_setter eta n_receive_nav_data_p2).
Definition set_nav : Z -> t -> t := ltac:(field_setter eta nav).
Definition set_cca : bool -> t -> t := ltac:(field_setter eta cca).
Definition set_n_cca : Z -> t -> t := ltac:(field_setter eta n_cca).
Definition set_n_busy_rts : Z -> t -> t := ltac:(field_setter eta n_busy_rts).
Definition set_n_busy_rts_p1 : Z -> t -> t :=
  ltac:(field_setter eta n_busy_rts_p1).
Definition set_n_busy_data : Z -> t -> t := ltac:(field_setter eta n_busy_data).
Definition set_n_retry : Z -> t -> t := ltac:(field_setter eta n_retry).
Definition set_total_retry : Z -> t -> t := ltac:(field_setter eta total_retry).
Definition set_n_retry_rts : Z -> t -> t := ltac:(field_setter eta n_retry_rts).
Definition set_total_retry_rts : Z -> t -> t :=
  ltac:(field_setter eta total_retry_rts).
Definition set_n_aborted : Z -> t -> t := ltac:(field_setter eta n_aborted).
Definition set_cycle : Z -> t -> t := ltac:(field_setter eta cycle).
Definition set_W2 : Z -> t -> t := ltac:(field_setter eta W2).
Definition set_latency : Q -> t -> t := ltac:(field_setter eta latency).
Definition set_Wbusy_BE : Z -> t -> t := ltac:(field_setter eta Wbusy_BE).

(** The assignments of [__init__] after the placement of the node
    (lines 666-722); [r] is the radio configuration its packet ends with. *)
Definition init (g : G.settings) (nodeid period distrib packetlen : Z)
    (r : myPacket.radio) : t :=
  let packet := myPacket.init (G.lora24GHz g) nodeid packetlen r in
  {| nodeid := nodeid; period := period; distrib := distrib; packet := packet;
     data_len := packetlen;
     data_rectime :=
       airtime (G.lora24GHz g) (myPacket.sf packet) (myPacket.cr packet)
         (myPacket.pl packet) (myPacket.bw packet);
     rts_rectime :=
       airtime (G.lora24GHz g) (myPacket.sf packet) (myPacket.cr packet) 5
         (myPacket.bw packet);
     n_data_sent := 0; n_rts_sent := 0; ca_state := schedule_tx;
     want_transmit_time := 0; ca_listen_start_time := 0;
     ca_listen_end_time := 0; total_listen_time := 0;
     P := G.P g; my_P := 0; backoff := 0;
     receive_rts := false; receive_rts_time := 0; receive_rts_from := -1;
     n_receive_nav_rts_p1 := 0; n_receive_nav_rts_p2 := 0;
     receive_data := false; receive_data_time := 0; receive_data_from := -1;
     n_receive_nav_data_p1 := 0; n_receive_nav_data_p2 := 0;
     nav := 0; cca := false; n_cca := 0; n_busy_rts := 0; n_busy_rts_p1 := 0;
     n_busy_data := 0; n_retry := G.n_retry g; total_retry := 0;
     n_retry_rts := if G.n_retry_rts g >? 0 then G.n_retry_rts g else 1;
     total_retry_rts := 0; n_aborted := 0; cycle := 0; W2 := G.W2 g;
     latency := 0; Wbusy_BE := G.Wbusy_BE g |}.

(** An assignment to an attribute of [node.packet]. *)
Definition upd_packet (f : myPacket.t -> myPacket.t) (x : t) : t :=
  set_packet (f (packet x)) x.

(** [ca_state] is one of the two listening states. *)
Definition listening (x : t) : bool :=
  mac_state_eqb (ca_state x) start_phase1_listen
  || mac_state_eqb (ca_state x) start_phase2_listen.

End myNode.

(** ** The gateway arrival handler [checkcollision] (lines 368-501)

    [nodes] is the node table, [packetsAtBS] the references of the nodes whose
    packet is on the air, [self] the reference of the node whose packet
    arrives ([packet] is [nodes[self].packet]). *)

Section Gateway.

Variable g : G.settings.
Variable now : Q.   (* env.now *)

(** Lines 370-378: the demodulator slots. *)
Definition is_processed (nodes : list myNode.t) (i : nat) : bool :=
  match nodes !! i with
  | Some o => myPacket.processed (myNode.packet o)
  | None => false
  end.

Fixpoint count_processed (nodes : list myNode.t) (packetsAtBS : list nat) : Z :=
  match packetsAtBS with
  | [] => 0
  | i :: rest =>
      (if is_processed nodes i then 1 else 0) + count_processed nodes rest
  end.

Definition mark_processed (packetsAtBS : list nat) (self : nat)
    (nodes : list myNode.t) : list myNode.t :=
  let processing := count_processed nodes packetsAtBS in
  if processing >? G.maxBSReceives g then
    alter (myNode.upd_packet (myPacket.set_processed false)) self nodes
  else
    alter (myNode.upd_packet (myPacket.set_processed true)) self nodes.

Definition mark_collided (i : nat) (nodes : list myNode.t) : list myNode.t :=
  alter (myNode.upd_packet (myPacket.set_collided true)) i nodes.

(** Lines 407-434: one iteration of [for other in packetsAtBS]; the
    accumulator is the node table and the local flag [col]. *)
Definition collide_with (self : nat) (acc : list myNode.t * bool) (other : nat)
    : list myNode.t * bool :=
  let '(nodes, col) := acc in
  match nodes !! self, nodes !! other with
  | Some s, Some o =>
      let packet := myNode.packet s in
      if negb (myNode.nodeid o =? myPacket.nodeid packet) then
        if frequencyCollision packet (myNode.packet o)
           && sfCollision packet (myNode.packet o) then
          if G.full_collision g then
            if timingCollision now packet (myNode.packet o) then
              let '(c1, c2) := powerCollision packet (myNode.packet o) in
              let nodes := if c1 then mark_collided self nodes else nodes in
              let nodes := if c2 then mark_collided other nodes else nodes in
              (nodes, col || c1)
            else (nodes, col)
          else (mark_collided other (mark_collided self nodes), true)
        else (nodes, col)
      else (nodes, col)
  | _, _ => (nodes, col)
  end.

Definition pairwise (packetsAtBS : list nat) (self : nat)
    (nodes : list myNode.t) : list myNode.t * bool :=
  foldl (collide_with self) (nodes, false) packetsAtBS.

(** Lines 454-461: the body of the two nested loops for one [other] and one
    [node]. *)
Definition cancel_one (other node : myNode.t) : myNode.t :=
  let node :=
    if myNode.receive_rts node
       && (myNode.receive_rts_from node =? myNode.nodeid other)
       && myPacket.collided (myNode.packet other)
    then myNode.set_receive_rts false node else node in
  if myNode.receive_data node
     && (myNode.receive_data_from node =? myNode.nodeid other)
     && myPacket.collided (myNode.packet other)
  then myNode.set_receive_data false node else node.

Definition cancel_hints (packetsAtBS : list nat) (nodes : list myNode.t)
    : list myNode.t :=
  foldl (fun nodes other =>
           match nodes !! other with
           | Some o => cancel_one o <$> nodes
           | None => nodes
           end) nodes packetsAtBS.

(** Lines 477-499: the body of [for node in nodes]. *)
Definition hint_one (packet : myPacket.t) (node : myNode.t) : myNode.t :=
  if negb (myNode.nodeid node =? myPacket.nodeid packet) then
    if myNode.listening node then
      if negb (myNode.receive_rts node) && negb (myNode.receive_data node) then
        match myPacket.ptype packet with
        | rtsPacketType =>
            myNode.set_nav (myPacket.data_len packet)
              (myNode.set_receive_rts_time now
                 (myNode.set_receive_rts_from (myPacket.nodeid packet)
                    (myNode.set_receive_rts true node)))
        | dataPacketType =>
            myNode.set_nav (G.max_payload_size g)
              (myNode.set_receive_data_time now
                 (myNode.set_receive_data_from (myPacket.nodeid packet)
                    (myNode.set_receive_data true node)))
        end
      else node
    else node
  else node.

Definition propagate_hints (self : nat) (nodes : list myNode.t) : list myNode.t :=
  match nodes !! self with
  | Some s => hint_one (myNode.packet s) <$> nodes
  | None => nodes
  end.

(** The whole handler; the result is the node table and the returned [col]. *)
Definition checkcollision (packetsAtBS : list nat) (self : nat)
    (nodes : list myNode.t) : list myNode.t * bool :=
  let nodes := mark_processed packetsAtBS self nodes in
  let '(nodes, col) := pairwise packetsAtBS self nodes in
  let nodes := if G.CA g then cancel_hints packetsAtBS nodes else nodes in
  if col then (nodes, true)
  else
    let nodes := if G.CA g then propagate_hints self nodes else nodes in
    (nodes, false).

End Gateway.

(** ** The state of a run *)

(** Where the generator [transmit] of a node resumes.  Each point is the test
    of one [if] block of the loop body, or the statement after a [yield] that
    is not the last statement of its block. *)
Inductive pc : Set :=
  | pc_loop              (* line 967: top of [while True] *)
  | pc_want_transmit     (* line 996 *)
  | pc_start_CA          (* line 1082 *)
  | pc_listen1           (* line 1112 *)
  | pc_listen1_rts       (* line 1151 *)
  | pc_phase2_backoff    (* line 1172 *)
  | pc_rts_loop          (* line 1185: the test of the RTS [while] *)
  | pc_rts_sent          (* line 1254: after the airtime of the RTS *)
  | pc_phase2_rts        (* line 1282 *)
  | pc_listen2           (* line 1307 *)
  | pc_listen2_rts       (* line 1346 *)
  | pc_phase3_backoff    (* line 1367 *)
  | pc_phase3_transmit   (* line 1376 *)
  | pc_data_sent         (* line 1437: after the airtime of the DATA *)
  | pc_start_nav         (* line 1467 *)
  | pc_end               (* line 1605: end of the loop body *)
  | pc_nc_wait           (* line 1496: no CA, after [transmit_wait] *)
  | pc_nc_loop           (* line 1508: no CA, the test of the [while] *)
  | pc_nc_sent           (* line 1582: no CA, after the airtime *)
  | pc_returned.         (* line 1610: the generator has returned *)

Module Sim.

Record t : Type := mk {
  nodes : list myNode.t;
  tasks : list pc;             (* the resume point of each node's generator *)
  packetsAtBS : list nat;
  channel_busy_rts : bool;
  channel_busy_data : bool;
  nrLost : Z;
  nrCollisions : Z;
  nrReceived : Z;
  nrProcessed : Z;
  nrRTSLost : Z;
  nrRTSCollisions : Z;
  nrRTSReceived : Z;
  nrRTSProcessed : Z;
  n_transmit : Z;
  inter_transmit_time : Q;
  last_transmit_time : Q;
  endSim : Q
}.

Definition eta (x : t) : t :=
  mk (nodes x) (tasks x) (packetsAtBS x) (channel_busy_rts x)
     (channel_busy_data x) (nrLost x) (nrCollisions x) (nrReceived x)
     (nrProcessed x) (nrRTSLost x) (nrRTSCollisions x) (nrRTSReceived x)
     (nrRTSProcessed x) (n_transmit x) (inter_transmit_time x)
     (last_transmit_time x) (endSim x).

Definition set_nodes : list myNode.t -> t -> t := ltac:(field_setter eta nodes).
Definition set_tasks : list pc -> t -> t := ltac:(field_setter eta tasks).
Definition set_packetsAtBS : list nat -> t -> t :=
  ltac:(field_setter eta packetsAtBS).
Definition set_channel_busy_rts : bool -> t -> t :=
  ltac:(field_setter eta channel_busy_rts).
Definition set_channel_busy_data : bool -> t -> t :=
  ltac:(field_setter eta channel_busy_data).
Definition set_nrLost : Z -> t -> t := ltac:(field_setter eta nrLost).
Definition set_nrCollisions : Z -> t -> t := ltac:(field_setter eta nrCollisions).
Definition set_nrReceived : Z -> t -> t := ltac:(field_setter eta nrReceived).
Definition set_nrProcessed : Z -> t -> t := ltac:(field_setter eta nrProcessed).
Definition set_nrRTSLost : Z -> t -> t := ltac:(field_setter eta nrRTSLost).
Definition set_nrRTSCollisions : Z -> t -> t :=
  ltac:(field_setter eta nrRTSCollisions).
Definition set_nrRTSReceived : Z -> t -> t :=
  ltac:(field_setter eta nrRTSReceived).
Definition set_nrRTSProcessed : Z -> t -> t :=
  ltac:(field_setter eta nrRTSProcessed).
Definition set_n_transmit : Z -> t -> t := ltac:(field_setter eta n_transmit).
Definition set_inter_transmit_time : Q -> t -> t :=
  ltac:(field_setter eta inter_transmit_time).
Definition set_last_transmit_time : Q -> t -> t :=
  ltac:(field_setter eta last_transmit_time).
Definition set_endSim : Q -> t -> t := ltac:(field_setter eta endSim).

(** [nodes[i] = node], [nodes[i].f = ...] and the move of a resume point. *)
Definition put (i : nat) (node : myNode.t) (st : t) : t :=
  set_nodes (<[i := node]> (nodes st)) st.

Definition upd (i : nat) (f : myNode.t -> myNode.t) (st : t) : t :=
  set_nodes (alter f i (nodes st)) st.

Definition goto (i : nat) (c : pc) (st : t) : t :=
  set_tasks (<[i := c]> (tasks st)) st.

End Sim.

(** [packetsAtBS.remove(node)]: the first occurrence. *)
Fixpoint py_remove (i : nat) (l : list nat) : list nat :=
  match l with
  | [] => []
  | j :: rest => if Nat.eqb i j then rest else j :: py_remove i rest
  end.

(** [node in packetsAtBS]. *)
Definition py_in (i : nat) (l : list nat) : bool := existsb (Nat.eqb i) l.

(** ** The sensitivity table [sensi] (lines 341-363, 1721-1730) *)

Definition sensi_row (lora24GHz : bool) (row : Z) : option (list Q) :=
  if lora24GHz then
     match row with
     | 0 => Some ([-109.0; -107.0; -105.0; -99.0])%Q
     | 1 => Some ([-111.0; -110.0; -118.0; -103.0])%Q
     | 2 => Some ([-115.0; -113.0; -112.0; -106.0])%Q
     | 3 => Some ([-118.0; -116.0; -115.0; -109.0])%Q
     | 4 => Some ([-121.0; -119.0; -117.0; -111.0])%Q
     | 5 => Some ([-124.0; -122.0; -120.0; -114.0])%Q
     | 6 => Some ([-127.0; -125.0; -123.0; -117.0])%Q
     | 7 => Some ([-130.0; -128.0; -126.0; -120.0])%Q
     | _ => None
     end
   else
     match row with
     | 0 => Some ([-118.0; -115.0; -111.0])%Q
     | 1 => Some ([-126.5; -124.25; -120.75])%Q
     | 2 => Some ([-127.25; -126.75; -124.0])%Q
     | 3 => Some ([-131.25; -128.25; -127.5])%Q
     | 4 => Some ([-132.75; -130.25; -128.75])%Q
     | 5 => Some ([-134.5; -132.75; -128.75])%Q
     | 6 => Some ([-133.25; -132.25; -132.25])%Q
     | _ => None
     end.

(** [list.index(bw)]: the position of the first equal element. *)
Fixpoint py_index (bw : Q) (l : list Q) : option nat :=
  match l with
  | [] => None
  | b :: rest => if Qeq_bool b bw then Some 0%nat else S <$> py_index bw rest
  end.

(** [sensi[sf - 6, [125,250,500].index(bw) + 1]] and its 2.4 GHz twin.
    [None] where Python raises; a negative row, which numpy would wrap, is
    [None] too (the constructor gives [sf] in 6..12, resp. 5..12). *)
Definition sensitivity (lora24GHz : bool) (packet : myPacket.t) : option Q :=
  let first_sf := if lora24GHz then 5 else 6 in
  let bws := (if lora24GHz then [203.125; 406.25; 812.5; 1625] else [125; 250; 500])%Q in
  row ← sensi_row lora24GHz (myPacket.sf packet - first_sf);
  col ← py_index (myPacket.bw packet) bws;
  row !! col.

(** ** The generator [transmit] (lines 924-1615)

    One step runs the generator of node [i] from its resume point to the next
    resume point.  The result is the new state and the timeout yielded to
    the scheduler, if the step ends in a [yield]; it is [None] where the
    sensitivity lookup raises or where the generator has returned (for the
    other statements that can raise see the conventions at the top). *)

Section Transmit.

Variable g : G.settings.
Variable d : draws.
Variable now : Q.   (* env.now *)

Definition expoDistribType : Z := 1.
Definition uniformDistribType : Z := 2.

Local Abbreviation toa := (airtime (G.lora24GHz g)).
Local Abbreviation retype := (myPacket.setPacketType (G.lora24GHz g)).

(** [random.randint(1,100) <= CCA_prob and CCA_prob != 0]. *)
Definition cca_detects : bool :=
  (randint (u_cca d) 1 100 <=? G.CCA_prob g) && negb (G.CCA_prob g =? 0).

(** Lines 973-983.  [distrib] is [distribType], one of the two constants;
    for another value Python would find [transmit_wait] unbound. *)
Definition transmit_wait_CA (node : myNode.t) : Q :=
  if G.experiment g =? 6 then
    (inject_Z (myNode.cycle node * myNode.period node) - now
     + inject_Z (myNode.nodeid node * 100))%Q
  else if G.experiment g =? 7 then
    (inject_Z (myNode.cycle node * myNode.period node) - now
     + inject_Z (myNode.nodeid node * 500))%Q
  else
    let transmit_wait := 0%Q in
    let transmit_wait :=
      if myNode.distrib node =? expoDistribType then u_expo d
      else transmit_wait in
    if myNode.distrib node =? uniformDistribType then
      uniform (u_unif d)
        (inject_Z (Z.max 2000 (myNode.period node - 5000)))
        (inject_Z (myNode.period node + 5000))
    else transmit_wait.

(** Lines 1481-1488. *)
Definition transmit_wait_noCA (node : myNode.t) : Q :=
  if G.experiment g =? 6 then
    (inject_Z (myNode.cycle node * myNode.period node) - now
     + inject_Z (myNode.nodeid node * 100))%Q
  else if G.experiment g =? 7 then
    (inject_Z (myNode.cycle node * myNode.period node) - now
     + inject_Z (myNode.nodeid node * 500))%Q
  else u_expo d.

(** Lines 1025-1031 and 1498-1504: the inter-transmit statistics. *)
Definition count_transmit (st : Sim.t) : Sim.t :=
  let st := Sim.set_n_transmit (Sim.n_transmit st + 1) st in
  let st :=
    if Sim.n_transmit st >? 1 then
      Sim.set_inter_transmit_time
        (Sim.inter_transmit_time st + (now - Sim.last_transmit_time st))%Q st
    else st in
  Sim.set_last_transmit_time now st.

(** Lines 1062-1067, 1215-1219, 1535-1539: the backoff draw and the growth
    of the exponent. *)
Definition draw_backoff (node : myNode.t) : myNode.t :=
  myNode.set_backoff
    (randint (u_backoff d) (G.Wbusy_min g) (2 ^ myNode.Wbusy_BE node)) node.

Definition grow_BE (node : myNode.t) : myNode.t :=
  if G.Wbusy_exp_backoff g then
    if myNode.Wbusy_BE node <? G.Wbusy_maxBE g then
      myNode.set_Wbusy_BE (myNode.Wbusy_BE node + 1) node
    else node
  else node.

Definition backoff_time (node : myNode.t) : Q :=
  (inject_Z (myNode.backoff node) * myPacket.Tpream (myNode.packet node))%Q.

(** *** Clear-channel assessments *)

(** Lines 1033-1054 (want_transmit). *)
Definition cca_want_transmit (st : Sim.t) (node : myNode.t) : myNode.t * bool :=
  let channel_find_busy := false in
  if G.check_busy g then
    let node := myNode.set_n_cca (myNode.n_cca node + 1) node in
    if Sim.channel_busy_rts st || Sim.channel_busy_data st then
      let node :=
        if Sim.channel_busy_rts st then
          myNode.set_n_busy_rts_p1 (myNode.n_busy_rts_p1 node + 1)
            (myNode.set_n_busy_rts (myNode.n_busy_rts node + 1) node)
        else myNode.set_n_busy_data (myNode.n_busy_data node + 1) node in
      if cca_detects then (node, true) else (node, false)
    else (node, channel_find_busy)
  else (node, channel_find_busy).

(** Lines 1186-1207 (before the RTS), with [check_busy_rts]. *)
Definition cca_rts (st : Sim.t) (node : myNode.t) : myNode.t * bool :=
  if G.check_busy_rts g then
    let node := myNode.set_n_cca (myNode.n_cca node + 1) node in
    if Sim.channel_busy_rts st || Sim.channel_busy_data st then
      let node :=
        if Sim.channel_busy_rts st then
          myNode.set_n_busy_rts (myNode.n_busy_rts node + 1) node
        else myNode.set_n_busy_data (myNode.n_busy_data node + 1) node in
      if cca_detects then (node, true) else (node, false)
    else (node, false)
  else (node, false).

(** Lines 1377-1397 (before the DATA of phase 3). *)
Definition cca_phase3 (st : Sim.t) (node : myNode.t) : myNode.t * bool :=
  let channel_find_busy := false in
  if G.check_busy g then
    let node := myNode.set_n_cca (myNode.n_cca node + 1) node in
    if Sim.channel_busy_rts st || Sim.channel_busy_data st then
      let node :=
        if Sim.channel_busy_rts st then
          myNode.set_n_busy_rts (myNode.n_busy_rts node + 1) node
        else myNode.set_n_busy_data (myNode.n_busy_data node + 1) node in
      if cca_detects then (node, true) else (node, false)
    else (node, channel_find_busy)
  else (node, channel_find_busy).

(** Lines 1509-1527 (no CA): only [channel_busy_data] is read. *)
Definition cca_noCA (st : Sim.t) (node : myNode.t) : myNode.t * bool :=
  if G.check_busy g then
    let node := myNode.set_n_cca (myNode.n_cca node + 1) node in
    if Sim.channel_busy_data st then
      let node := myNode.set_n_busy_data (myNode.n_busy_data node + 1) node in
      if cca_detects then (node, true) else (node, false)
    else (node, false)
  else (node, false).

(** *** The arrival of a packet at the gateway *)

(** Lines 1236-1250 and 1419-1433. *)
Definition arrive (i : nat) (st : Sim.t) : option Sim.t :=
  if py_in i (Sim.packetsAtBS st) then Some st
  else
    node ← Sim.nodes st !! i;
    sens ← sensitivity (G.lora24GHz g) (myNode.packet node);
    if Qltb (myPacket.rssi (myNode.packet node)) sens then
      Some (Sim.upd i (myNode.upd_packet (myPacket.set_lost true)) st)
    else
      let st := Sim.upd i (myNode.upd_packet (myPacket.set_lost false)) st in
      let '(nodes, _) :=
        checkcollision g now (Sim.packetsAtBS st) i (Sim.nodes st) in
      let st := Sim.set_nodes nodes st in
      let st := Sim.set_packetsAtBS (Sim.packetsAtBS st ++ [i]) st in
      Some (Sim.upd i (myNode.upd_packet (myPacket.set_addTime now)) st).

(** Lines 1560-1578: without CA the returned value is stored in the flag. *)
Definition arrive_noCA (i : nat) (st : Sim.t) : option Sim.t :=
  if py_in i (Sim.packetsAtBS st) then Some st
  else
    node ← Sim.nodes st !! i;
    sens ← sensitivity (G.lora24GHz g) (myNode.packet node);
    if Qltb (myPacket.rssi (myNode.packet node)) sens then
      Some (Sim.upd i (myNode.upd_packet (myPacket.set_lost true)) st)
    else
      let st := Sim.upd i (myNode.upd_packet (myPacket.set_lost false)) st in
      let '(nodes, col) :=
        checkcollision g now (Sim.packetsAtBS st) i (Sim.nodes st) in
      let st := Sim.set_nodes nodes st in
      let st :=
        if col then Sim.upd i (myNode.upd_packet (myPacket.set_collided true)) st
        else Sim.upd i (myNode.upd_packet (myPacket.set_collided false)) st in
      let st := Sim.set_packetsAtBS (Sim.packetsAtBS st ++ [i]) st in
      Some (Sim.upd i (myNode.upd_packet (myPacket.set_addTime now)) st).

(** Lines 1272-1277, 1453-1458, 1596-1601: the packet leaves the gateway
    and its flags are reset. *)
Definition leave (i : nat) (st : Sim.t) : Sim.t :=
  let st :=
    if py_in i (Sim.packetsAtBS st) then
      Sim.set_packetsAtBS (py_remove i (Sim.packetsAtBS st)) st
    else st in
  Sim.upd i (fun node =>
    myNode.upd_packet (myPacket.set_lost false)
      (myNode.upd_packet (myPacket.set_processed false)
         (myNode.upd_packet (myPacket.set_collided false) node))) st.

(** *** The blocks of the loop body *)

Definition result : Type := option (Sim.t * option Q).

(** The generator of node [i] goes on at [c]; [w] is the timeout it yields. *)
Definition next (c : pc) (i : nat) (st : Sim.t) (w : option Q) : result :=
  Some (Sim.goto i c st, w).

(** Lines 972-991. *)
Definition block_schedule_tx (i : nat) (node : myNode.t) (st : Sim.t) : result :=
  if mac_state_eqb (myNode.ca_state node) schedule_tx then
    let transmit_wait := transmit_wait_CA node in
    let node := myNode.set_cycle (myNode.cycle node + 1) node in
    let node := myNode.set_ca_state want_transmit node in
    next pc_want_transmit i (Sim.put i node st) (Some transmit_wait)
  else next pc_want_transmit i st None.

(** Lines 996-1077. *)
Definition block_want_transmit (i : nat) (node : myNode.t) (st : Sim.t) : result :=
  if mac_state_eqb (myNode.ca_state node) want_transmit
     && packet_type_eqb (myPacket.ptype (myNode.packet node)) dataPacketType then
    if myNode.n_retry node =? 0 then
      let node := myNode.set_n_aborted (myNode.n_aborted node + 1) node in
      let node := myNode.set_n_retry (G.n_retry g) node in
      let node := myNode.set_Wbusy_BE (G.Wbusy_BE g) node in
      let node := myNode.set_cca false node in
      let node := myNode.set_nav 0 node in
      next pc_start_CA i (Sim.put i node st) None
    else
      let '(node, st) :=
        if myNode.cca node then (myNode.set_cca false node, st)
        else if negb (myNode.nav node =? 0) then
          let node := myNode.set_nav 0 node in
          if negb (G.W2afterNAV g =? G.W2 g) then
            (myNode.set_W2 (G.W2afterNAV g) node, st)
          else (myNode.set_W2 (G.W2 g) node, st)
        else
          (myNode.set_want_transmit_time now node, count_transmit st) in
      let '(node, channel_find_busy) := cca_want_transmit st node in
      if channel_find_busy then
        let node := draw_backoff node in
        let node := myNode.set_cca true node in
        let node := grow_BE node in
        let node := myNode.set_n_retry (myNode.n_retry node - 1) node in
        next pc_start_CA i (Sim.put i node st) (Some (backoff_time node))
      else
        let node := myNode.set_my_P (randint (u_P d) 0 100) node in
        let node := myNode.set_ca_state start_CA node in
        let node := myNode.upd_packet (retype rtsPacketType) node in
        next pc_start_CA i (Sim.put i node st) None
  else next pc_start_CA i st None.

(** The listening period [WL*Tpream + rectime] (lines 1087-1091, 1297-1301). *)
Definition listen_time (node : myNode.t) : Q :=
  (inject_Z (G.WL g) * myPacket.Tpream (myNode.packet node)
   + myPacket.rectime (myNode.packet node))%Q.

Definition start_listen (s : mac_state) (node : myNode.t) : myNode.t :=
  let node := myNode.set_ca_state s node in
  let node := myNode.set_ca_listen_start_time now node in
  myNode.set_ca_listen_end_time (now + listen_time node)%Q node.

(** Lines 1082-1106.  The two branches on [CA2] draw the same backoff. *)
Definition block_start_CA (i : nat) (node : myNode.t) (st : Sim.t) : result :=
  if mac_state_eqb (myNode.ca_state node) start_CA
     && packet_type_eqb (myPacket.ptype (myNode.packet node)) rtsPacketType then
    if myNode.my_P node >? myNode.P node then
      let node := start_listen start_phase1_listen node in
      next pc_listen1 i (Sim.put i node st) (Some (listen_time node))
    else
      let node := myNode.set_ca_state start_phase2_backoff node in
      let node :=
        if G.CA2 g then myNode.set_backoff (randint (u_backoff d) 0 (G.W2 g)) node
        else myNode.set_backoff (randint (u_backoff d) 0 (G.W2 g)) node in
      next pc_listen1 i (Sim.put i node st) (Some (backoff_time node))
  else next pc_listen1 i st None.

(** Lines 1115-1136 and 1310-1331: a DATA header was heard while listening;
    [count] is the increment of the counter of the phase. *)
Definition nav_after_data (count : myNode.t -> myNode.t) (node : myNode.t)
    : myNode.t * option Q :=
  let node :=
    myNode.set_total_listen_time
      (myNode.total_listen_time node
       + (myNode.receive_data_time node - myNode.ca_listen_start_time node))%Q
      node in
  let node := myNode.set_receive_data false node in
  let node := count node in
  let packet := myNode.packet node in
  let nav_period :=
    toa (myPacket.sf packet) (myPacket.cr packet) (myNode.nav node)
      (myPacket.bw packet) in
  let node := myNode.set_ca_state start_nav node in
  let extra_nav_difs :=
    if negb (G.Wnav g =? 0) then randint (u_nav d) 0 (G.Wnav g) else 0 in
  if Qle_bool
       (myNode.receive_data_time node + nav_period
        + inject_Z extra_nav_difs * myPacket.Tpream packet)%Q now
  then (node, None)
  else
    (node,
     Some (nav_period + inject_Z extra_nav_difs * myPacket.Tpream packet
           - (now - myNode.receive_data_time node))%Q).

(** Lines 1152-1167 and 1347-1362: an RTS was heard while listening. *)
Definition nav_after_rts (count : myNode.t -> myNode.t) (node : myNode.t)
    : myNode.t * option Q :=
  let node := myNode.set_receive_rts false node in
  let node :=
    myNode.set_total_listen_time
      (myNode.total_listen_time node
       + (myNode.receive_rts_time node - myNode.ca_listen_start_time node))%Q
      node in
  let node := count node in
  let packet := myNode.packet node in
  let nav_period :=
    (inject_Z (G.WL g) * myPacket.Tpream packet + myPacket.rectime packet
     + inject_Z (G.W3 g) * myPacket.Tpream packet
     + toa (myPacket.sf packet) (myPacket.cr packet) (myNode.nav node)
         (myPacket.bw packet))%Q in
  let extra_nav_difs :=
    if negb (G.Wnav g =? 0) then randint (u_nav d) 0 (G.Wnav g) else 0 in
  let nav_period :=
    (nav_period + inject_Z extra_nav_difs * myPacket.Tpream packet
     - (now - myNode.receive_rts_time node))%Q in
  let node := myNode.set_ca_state start_nav node in
  (node, Some nav_period).

(** Lines 1112-1144. *)
Definition block_listen1 (i : nat) (node : myNode.t) (st : Sim.t) : result :=
  if mac_state_eqb (myNode.ca_state node) start_phase1_listen
     && negb (myNode.receive_rts node) then
    if myNode.receive_data node then
      let '(node, w) :=
        nav_after_data
          (fun node => myNode.set_n_receive_nav_data_p1
                         (myNode.n_receive_nav_data_p1 node + 1) node) node in
      next pc_listen1_rts i (Sim.put i node st) w
    else
      let node := myNode.set_backoff (randint (u_backoff d) 0 (G.W2 g)) node in
      let node := myNode.set_ca_state start_phase2_backoff node in
      next pc_listen1_rts i (Sim.put i node st) (Some (backoff_time node))
  else next pc_listen1_rts i st None.

(** Lines 1151-1167. *)
Definition block_listen1_rts (i : nat) (node : myNode.t) (st : Sim.t) : result :=
  if mac_state_eqb (myNode.ca_state node) start_phase1_listen
     && myNode.receive_rts node then
    let '(node, w) :=
      nav_after_rts
        (fun node => myNode.set_n_receive_nav_rts_p1
                       (myNode.n_receive_nav_rts_p1 node + 1) node) node in
    next pc_phase2_backoff i (Sim.put i node st) w
  else next pc_phase2_backoff i st None.

(** Lines 1172-1183: the entry of the RTS phase. *)
Definition block_phase2_backoff (i : nat) (node : myNode.t) (st : Sim.t) : result :=
  if mac_state_eqb (myNode.ca_state node) start_phase2_backoff then
    let node := myNode.set_ca_state start_phase2_rts node in
    let node := myNode.set_Wbusy_BE (G.Wbusy_BE g) node in
    let node :=
      if G.n_retry_rts g >? 0 then myNode.set_n_retry_rts (G.n_retry_rts g) node
      else node in
    let node := myNode.set_cca false node in
    next pc_rts_loop i (Sim.put i node st) None
  else next pc_phase2_rts i st None.

(** Lines 1227-1253: the RTS is put on the air. *)
Definition send_rts (i : nat) (node : myNode.t) (st : Sim.t) : result :=
  let node := myNode.set_n_rts_sent (myNode.n_rts_sent node + 1) node in
  let node :=
    myNode.set_total_retry_rts
      (myNode.total_retry_rts node + (G.n_retry_rts g - myNode.n_retry_rts node))
      node in
  st ← arrive i (Sim.put i node st);
  let st := Sim.set_channel_busy_rts true st in
  next pc_rts_sent i st (Some (myPacket.rectime (myNode.packet node))).

(** Lines 1185-1224: one evaluation of the test of
    [while node.n_retry_rts and channel_find_busy] and of the body.
    [channel_find_busy] is true at every evaluation that is a resume point:
    on entry, and after the [yield] of the busy branch. *)
Definition block_rts_loop (i : nat) (node : myNode.t) (st : Sim.t) : result :=
  if negb (myNode.n_retry_rts node =? 0) then
    let '(node, channel_find_busy) := cca_rts st node in
    if channel_find_busy then
      let node := draw_backoff node in
      let node := grow_BE node in
      let node :=
        if G.n_retry_rts g >? 0 then
          myNode.set_n_retry_rts (myNode.n_retry_rts node - 1) node
        else node in
      next pc_rts_loop i (Sim.put i node st) (Some (backoff_time node))
    else send_rts i node st
  else send_rts i node st.

(** Lines 1256-1268: the counters of the RTS packets. *)
Definition count_rts (packet : myPacket.t) (st : Sim.t) : Sim.t :=
  let st :=
    if myPacket.lost packet then Sim.set_nrRTSLost (Sim.nrRTSLost st + 1) st
    else st in
  let st :=
    if myPacket.collided packet then
      Sim.set_nrRTSCollisions (Sim.nrRTSCollisions st + 1) st
    else st in
  let st :=
    if negb (myPacket.collided packet) && negb (myPacket.lost packet) then
      Sim.set_nrRTSReceived (Sim.nrRTSReceived st + 1) st
    else st in
  if myPacket.processed packet then
    Sim.set_nrRTSProcessed (Sim.nrRTSProcessed st + 1) st
  else st.

(** Lines 1254-1277: the airtime of the RTS is over. *)
Definition block_rts_sent (i : nat) (node : myNode.t) (st : Sim.t) : result :=
  let st := Sim.set_channel_busy_rts false st in
  let st := count_rts (myNode.packet node) st in
  next pc_phase2_rts i (leave i st) None.

(** Lines 1282-1301. *)
Definition block_phase2_rts (i : nat) (node : myNode.t) (st : Sim.t) : result :=
  if mac_state_eqb (myNode.ca_state node) start_phase2_rts then
    if G.CA1 g then
      let node := myNode.set_ca_state start_phase3_backoff node in
      let node := myNode.set_backoff (randint (u_backoff d) 0 (G.W3 g)) node in
      next pc_listen2 i (Sim.put i node st) (Some (backoff_time node))
    else
      let node := start_listen start_phase2_listen node in
      next pc_listen2 i (Sim.put i node st) (Some (listen_time node))
  else next pc_listen2 i st None.

(** Lines 1307-1339. *)
Definition block_listen2 (i : nat) (node : myNode.t) (st : Sim.t) : result :=
  if mac_state_eqb (myNode.ca_state node) start_phase2_listen
     && negb (myNode.receive_rts node) then
    if myNode.receive_data node then
      let '(node, w) :=
        nav_after_data
          (fun node => myNode.set_n_receive_nav_data_p2
                         (myNode.n_receive_nav_data_p2 node + 1) node) node in
      next pc_listen2_rts i (Sim.put i node st) w
    else
      let node := myNode.set_ca_state start_phase3_backoff node in
      let node := myNode.set_backoff (randint (u_backoff d) 0 (G.W3 g)) node in
      next pc_listen2_rts i (Sim.put i node st) (Some (backoff_time node))
  else next pc_listen2_rts i st None.

(** Lines 1346-1362. *)
Definition block_listen2_rts (i : nat) (node : myNode.t) (st : Sim.t) : result :=
  if mac_state_eqb (myNode.ca_state node) start_phase2_listen
     && myNode.receive_rts node then
    let '(node, w) :=
      nav_after_rts
        (fun node => myNode.set_n_receive_nav_rts_p2
                       (myNode.n_receive_nav_rts_p2 node + 1) node) node in
    next pc_phase3_backoff i (Sim.put i node st) w
  else next pc_phase3_backoff i st None.

(** Lines 1367-1371. *)
Definition block_phase3_backoff (i : nat) (node : myNode.t) (st : Sim.t) : result :=
  if mac_state_eqb (myNode.ca_state node) start_phase3_backoff then
    let node := myNode.set_ca_state start_phase3_transmit node in
    let node := myNode.upd_packet (retype dataPacketType) node in
    next pc_phase3_transmit i (Sim.put i node st) None
  else next pc_phase3_transmit i st None.

(** Lines 1376-1436. *)
Definition block_phase3_transmit (i : nat) (node : myNode.t) (st : Sim.t) : result :=
  if mac_state_eqb (myNode.ca_state node) start_phase3_transmit
     && packet_type_eqb (myPacket.ptype (myNode.packet node)) dataPacketType then
    let '(node, channel_find_busy) := cca_phase3 st node in
    if channel_find_busy then
      let node := myNode.set_cca true node in
      let node := myNode.set_n_retry (myNode.n_retry node - 1) node in
      let node := myNode.set_ca_state want_transmit node in
      next pc_start_nav i (Sim.put i node st) None
    else
      let node := myNode.set_n_data_sent (myNode.n_data_sent node + 1) node in
      let node :=
        myNode.set_total_retry
          (myNode.total_retry node + (G.n_retry g - myNode.n_retry node)) node in
      let node :=
        myNode.set_latency
          (myNode.latency node + (now - myNode.want_transmit_time node))%Q node in
      st ← arrive i (Sim.put i node st);
      let st := Sim.set_channel_busy_data true st in
      next pc_data_sent i st (Some (myPacket.rectime (myNode.packet node)))
  else next pc_start_nav i st None.

(** Lines 1439-1449 and 1584-1592: the counters of the DATA packets. *)
Definition count_data (packet : myPacket.t) (st : Sim.t) : Sim.t :=
  let st :=
    if myPacket.lost packet then Sim.set_nrLost (Sim.nrLost st + 1) st else st in
  let st :=
    if myPacket.collided packet then
      Sim.set_nrCollisions (Sim.nrCollisions st + 1) st
    else st in
  let st :=
    if negb (myPacket.collided packet) && negb (myPacket.lost packet) then
      Sim.set_nrReceived (Sim.nrReceived st + 1) st
    else st in
  if myPacket.processed packet then
    Sim.set_nrProcessed (Sim.nrProcessed st + 1) st
  else st.

(** Lines 1437-1462: the airtime of the DATA is over. *)
Definition block_data_sent (i : nat) (node : myNode.t) (st : Sim.t) : result :=
  let st := Sim.set_channel_busy_data false st in
  let st := count_data (myNode.packet node) st in
  let st := leave i st in
  let st :=
    Sim.upd i (fun node =>
      myNode.set_ca_state schedule_tx
        (myNode.set_nav 0
           (myNode.set_cca false (myNode.set_n_retry (G.n_retry g) node)))) st in
  next pc_start_nav i st None.

(** Lines 1467-1473. *)
Definition block_start_nav (i : nat) (node : myNode.t) (st : Sim.t) : result :=
  if mac_state_eqb (myNode.ca_state node) start_nav then
    let node := myNode.set_ca_state want_transmit node in
    let node := myNode.upd_packet (retype dataPacketType) node in
    let node := myNode.set_n_retry (myNode.n_retry node - 1) node in
    next pc_end i (Sim.put i node st) None
  else next pc_end i st None.

(** Lines 1605-1610; the progress display of lines 1612-1615 only prints. *)
Definition block_end (i : nat) (st : Sim.t) : result :=
  if Sim.nrProcessed st >? G.targetSentPacket g then
    next pc_returned i (Sim.set_endSim now st) None
  else next pc_loop i st None.

(** *** Without collision avoidance (lines 1479-1603) *)

(** Lines 1481-1494. *)
Definition block_nc_schedule (i : nat) (node : myNode.t) (st : Sim.t) : result :=
  let transmit_wait := transmit_wait_noCA node in
  let node := myNode.set_cycle (myNode.cycle node + 1) node in
  next pc_nc_wait i (Sim.put i node st) (Some transmit_wait).

(** Lines 1496-1506. *)
Definition block_nc_wait (i : nat) (node : myNode.t) (st : Sim.t) : result :=
  let node := myNode.set_want_transmit_time now node in
  let st := count_transmit st in
  next pc_nc_loop i (Sim.put i node st) None.

(** Lines 1548-1581: after the [while]. *)
Definition nc_after_loop (i : nat) (node : myNode.t) (st : Sim.t) : result :=
  if myNode.n_retry node =? 0 then
    let node := myNode.set_n_aborted (myNode.n_aborted node + 1) node in
    let node := myNode.set_n_retry (G.n_retry g) node in
    let node := myNode.set_Wbusy_BE (G.Wbusy_BE g) node in
    next pc_end i (Sim.put i node st) None
  else
    let node := myNode.set_n_data_sent (myNode.n_data_sent node + 1) node in
    let node :=
      myNode.set_total_retry
        (myNode.total_retry node + (G.n_retry g - myNode.n_retry node)) node in
    let node :=
      myNode.set_latency
        (myNode.latency node + (now - myNode.want_transmit_time node))%Q node in
    st ← arrive_noCA i (Sim.put i node st);
    let st := Sim.set_channel_busy_data true st in
    next pc_nc_sent i st (Some (myPacket.rectime (myNode.packet node))).

(** Lines 1508-1546: one evaluation of the test of
    [while node.n_retry and channel_find_busy] and of the body. *)
Definition block_nc_loop (i : nat) (node : myNode.t) (st : Sim.t) : result :=
  if negb (myNode.n_retry node =? 0) then
    let '(node, channel_find_busy) := cca_noCA st node in
    if channel_find_busy then
      let node := draw_backoff node in
      let node := grow_BE node in
      let node := myNode.set_n_retry (myNode.n_retry node - 1) node in
      let packet := myNode.packet node in
      if G.Wbusy_add_max_toa g then
        next pc_nc_loop i (Sim.put i node st)
          (Some (toa (myPacket.sf packet) (myPacket.cr packet)
                   (G.max_payload_size g) (myPacket.bw packet)
                 + backoff_time node)%Q)
      else next pc_nc_loop i (Sim.put i node st) (Some (backoff_time node))
    else nc_after_loop i node st
  else nc_after_loop i node st.

(** Lines 1582-1603. *)
Definition block_nc_sent (i : nat) (node : myNode.t) (st : Sim.t) : result :=
  let st := Sim.set_channel_busy_data false st in
  let st := count_data (myNode.packet node) st in
  let st := leave i st in
  let st :=
    Sim.upd i (fun node =>
      myNode.set_Wbusy_BE (G.Wbusy_BE g) (myNode.set_n_retry (G.n_retry g) node))
      st in
  next pc_end i st None.

(** *** One step of the generator of node [i] *)

Definition step (i : nat) (st : Sim.t) : result :=
  node ← Sim.nodes st !! i;
  c ← Sim.tasks st !! i;
  match c with
  | pc_loop =>
      if G.CA g then block_schedule_tx i node st else block_nc_schedule i node st
  | pc_want_transmit => block_want_transmit i node st
  | pc_start_CA => block_start_CA i node st
  | pc_listen1 => block_listen1 i node st
  | pc_listen1_rts => block_listen1_rts i node st
  | pc_phase2_backoff => block_phase2_backoff i node st
  | pc_rts_loop => block_rts_loop i node st
  | pc_rts_sent => block_rts_sent i node st
  | pc_phase2_rts => block_phase2_rts i node st
  | pc_listen2 => block_listen2 i node st
  | pc_listen2_rts => block_listen2_rts i node st
  | pc_phase3_backoff => block_phase3_backoff i node st
  | pc_phase3_transmit => block_phase3_transmit i node st
  | pc_data_sent => block_data_sent i node st
  | pc_start_nav => block_start_nav i node st
  | pc_end => block_end i st
  | pc_nc_wait => block_nc_wait i node st
  | pc_nc_loop => block_nc_loop i node st
  | pc_nc_sent => block_nc_sent i node st
  | pc_returned => None
  end.

End Transmit.

(** ** Runs *)

(** Lines 1692-1693 and 1769-1774: the state when [env.run] starts.  Node
    [i] is built with identifier [i]; [rs] gives the radio configuration of
    each node. *)
Definition start (g : G.settings) (avgSendTime distribType packetLength : Z)
    (rs : list myPacket.radio) : Sim.t :=
  {| Sim.nodes :=
       imap (fun i r =>
               myNode.init g (Z.of_nat i) avgSendTime distribType packetLength r) rs;
     Sim.tasks := replicate (length rs) pc_loop;
     Sim.packetsAtBS := [];
     Sim.channel_busy_rts := false; Sim.channel_busy_data := false;
     Sim.nrLost := 0; Sim.nrCollisions := 0; Sim.nrReceived := 0;
     Sim.nrProcessed := 0; Sim.nrRTSLost := 0; Sim.nrRTSCollisions := 0;
     Sim.nrRTSReceived := 0; Sim.nrRTSProcessed := 0;
     Sim.n_transmit := 0; Sim.inter_transmit_time := 0;
     Sim.last_transmit_time := 0; Sim.endSim := 0 |}.

(** The scheduler (simpy) is not part of the script.  A run is any
    interleaving of steps of the generators, at any clock values and with any
    random draws; the runs of the script are among them. *)
Inductive reachable (g : G.settings) (s0 : Sim.t) : Sim.t -> Prop :=
  | reach_start : reachable g s0 s0
  | reach_step st d now i st' w :
      reachable g s0 st ->
      step g d now i st = Some (st', w) ->
      reachable g s0 st'.

Definition is_start (g : G.settings) (s0 : Sim.t) : Prop :=
  exists avgSendTime distribType packetLength rs,
    s0 = start g avgSendTime distribType packetLength rs.

(** The settings the statements below assume: a retry budget that is not
    negative, an initial backoff exponent within its maximum, a gateway with
    some demodulator. *)
Record settings_ok (g : G.settings) : Prop := {
  ok_n_retry : 0 <= G.n_retry g;
  ok_Wbusy : G.Wbusy_BE g <= G.Wbusy_maxBE g;
  ok_maxBS : 0 <= G.maxBSReceives g
}.

(** ** Statements of the design, written from its words

    These definitions do not come from the script; the script's functions
    are compared with them below. *)

(** The frequency test as the comment above [frequencyCollision] (lines
    504-508) states it: the window is 120 when either packet has bandwidth
    500, else 60 when either has bandwidth 250, else 30. *)
Definition frequencyCollision_spec (p1 p2 : myPacket.t) : bool :=
  let df := Z.abs (myPacket.freq p1 - myPacket.freq p2) in
  let either_bw (b : Q) :=
    Qeq_bool (myPacket.bw p1) b || Qeq_bool (myPacket.bw p2) b in
  (df <=? 120) && either_bw 500%Q
  || (df <=? 60) && either_bw 250%Q
  || (df <=? 30).

(** The same rule with the windows in kHz, as the comment and the design
    state them, and the carriers in Hz, as [__init__] assigns them. *)
Definition frequencyCollision_spec_kHz (p1 p2 : myPacket.t) : bool :=
  let df := Z.abs (myPacket.freq p1 - myPacket.freq p2) in
  let either_bw (b : Q) :=
    Qeq_bool (myPacket.bw p1) b || Qeq_bool (myPacket.bw p2) b in
  (df <=? 120000) && either_bw 500%Q
  || (df <=? 60000) && either_bw 250%Q
  || (df <=? 30000).

(** The sub-GHz time on air of the LoRa design guide, with integer symbol
    counts. *)
Definition ceil_div (a b : Z) : Z := - ((- a) / b).

Definition spec_H (sf : Z) : Z := if sf =? 6 then 1 else 0.

Definition spec_DE (sf bw : Z) : Z :=
  if (bw =? 125) && ((sf =? 11) || (sf =? 12)) then 1 else 0.

Definition spec_payloadSymbNB (sf cr pl bw : Z) : Z :=
  8 + Z.max 0
        (ceil_div (8 * pl - 4 * sf + 28 + 16 - 20 * spec_H sf)
                  (4 * (sf - 2 * spec_DE sf bw))
         * (cr + 4)).

Definition spec_Tsym (sf bw : Z) : Q := (inject_Z (2 ^ sf) / inject_Z bw)%Q.

Definition spec_Tpream (sf bw : Z) : Q := ((8 + 4.25) * spec_Tsym sf bw)%Q.

Definition spec_airtime (sf cr pl bw : Z) : Q :=
  (spec_Tpream sf bw
   + inject_Z (spec_payloadSymbNB sf cr pl bw) * spec_Tsym sf bw)%Q.

(** ** Predicates on packets, nodes and states *)

(** The packets the script builds and the assignments it makes to them. *)
Inductive built (lora24GHz : bool) : myPacket.t -> Prop :=
  | built_init nodeid plen r :
      built lora24GHz (myPacket.init lora24GHz nodeid plen r)
  | built_setPacketType ty p :
      built lora24GHz p -> built lora24GHz (myPacket.setPacketType lora24GHz ty p)
  | built_collided b p :
      built lora24GHz p -> built lora24GHz (myPacket.set_collided b p)
  | built_processed b p :
      built lora24GHz p -> built lora24GHz (myPacket.set_processed b p)
  | built_lost b p :
      built lora24GHz p -> built lora24GHz (myPacket.set_lost b p)
  | built_addTime t p :
      built lora24GHz p -> built lora24GHz (myPacket.set_addTime t p).

(** [rectime] is the airtime of the current payload. *)
Definition rectime_ok (lora24GHz : bool) (p : myPacket.t) : Prop :=
  myPacket.rectime p
  = airtime lora24GHz (myPacket.sf p) (myPacket.cr p) (myPacket.pl p)
      (myPacket.bw p).

(** Two packets for the frequency test: 100 Hz apart, the second one with
    bandwidth 500. *)
Definition narrow_packet : myPacket.t :=
  myPacket.init false 0 104 (myPacket.mk_radio 14 12 125 1 (-100) 860000000).

Definition wide_packet : myPacket.t :=
  myPacket.init false 1 104 (myPacket.mk_radio 14 7 500 1 (-100) 860000100).

(** The reception hints of a node. *)
Definition hints (n : myNode.t) : bool * Z * Q * bool * Z * Q * Z :=
  (myNode.receive_rts n, myNode.receive_rts_from n, myNode.receive_rts_time n,
   myNode.receive_data n, myNode.receive_data_from n,
   myNode.receive_data_time n, myNode.nav n).

(** Node [j] of the table carries identifier [j], and so does its packet
    (lines 666 and 1772). *)
Definition unique_ids (nodes : list myNode.t) : Prop :=
  forall j n, nodes !! j = Some n ->
    myNode.nodeid n = Z.of_nat j
    /\ myPacket.nodeid (myNode.packet n) = Z.of_nat j.

(** A hint is held only while listening, and at most one at a time. *)
Definition hint_wf (n : myNode.t) : Prop :=
  (myNode.receive_rts n = true \/ myNode.receive_data n = true ->
   myNode.listening n = true)
  /\ ~ (myNode.receive_rts n = true /\ myNode.receive_data n = true).

(** The node with identifier [id] is on the air and its packet is marked
    collided. *)
Definition in_flight_collided (nodes : list myNode.t) (packetsAtBS : list nat)
    (id : Z) : Prop :=
  exists j o, j ∈ packetsAtBS /\ nodes !! j = Some o
    /\ myNode.nodeid o = id
    /\ myPacket.collided (myNode.packet o) = true.

(** The node table as the loop of lines 477-499 finds it: after the slot
    count, the pairwise evaluation and the correction of lines 451-461. *)
Definition at_propagation (g : G.settings) (now : Q) (packetsAtBS : list nat)
    (self : nat) (nodes : list myNode.t) : list myNode.t :=
  let nodes := mark_processed g packetsAtBS self nodes in
  let nodes := (pairwise g now packetsAtBS self nodes).1 in
  if G.CA g then cancel_hints packetsAtBS nodes else nodes.

(** The effect of the pairwise evaluation and of the correction loop on one
    node. *)
Definition touch (c : bool) (n : myNode.t) : myNode.t :=
  if c then myNode.upd_packet (myPacket.set_collided true) n else n.

Definition clear (r d : bool) (n : myNode.t) : myNode.t :=
  let n := if r then myNode.set_receive_rts false n else n in
  if d then myNode.set_receive_data false n else n.

(** The test of lines 478-482 on one node. *)
Definition eligible (packet : myPacket.t) (n : myNode.t) : bool :=
  negb (myNode.nodeid n =? myPacket.nodeid packet)
  && myNode.listening n
  && negb (myNode.receive_rts n) && negb (myNode.receive_data n).

(** The four assignments of lines 483-499. *)
Definition hint_set (g : G.settings) (now : Q) (p : myPacket.t)
    (n : myNode.t) : myNode.t :=
  match myPacket.ptype p with
  | rtsPacketType =>
      myNode.set_nav (myPacket.data_len p)
        (myNode.set_receive_rts_time now
           (myNode.set_receive_rts_from (myPacket.nodeid p)
              (myNode.set_receive_rts true n)))
  | dataPacketType =>
      myNode.set_nav (G.max_payload_size g)
        (myNode.set_receive_data_time now
           (myNode.set_receive_data_from (myPacket.nodeid p)
              (myNode.set_receive_data true n)))
  end.

(** Everything one call of the handler can do to one node: set [processed]
    (the sender only), mark the packet collided, clear hints, write the hint
    of the arriving packet [p]. *)
Definition gw_effect (g : G.settings) (now : Q) (p : myPacket.t)
    (b : option bool) (c r d h : bool) (n : myNode.t) : myNode.t :=
  let n :=
    match b with
    | Some v => myNode.upd_packet (myPacket.set_processed v) n
    | None => n
    end in
  let n := clear r d (touch c n) in
  if h then hint_set g now p n else n.

(** ** The invariant of a run *)

(** What holds of a node whose generator is to resume at [c]. *)
Record node_wf (g : G.settings) (c : pc) (n : myNode.t) : Prop := {
  wf_n_retry : 0 <= myNode.n_retry n <= G.n_retry g;
  wf_n_retry_late :
    myNode.ca_state n <> schedule_tx -> myNode.ca_state n <> want_transmit ->
    1 <= myNode.n_retry n;
  wf_n_retry_rts :
    0 < G.n_retry_rts g -> 0 <= myNode.n_retry_rts n <= G.n_retry_rts g;
  wf_n_retry_rts_unlimited :
    G.n_retry_rts g <= 0 -> myNode.n_retry_rts n = 1;
  wf_Wbusy_BE : G.Wbusy_BE g <= myNode.Wbusy_BE n <= G.Wbusy_maxBE g;
  wf_hints : hint_wf n;
  wf_pc_rts :
    c = pc_rts_loop \/ c = pc_rts_sent -> myNode.ca_state n = start_phase2_rts;
  wf_pc_data : c = pc_data_sent -> myNode.ca_state n = start_phase3_transmit;
  wf_noCA : G.CA g = false -> myNode.ca_state n = schedule_tx;
  wf_pc_noCA :
    c = pc_nc_wait \/ c = pc_nc_loop \/ c = pc_nc_sent -> G.CA g = false
}.

Record wf_parts (g : G.settings) (nodes : list myNode.t) (tasks : list pc)
    (packetsAtBS : list nat) : Prop := {
  wf_ids : unique_ids nodes;
  wf_nodes :
    forall k n c, nodes !! k = Some n -> tasks !! k = Some c -> node_wf g c n;
  wf_slots : count_processed nodes packetsAtBS <= G.maxBSReceives g + 1;
  wf_len : length tasks = length nodes
}.

Definition wf (g : G.settings) (st : Sim.t) : Prop :=
  wf_parts g (Sim.nodes st) (Sim.tasks st) (Sim.packetsAtBS st).

(** What a step of a node may do to the node itself while the invariant is
    kept: the identifiers and the slot flag stay, and [node_wf] moves from
    the old resume point to the new one. *)
Record own_ok (g : G.settings) (c c' : pc) (n n' : myNode.t) : Prop := {
  own_nodeid : myNode.nodeid n' = myNode.nodeid n;
  own_packet_nodeid :
    myPacket.nodeid (myNode.packet n') = myPacket.nodeid (myNode.packet n);
  own_processed :
    myPacket.processed (myNode.packet n')
    = myPacket.processed (myNode.packet n);
  own_wf : node_wf g c n -> node_wf g c' n'
}.

(** The resume points that [node_wf] does not constrain. *)
Definition plain_pc (c : pc) : Prop :=
  c <> pc_rts_loop /\ c <> pc_rts_sent /\ c <> pc_data_sent
  /\ c <> pc_nc_wait /\ c <> pc_nc_loop /\ c <> pc_nc_sent.

(** What the gateway may do to a node while the invariant is kept, whatever
    the resume point of its generator. *)
Record gw_rel (g : G.settings) (n n' : myNode.t) : Prop := {
  gw_nodeid : myNode.nodeid n' = myNode.nodeid n;
  gw_packet_nodeid :
    myPacket.nodeid (myNode.packet n') = myPacket.nodeid (myNode.packet n);
  gw_wf : forall c, node_wf g c n -> node_wf g c n'
}.

(** ** Executable runs

    A schedule gives, for each step, the oracle values, the clock and the
    node whose generator is resumed. *)
Definition schedule : Type := list (draws * Q * nat).

Fixpoint run (g : G.settings) (sched : schedule) (st : Sim.t) : option Sim.t :=
  match sched with
  | [] => Some st
  | (d, now, i) :: rest =>
      match step g d now i st with
      | Some (st', _) => run g rest st'
      | None => None
      end
  end.

(** A radio configuration at SF12, 125 kHz, received at -100 dBm. *)
Definition example_radio : myPacket.radio :=
  myPacket.mk_radio 14 12 125 1 (-100) 860000000.

(** Oracle values: [deaf] makes an assessment miss a busy channel
    ([randint(1,100)] gives 100), [keen] makes it detect one (it gives 1);
    both draw [my_P = 0] and a backoff of 0 slots where the lower end of
    the range is 0.  [wakes t] draws the inter-arrival time [t]. *)
Definition deaf : draws := mk_draws 99 0 0 0 1000 0.
Definition keen : draws := mk_draws 0 0 0 0 1000 0.
Definition wakes (t : Q) : draws := mk_draws 99 0 0 0 t 0.

(** Nine nodes under the settings of the script.  Node [k] wakes at
    [1000 + k] ms, finds the channel free or misses that it is busy, and
    puts its RTS on the air at once; an RTS at SF12 lasts far longer than
    the 8 ms between the first and the last of them. *)
Definition crowded_start : Sim.t :=
  start G.source 20000 expoDistribType 104 (replicate 9 example_radio).

Definition wake_all : schedule :=
  (fun k => (wakes (inject_Z (1000 + Z.of_nat k)), 0%Q, k)) <$> seq 0 9.

Definition rts_of (k : nat) : schedule :=
  replicate 6 (deaf, inject_Z (1000 + Z.of_nat k), k).

Definition crowded_schedule : schedule :=
  wake_all ++ concat (rts_of <$> seq 0 9).

(** Two nodes under the settings of the script.  Node 0 wakes at 1000 ms and
    sends its RTS (827.392 ms on the air).  Node 1 wants to transmit at
    1200 ms, detects the RTS, backs off for one slot of 401.408 ms, and at
    1601.408 ms runs through the rest of the loop body and the next
    iteration, where its assessment misses the RTS: it enters the CA
    procedure and stands before the entry of the RTS phase. *)
Definition two_nodes : Sim.t :=
  start G.source 20000 expoDistribType 104 (replicate 2 example_radio).

Definition busy_schedule : schedule :=
  [(wakes 1000, 0%Q, 0%nat); (wakes 1200, 0%Q, 1%nat)]
  ++ replicate 6 (deaf, 1000%Q, 0%nat)
  ++ [(keen, 1200%Q, 1%nat)]
  ++ replicate 16 (deaf, 1601.408%Q, 1%nat).

(** Where [Wbusy_BE] is assigned its configured initial value: the abort of
    an attempt (lines 1000-1006 with CA, 1548-1552 without), the entry of
    the RTS phase (line 1176), the end of a transmission without CA
    (line 1603). *)
Definition resets_BE (c : pc) (n : myNode.t) : Prop :=
  (c = pc_want_transmit /\ myNode.n_retry n = 0)
  \/ (c = pc_phase2_backoff /\ myNode.ca_state n = start_phase2_backoff)
  \/ (c = pc_nc_loop /\ myNode.n_retry n = 0)
  \/ c = pc_nc_sent.

(** What one step of its generator, resumed at [c], may make of the
    [Wbusy_BE] of node [n]: leave it, add one after a busy assessment when
    the backoff is exponential, or reset it. *)
Definition BE_change (g : G.settings) (c : pc) (n : myNode.t) (x : Z) : Prop :=
  x = myNode.Wbusy_BE n
  \/ (G.Wbusy_exp_backoff g = true /\ x = myNode.Wbusy_BE n + 1)
  \/ (x = G.Wbusy_BE g /\ resets_BE c n).

(** The resume points inside the airtime wait of a DATA packet and of an
    RTS: the generator has put the packet on the air and has not yet
    run the statement after the [yield]. *)
Definition is_data_wait (c : pc) : bool :=
  match c with pc_data_sent | pc_nc_sent => true | _ => false end.

Definition is_rts_wait (c : pc) : bool :=
  match c with pc_rts_sent => true | _ => false end.

Definition on_air_data (st : Sim.t) (j : nat) : Prop :=
  exists c, Sim.tasks st !! j = Some c /\ is_data_wait c = true.

Definition on_air_rts (st : Sim.t) (j : nat) : Prop :=
  exists c, Sim.tasks st !! j = Some c /\ is_rts_wait c = true.

(** Every clear-channel assessment made in state [st] reports a free
    channel, whoever makes it and whatever is drawn. *)
Definition reads_free (g : G.settings) (st : Sim.t) : Prop :=
  forall (d : draws) (n : myNode.t),
    (cca_want_transmit g d st n).2 = false
    /\ (cca_rts g d st n).2 = false
    /\ (cca_phase3 g d st n).2 = false
    /\ (cca_noCA g d st n).2 = false.

(** Two overlapping DATA transmissions under the settings of the script.
    The two nodes send their RTS at 1000 and 1001 ms (827.392 ms each) and
    listen for 3637.248 ms.  Node 0 then draws a backoff of one slot, so
    node 1 sends its DATA first, from 5465.64 to 9569.832 ms; node 0 misses
    it at its assessment and sends its own from 5866.048 to 9970.24 ms. *)
Definition slow : draws := mk_draws 99 1 0 0 1000 0.

Definition overlap_schedule : schedule :=
  [(wakes 1000, 0%Q, 0%nat); (wakes 1001, 0%Q, 1%nat)]
  ++ replicate 6 (deaf, 1000%Q, 0%nat) ++ replicate 6 (deaf, 1001%Q, 1%nat)
  ++ replicate 2 (deaf, 1827.392%Q, 0%nat)
  ++ replicate 2 (deaf, 1828.392%Q, 1%nat)
  ++ [(slow, 5464.64%Q, 0%nat)]
  ++ replicate 4 (deaf, 5465.64%Q, 1%nat)
  ++ replicate 3 (deaf, 5866.048%Q, 0%nat).

(** ** States up to the statistics of the assessments

    [n_cca], [n_busy_rts], [n_busy_rts_p1] and [n_busy_data] count the
    clear-channel assessments and their outcomes; the script reads them in
    the final report only (lines 1806-1956).  [forget] sets them to 0. *)
Definition forget_cca (n : myNode.t) : myNode.t :=
  myNode.set_n_cca 0
    (myNode.set_n_busy_rts 0
       (myNode.set_n_busy_rts_p1 0 (myNode.set_n_busy_data 0 n))).

Definition forget (st : Sim.t) : Sim.t :=
  Sim.set_nodes (forget_cca <$> Sim.nodes st) st.

Definition forget_result (r : result) : result :=
  match r with
  | Some (st, w) => Some (forget st, w)
  | None => None
  end.

(** ** What the arrival handler may write

    [outside_gateway n] is the node [n] with everything the handler assigns
    set to a fixed value: the flags [processed] and [collided] of its packet
    and the seven attributes of the reception hints. *)
Definition outside_gateway (n : myNode.t) : myNode.t :=
  myNode.set_nav 0
    (myNode.set_receive_data_time 0
       (myNode.set_receive_data_from 0
          (myNode.set_receive_data false
             (myNode.set_receive_rts_time 0
                (myNode.set_receive_rts_from 0
                   (myNode.set_receive_rts false
                      (myNode.upd_packet
                         (fun p => myPacket.set_processed false
                                     (myPacket.set_collided false p))
                         n))))))).

(** The tests of lines 407 and 418 on the arriving packet of [s] and the
    packet of the node [o] that is on the air: another node, overlapping
    carriers, the same spreading factor. *)
Definition rivals (s o : myNode.t) : bool :=
  negb (myNode.nodeid o =? myPacket.nodeid (myNode.packet s))
  && (frequencyCollision (myNode.packet s) (myNode.packet o)
      && sfCollision (myNode.packet s) (myNode.packet o)).

(** Three nodes under the settings of the script.  Node 1 wants to
    transmit at 900 ms, draws [my_P = 50] and listens (phase 1) until
    4537.248 ms.  Node 0 wakes at 1000 ms and goes through the CA procedure
    without listening up to the test of the RTS loop; node 2 does the same
    at 1100 ms.  [hint_schedule] stops before node 0 sends its RTS,
    [cancel_schedule] goes on until node 2 is about to send its own, 100 ms
    into the RTS of node 0. *)
Definition listener : draws := mk_draws 99 0 50 0 1000 0.

Definition three_nodes : Sim.t :=
  start G.source 20000 expoDistribType 104 (replicate 3 example_radio).

Definition hint_schedule : schedule :=
  [(wakes 1000, 0%Q, 0%nat); (wakes 900, 0%Q, 1%nat);
   (wakes 1100, 0%Q, 2%nat)]
  ++ replicate 2 (listener, 900%Q, 1%nat)
  ++ replicate 5 (deaf, 1000%Q, 0%nat).

Definition cancel_schedule : schedule :=
  hint_schedule ++ [(deaf, 1000%Q, 0%nat)] ++ replicate 5 (deaf, 1100%Q, 2%nat).

(** The state a schedule leads to from [three_nodes]. *)
Definition after (sched : schedule) : Sim.t :=
  default three_nodes (run G.source sched three_nodes).

(** ** The gateway list and the final report

    [is_wait c]: the generator is inside the airtime wait of an RTS or of a
    DATA packet. *)
Definition is_wait (c : pc) : bool := is_data_wait c || is_rts_wait c.

(** [packetsAtBS.append(node)], guarded by [node in packetsAtBS], a lost
    packet being left out; [if node in packetsAtBS: packetsAtBS.remove(node)]. *)
Definition enters (i : nat) (l l' : list nat) : Prop :=
  l' = l \/ (py_in i l = false /\ l' = l ++ [i]).

Definition exits (i : nat) (l : list nat) : list nat :=
  if py_in i l then py_remove i l else l.

Definition sumZ (l : list Z) : Z := foldr Z.add 0 l.

(** Line 1901: [sent = sum(n.n_data_sent for n in nodes)]. *)
Definition sent (st : Sim.t) : Z := sumZ (myNode.n_data_sent <$> Sim.nodes st).

(** Lines 1993-1997: the two data extraction rates, printed when
    [sent > 0]. *)
Definition der (st : Sim.t) : option Q :=
  if sent st >? 0 then
    Some (inject_Z (sent st - Sim.nrCollisions st) / inject_Z (sent st))%Q
  else None.

Definition der_method2 (st : Sim.t) : option Q :=
  if sent st >? 0 then
    Some (inject_Z (Sim.nrReceived st) / inject_Z (sent st))%Q
  else None.

(** The number of nodes inside the airtime wait of a DATA packet. *)
Definition data_waits (tasks : list pc) : Z :=
  sumZ ((fun c => if is_data_wait c then 1 else 0) <$> tasks).

(** What one step may do to the gateway list, to [n_data_sent] and to the
    two counters of the DATA packets, as a function of the resume points
    before and after it. *)
Definition ledger (i : nat) (c c' : pc) (node : myNode.t) (x : Z)
    (st st' : Sim.t) : Prop :=
  (if is_wait c' then enters i (Sim.packetsAtBS st) (Sim.packetsAtBS st')
   else if is_wait c then Sim.packetsAtBS st' = exits i (Sim.packetsAtBS st)
   else Sim.packetsAtBS st' = Sim.packetsAtBS st)
  /\ x = myNode.n_data_sent node + (if is_data_wait c' then 1 else 0)
  /\ Sim.nrCollisions st <= Sim.nrCollisions st'
  /\ Sim.nrReceived st <= Sim.nrReceived st'
  /\ Sim.nrCollisions st' + Sim.nrReceived st'
     <= Sim.nrCollisions st + Sim.nrReceived st
        + (if is_data_wait c then 1 else 0)
  /\ (is_wait c = true -> is_wait c' = false).

(** The gateway list holds no node twice, and only nodes that are inside an
    airtime wait. *)
Definition gateway_list_ok (st : Sim.t) : Prop :=
  NoDup (Sim.packetsAtBS st)
  /\ forall j, j ∈ Sim.packetsAtBS st ->
       exists c, Sim.tasks st !! j = Some c /\ is_wait c = true.

(** Every DATA packet counted as collided or as received has been sent, and
    so has every DATA packet still on the air. *)
Definition counters_ok (st : Sim.t) : Prop :=
  0 <= Sim.nrCollisions st /\ 0 <= Sim.nrReceived st
  /\ Sim.nrCollisions st + Sim.nrReceived st + data_waits (Sim.tasks st)
     <= sent st.

(** The run with two overlapping DATA transmissions, up to the end of the
    first of them at 9569.832 ms. *)
Definition first_done : schedule :=
  overlap_schedule ++ [(deaf, 9569.832%Q, 1%nat)].

(** ** Radio parameters and the sensitivity table

    The radio configuration of the packet of a node: the six attributes that
    the first part of [__init__] settles (lines 746-857). *)
Definition radio_of (n : myNode.t) : myPacket.radio :=
  let p := myNode.packet n in
  myPacket.mk_radio (myPacket.txpow p) (myPacket.sf p) (myPacket.bw p)
    (myPacket.cr p) (myPacket.rssi p) (myPacket.freq p).

(** The configurations the table covers: SF 6 to 12 (5 to 12 at 2.4 GHz) and
    one of the bandwidths of the band. *)
Definition in_table (lora24GHz : bool) (sf : Z) (bw : Q) : Prop :=
  (if lora24GHz then 5 else 6) <= sf <= 12
  /\ (if lora24GHz
      then (bw == 203.125 \/ bw == 406.25 \/ bw == 812.5 \/ bw == 1625)%Q
      else (bw == 125 \/ bw == 250 \/ bw == 500)%Q).

(** [random.choice(l)] for a list that is not empty; [u] is the index the
    oracle supplies. *)
Definition choice (u : Z) (l : list Z) : Z :=
  nth (Z.to_nat (u mod Z.of_nat (length l))) l 0.

(** Lines 841-857 of [__init__]: the carrier of a packet, in Hz.  The value
    drawn in lines 842-845 is assigned again in every case: one of three
    carriers in experiment 1, the first carrier of the band otherwise. *)
Definition init_freq (lora24GHz : bool) (experiment : Z) (u_freq u_choice : Z)
    : Z :=
  let freq :=
    if lora24GHz then 2403000000 + randint u_freq 0 2622950
    else 860000000 + randint u_freq 0 2622950 in
  let freq :=
    if experiment =? 1 then
      if lora24GHz then choice u_choice [2403000000; 2425000000; 2479000000]
      else choice u_choice [860000000; 864000000; 868000000]
    else
      if lora24GHz then 2403000000 else 860000000 in
  freq.

(** Radio configurations whose carrier is one that [__init__] assigns. *)
Definition on_carriers (g : G.settings) (rs : list myPacket.radio) : Prop :=
  forall r, r ∈ rs ->
    exists u_freq u_choice,
      myPacket.r_freq r
      = init_freq (G.lora24GHz g) (G.experiment g) u_freq u_choice.

(** ** Settings that differ in the two switches of the assessments *)

Definition set_check_busy_rts : bool -> G.settings -> G.settings :=
  ltac:(field_setter G.eta G.check_busy_rts).

(** The settings [g] with [check_busy = b1] and [check_busy_rts = b2]. *)
Definition unchecked (b1 b2 : bool) (g : G.settings) : G.settings :=
  G.set_check_busy b1 (set_check_busy_rts b2 g).

(** The node [n] with other values of the four counters of the
    assessments. *)
Definition restat (a b c e : Z) (n : myNode.t) : myNode.t :=
  myNode.set_n_cca a
    (myNode.set_n_busy_rts b
       (myNode.set_n_busy_rts_p1 c (myNode.set_n_busy_data e n))).

(** ** MAC states and packet types

    The states a node goes through with its packet retyped as an RTS
    (from the end of WANT_TRANSMIT to the end of PHASE3_BACKOFF) and those it
    is in with a DATA packet; START_NAV is entered from both. *)
Definition rts_phase (s : mac_state) : bool :=
  match s with
  | start_CA | start_phase1_listen | start_phase2_backoff | start_phase2_rts
  | start_phase2_listen | start_phase3_backoff => true
  | _ => false
  end.

Definition data_phase (s : mac_state) : bool :=
  match s with
  | schedule_tx | want_transmit | start_phase3_transmit => true
  | _ => false
  end.

(** What of a node the types of its packet depend on. *)
Definition shape (n : myNode.t)
    : mac_state * packet_type * Z * Z * (Z * Z * Q) * Q :=
  let p := myNode.packet n in
  (myNode.ca_state n, myPacket.ptype p, myPacket.pl p, myPacket.data_len p,
   (myPacket.sf p, myPacket.cr p, myPacket.bw p), myPacket.rectime p).

(** The packet has the type of the state, the payload length of its type
    (5 bytes for an RTS, [data_len] for DATA) and the airtime of that
    length. *)
Definition typed_shape (lora24GHz : bool)
    (x : mac_state * packet_type * Z * Z * (Z * Z * Q) * Q) : Prop :=
  let '(s, ty, pl, dl, (sf, cr, bw), rt) := x in
  (rts_phase s = true -> ty = rtsPacketType)
  /\ (data_phase s = true -> ty = dataPacketType)
  /\ (ty = rtsPacketType -> pl = 5)
  /\ (ty = dataPacketType -> pl = dl)
  /\ rt = airtime lora24GHz sf cr pl bw.

Definition typed (lora24GHz : bool) (n : myNode.t) : Prop :=
  typed_shape lora24GHz (shape n).

(** * Properties *)

(** ** Basic facts *)

Lemma Qltb_lt (a b : Q) : Qltb a b = true <-> (a < b)%Q.
Proof.
  unfold Qltb. rewrite negb_true_iff, <- not_true_iff_false, Qle_bool_iff.
  split; [apply Qnot_le_lt | apply Qlt_not_le].
Qed.

Lemma randint_range u a b : a <= b -> a <= randint u a b <= b.
Proof.
  intros Hab. unfold randint.
  pose proof (Z.mod_pos_bound u (b - a + 1)). lia.
Qed.

Lemma mac_state_eqb_eq a b : mac_state_eqb a b = true <-> a = b.
Proof. destruct a, b; simpl; split; (congruence || discriminate). Qed.

Lemma packet_type_eqb_eq a b : packet_type_eqb a b = true <-> a = b.
Proof. destruct a, b; simpl; split; (congruence || discriminate). Qed.

Lemma Qceiling_div (a b : Z) :
  0 < b -> Qceiling (inject_Z a / inject_Z b) = ceil_div a b.
Proof.
  intros Hb. unfold ceil_div, Qceiling. f_equal.
  destruct b as [|p|p]; try lia.
  unfold Qfloor, Qdiv, Qmult, Qinv, Qopp, inject_Z. simpl.
  rewrite Z.mul_1_r. reflexivity.
Qed.

(** ** The frequency test *)

Example frequencyCollision_same_channel :
  frequencyCollision narrow_packet narrow_packet = true.
Proof. reflexivity. Qed.

(** Away from the carriers of [__init__] the function departs from the
    comment above it: for two packets 100 Hz apart, the second with
    bandwidth 500, the stated rule gives a collision and
    [frequencyCollision] answers False, because its first two branches read
    [p2.freq] where the bandwidth of [p2] is meant.  No packet of a run has
    such a carrier (see [frequencyCollision_in_flight] below). *)
Lemma frequencyCollision_misses_bw_of_p2 :
  frequencyCollision narrow_packet wide_packet = false
  /\ frequencyCollision_spec narrow_packet wide_packet = true.
Proof. split; reflexivity. Qed.

(** Where the bandwidth of [p2] is neither 500 nor 250, and its frequency is
    not one of these two numbers, the script and the rule agree. *)
Lemma frequencyCollision_agrees (p1 p2 : myPacket.t) :
  Qeq_bool (myPacket.bw p2) 500 = false ->
  Qeq_bool (myPacket.bw p2) 250 = false ->
  myPacket.freq p2 <> 500 -> myPacket.freq p2 <> 250 ->
  frequencyCollision p1 p2 = frequencyCollision_spec p1 p2.
Proof.
  intros H5 H2 F5 F2. unfold frequencyCollision, frequencyCollision_spec.
  rewrite H5, H2.
  apply Z.eqb_neq in F5, F2. rewrite F5, F2.
  rewrite !orb_false_r.
  destruct (Z.leb_spec (Z.abs (myPacket.freq p1 - myPacket.freq p2)) 120),
    (Z.leb_spec (Z.abs (myPacket.freq p1 - myPacket.freq p2)) 60),
    (Z.leb_spec (Z.abs (myPacket.freq p1 - myPacket.freq p2)) 30),
    (Qeq_bool (myPacket.bw p1) 500), (Qeq_bool (myPacket.bw p1) 250);
    simpl; try reflexivity; lia.
Qed.

(** ** Airtime *)

Example airtime_SF12_BW125_104_bytes :
  (airtime false 12 1 104 125 == 4104.192)%Q.
Proof. reflexivity. Qed.

Example airtime_SF12_BW125_rts : (airtime false 12 1 5 125 == 827.392)%Q.
Proof. reflexivity. Qed.

(** C5.  In sub-GHz mode, for SF in 6..12, CR in 1..4, a payload length
    [pl >= 0] and BW in {125, 250, 500}, [airtime] is
    [Tpream + payloadSymbNB * Tsym] with [Tsym = 2^SF / BW],
    [Tpream = (8 + 4.25) * Tsym], [H = 1] exactly for SF 6, [DE = 1] exactly
    for BW 125 with SF 11 or 12, and
    [payloadSymbNB = 8 + max(0, ceil((8 pl - 4 SF + 28 + 16 - 20 H)
    / (4 (SF - 2 DE))) * (CR + 4))]. *)
Theorem airtime_subGHz (sf cr pl bw : Z) :
  6 <= sf <= 12 -> 1 <= cr <= 4 -> 0 <= pl ->
  bw = 125 \/ bw = 250 \/ bw = 500 ->
  (airtime false sf cr pl (inject_Z bw) == spec_airtime sf cr pl bw)%Q.
Proof.
  intros Hsf Hcr Hpl Hbw.
  unfold airtime, spec_airtime, spec_Tpream, spec_Tsym, spec_payloadSymbNB.
  assert (HDE : (if Qeq_bool (inject_Z bw) 125 && ((sf =? 11) || (sf =? 12))
                 then 1 else 0) = spec_DE sf bw).
  { unfold spec_DE. destruct Hbw as [-> | [-> | ->]]; reflexivity. }
  rewrite HDE. fold (spec_H sf).
  assert (Hden : 0 < 4 * (sf - 2 * spec_DE sf bw)).
  { unfold spec_DE. destruct ((bw =? 125) && _); lia. }
  rewrite (Qceiling_div _ _ Hden).
  rewrite (Z.max_comm _ 0).
  rewrite Zpower_Qpower by lia.
  reflexivity.
Qed.

Lemma airtime_subGHz_witness :
  (airtime false 12 1 104 (inject_Z 125) == spec_airtime 12 1 104 125)%Q.
Proof. apply (airtime_subGHz 12 1 104 125); lia. Defined.

(** ** Packet types *)

Lemma setPacketType_rectime_ok (l : bool) (ty : packet_type) (p : myPacket.t) :
  rectime_ok l (myPacket.setPacketType l ty p).
Proof. destruct ty; reflexivity. Qed.

Lemma built_rectime_ok (l : bool) (p : myPacket.t) :
  built l p -> rectime_ok l p.
Proof.
  induction 1 as [nodeid plen r | ty p _ _ | b p _ IH | b p _ IH | b p _ IH
                 | t p _ IH].
  - reflexivity.
  - apply setPacketType_rectime_ok.
  - exact IH.
  - exact IH.
  - exact IH.
  - exact IH.
Qed.

Lemma built_pl (l : bool) (p : myPacket.t) :
  built l p -> myPacket.pl p = myPacket.data_len p \/ myPacket.pl p = 5.
Proof.
  induction 1 as [nodeid plen r | ty p _ _ | b p _ IH | b p _ IH | b p _ IH
                 | t p _ IH]; try exact IH.
  - left; reflexivity.
  - destruct ty; [left | right]; reflexivity.
Qed.

(** C7.  For every packet of the script whose [pl] is its [data_len],
    [setPacketType(RTS)] sets [pl = 5] and a following
    [setPacketType(DATA)] restores [pl] and [rectime] to their original
    values; and after every [setPacketType] call,
    [rectime = airtime(sf, cr, pl, bw)]. *)
Theorem setPacketType_roundtrip (l : bool) (p : myPacket.t) :
  built l p ->
  (myPacket.pl p = myPacket.data_len p ->
   myPacket.pl (myPacket.setPacketType l rtsPacketType p) = 5
   /\ myPacket.pl
        (myPacket.setPacketType l dataPacketType
           (myPacket.setPacketType l rtsPacketType p)) = myPacket.pl p
   /\ myPacket.rectime
        (myPacket.setPacketType l dataPacketType
           (myPacket.setPacketType l rtsPacketType p)) = myPacket.rectime p)
  /\ (forall ty, rectime_ok l (myPacket.setPacketType l ty p)).
Proof.
  intros Hb. split.
  - intros Hpl. pose proof (built_rectime_ok l p Hb) as Hr.
    unfold rectime_ok in Hr. simpl. rewrite Hr, Hpl. auto.
  - intros ty. apply setPacketType_rectime_ok.
Qed.

Lemma setPacketType_roundtrip_witness :
  myPacket.pl
    (myPacket.setPacketType false dataPacketType
       (myPacket.setPacketType false rtsPacketType narrow_packet)) = 104
  /\ myPacket.rectime
       (myPacket.setPacketType false dataPacketType
          (myPacket.setPacketType false rtsPacketType narrow_packet))
     = myPacket.rectime narrow_packet.
Proof.
  destruct (setPacketType_roundtrip false narrow_packet) as [H _].
  - apply built_init.
  - destruct H as (_ & H1 & H2); [reflexivity |]. split; [exact H1 | exact H2].
Defined.

(** ** The gateway arrival handler *)

Lemma touch_touch (c1 c2 : bool) (n : myNode.t) :
  touch c2 (touch c1 n) = touch (c1 || c2) n.
Proof. destruct c1, c2; reflexivity. Qed.

Lemma touch_hints (c : bool) (n : myNode.t) : hints (touch c n) = hints n.
Proof. destruct c; reflexivity. Qed.

Lemma clear_clear (r1 d1 r2 d2 : bool) (n : myNode.t) :
  clear r2 d2 (clear r1 d1 n) = clear (r1 || r2) (d1 || d2) n.
Proof. destruct r1, d1, r2, d2; reflexivity. Qed.

Lemma mark_collided_lookup (i : nat) (nodes : list myNode.t) (k : nat) :
  exists c, mark_collided i nodes !! k = touch c <$> nodes !! k.
Proof.
  unfold mark_collided. destruct (decide (k = i)) as [-> | Hne].
  - exists true. apply list_lookup_alter_eq.
  - exists false. rewrite list_lookup_alter_ne by congruence.
    destruct (nodes !! k); reflexivity.
Qed.

Lemma touch_id_lookup (x : option myNode.t) : x = touch false <$> x.
Proof. destruct x; reflexivity. Qed.

Lemma touch_compose (c1 c2 : bool) (x : option myNode.t) :
  touch c2 <$> (touch c1 <$> x) = touch (c1 || c2) <$> x.
Proof. destruct x; simpl; [rewrite touch_touch |]; reflexivity. Qed.

Lemma collide_with_lookup (g : G.settings) (now : Q) (self other : nat)
    (nodes nodes' : list myNode.t) (col col' : bool) (k : nat) :
  collide_with g now self (nodes, col) other = (nodes', col') ->
  exists c, nodes' !! k = touch c <$> nodes !! k.
Proof.
  unfold collide_with. intros H.
  repeat match type of H with
         | context [match ?x with _ => _ end] => destruct x eqn:?
         end;
    inversion H; subst; clear H;
    try (exists false; apply touch_id_lookup);
    repeat match goal with
           | |- context [mark_collided ?i ?l !! k] =>
               let c := fresh "c" in
               let E := fresh "E" in
               destruct (mark_collided_lookup i l k) as [c E]; rewrite E; clear E
           end;
    rewrite ?touch_compose; eauto.
Qed.

Lemma pairwise_fold_lookup (g : G.settings) (now : Q) (self : nat)
    (packetsAtBS : list nat) :
  forall (nodes nodes' : list myNode.t) (col col' : bool) (k : nat),
    foldl (collide_with g now self) (nodes, col) packetsAtBS = (nodes', col') ->
    exists c, nodes' !! k = touch c <$> nodes !! k.
Proof.
  induction packetsAtBS as [| other rest IH]; intros nodes nodes' col col' k H.
  - simpl in H. inversion H; subst. exists false. apply touch_id_lookup.
  - cbn [foldl] in H.
    destruct (collide_with g now self (nodes, col) other) as [nodes1 col1] eqn:E.
    destruct (collide_with_lookup _ _ _ _ _ _ _ _ k E) as [c1 E1].
    destruct (IH _ _ _ _ k H) as [c2 E2].
    exists (c1 || c2). rewrite E2, E1. apply touch_compose.
Qed.

Lemma pairwise_lookup (g : G.settings) (now : Q) (packetsAtBS : list nat)
    (self : nat) (nodes nodes' : list myNode.t) (col : bool) (k : nat) :
  pairwise g now packetsAtBS self nodes = (nodes', col) ->
  exists c, nodes' !! k = touch c <$> nodes !! k.
Proof. apply pairwise_fold_lookup. Qed.

Lemma cancel_one_shape (o n : myNode.t) :
  exists r d, cancel_one o n = clear r d n
    /\ (r = true -> myNode.receive_rts n = true)
    /\ (d = true -> myNode.receive_data n = true).
Proof.
  unfold cancel_one.
  destruct (myNode.receive_rts n
            && (myNode.receive_rts_from n =? myNode.nodeid o)
            && myPacket.collided (myNode.packet o)) eqn:E1.
  - apply andb_true_iff in E1 as [E1 _]. apply andb_true_iff in E1 as [E1 _].
    cbn [myNode.receive_data myNode.receive_data_from myNode.set_receive_rts].
    destruct (myNode.receive_data n
              && (myNode.receive_data_from n =? myNode.nodeid o)
              && myPacket.collided (myNode.packet o)) eqn:E2.
    + apply andb_true_iff in E2 as [E2 _]. apply andb_true_iff in E2 as [E2 _].
      exists true, true. auto.
    + exists true, false. split; [reflexivity | split; [auto | discriminate]].
  - destruct (myNode.receive_data n
              && (myNode.receive_data_from n =? myNode.nodeid o)
              && myPacket.collided (myNode.packet o)) eqn:E2.
    + apply andb_true_iff in E2 as [E2 _]. apply andb_true_iff in E2 as [E2 _].
      exists false, true. split; [reflexivity | split; [discriminate | auto]].
    + exists false, false. split; [reflexivity | split; discriminate].
Qed.

Lemma cancel_one_effect (o n : myNode.t) :
  myPacket.collided (myNode.packet o) = true ->
  ~ (myNode.receive_rts (cancel_one o n) = true
     /\ myNode.receive_rts_from (cancel_one o n) = myNode.nodeid o)
  /\ ~ (myNode.receive_data (cancel_one o n) = true
        /\ myNode.receive_data_from (cancel_one o n) = myNode.nodeid o).
Proof.
  intros Hc. unfold cancel_one. rewrite Hc, !andb_true_r.
  destruct (myNode.receive_rts n) eqn:Er,
    (Z.eqb_spec (myNode.receive_rts_from n) (myNode.nodeid o));
    cbn [andb myNode.receive_data myNode.receive_data_from
         myNode.set_receive_rts];
    destruct (myNode.receive_data n) eqn:Ed,
      (Z.eqb_spec (myNode.receive_data_from n) (myNode.nodeid o));
    simpl; rewrite ?Er, ?Ed;
    split; intros [? ?]; congruence.
Qed.

(** What the correction does not touch. *)
Lemma clear_frame (r d : bool) (n : myNode.t) :
  myNode.nodeid (clear r d n) = myNode.nodeid n
  /\ myNode.packet (clear r d n) = myNode.packet n
  /\ myNode.ca_state (clear r d n) = myNode.ca_state n
  /\ myNode.receive_rts_from (clear r d n) = myNode.receive_rts_from n
  /\ myNode.receive_data_from (clear r d n) = myNode.receive_data_from n
  /\ myNode.receive_rts (clear r d n) = myNode.receive_rts n && negb r
  /\ myNode.receive_data (clear r d n) = myNode.receive_data n && negb d.
Proof.
  destruct r, d; simpl; rewrite ?andb_false_r, ?andb_true_r; tauto.
Qed.

Lemma cancel_hints_cons (j : nat) (rest : list nat) (nodes : list myNode.t) :
  cancel_hints (j :: rest) nodes
  = cancel_hints rest
      match nodes !! j with
      | Some o => cancel_one o <$> nodes
      | None => nodes
      end.
Proof. reflexivity. Qed.

Lemma cancel_hints_lookup (packetsAtBS : list nat) :
  forall (nodes : list myNode.t) (k : nat),
  exists r d,
    cancel_hints packetsAtBS nodes !! k = clear r d <$> nodes !! k
    /\ forall n, nodes !! k = Some n ->
         (r = true -> myNode.receive_rts n = true)
         /\ (d = true -> myNode.receive_data n = true).
Proof.
  induction packetsAtBS as [| j rest IH]; intros nodes k.
  - exists false, false. split.
    + simpl. destruct (nodes !! k); reflexivity.
    + intros n _. split; discriminate.
  - rewrite cancel_hints_cons.
    destruct (nodes !! j) as [o |] eqn:Ej; [| apply IH].
    destruct (IH (cancel_one o <$> nodes) k) as (r2 & d2 & E2 & H2).
    rewrite list_lookup_fmap in E2, H2.
    destruct (nodes !! k) as [n |] eqn:Ek.
    + destruct (cancel_one_shape o n) as (r1 & d1 & E1 & Hr1 & Hd1).
      exists (r1 || r2), (d1 || d2). split.
      * rewrite E2. simpl. rewrite E1, clear_clear. reflexivity.
      * intros n0 [= <-]. specialize (H2 _ eq_refl). rewrite E1 in H2.
        pose proof (clear_frame r1 d1 n) as (_ & _ & _ & _ & _ & Fr & Fd).
        rewrite Fr, Fd in H2. destruct H2 as [H2r H2d].
        split; intros H; apply orb_true_iff in H as [H | H]; auto.
        -- apply H2r in H. apply andb_true_iff in H. tauto.
        -- apply H2d in H. apply andb_true_iff in H. tauto.
    + exists false, false. split; [rewrite E2; reflexivity |].
      intros n [=].
Qed.

Lemma cancel_hints_effect (packetsAtBS : list nat) :
  forall (nodes : list myNode.t) (j : nat) (o : myNode.t),
    j ∈ packetsAtBS -> nodes !! j = Some o ->
    myPacket.collided (myNode.packet o) = true ->
    forall k n', cancel_hints packetsAtBS nodes !! k = Some n' ->
      ~ (myNode.receive_rts n' = true
         /\ myNode.receive_rts_from n' = myNode.nodeid o)
      /\ ~ (myNode.receive_data n' = true
            /\ myNode.receive_data_from n' = myNode.nodeid o).
Proof.
  induction packetsAtBS as [| j0 rest IH]; intros nodes j o Hin Ej Hc k n' Ek.
  - inversion Hin.
  - rewrite cancel_hints_cons in Ek.
    apply elem_of_cons in Hin as [-> | Hin].
    + rewrite Ej in Ek.
      destruct (cancel_hints_lookup rest (cancel_one o <$> nodes) k)
        as (r & d & E & _).
      rewrite Ek, list_lookup_fmap in E.
      destruct (nodes !! k) as [n |]; [| discriminate].
      simpl in E. injection E as ->.
      pose proof (clear_frame r d (cancel_one o n))
        as (_ & _ & _ & Ff & Fg & Fr & Fd).
      rewrite Ff, Fg, Fr, Fd.
      destruct (cancel_one_effect o n Hc) as [H1 H2].
      split; intros [Ha Hb]; apply andb_true_iff in Ha; tauto.
    + destruct (nodes !! j0) as [o0 |] eqn:Ej0.
      * destruct (cancel_one_shape o0 o) as (r & d & E & _).
        pose proof (clear_frame r d o) as (Fi & Fp & _).
        assert (Ej' : (cancel_one o0 <$> nodes) !! j = Some (cancel_one o0 o))
          by (rewrite list_lookup_fmap, Ej; reflexivity).
        specialize (IH _ _ _ Hin Ej').
        rewrite E, Fi, Fp in IH. apply (IH Hc k n' Ek).
      * apply (IH _ _ _ Hin Ej Hc k n' Ek).
Qed.

Lemma hint_one_eligible (g : G.settings) (now : Q) (p : myPacket.t)
    (n : myNode.t) :
  eligible p n = true ->
  hint_one g now p n
  = match myPacket.ptype p with
    | rtsPacketType =>
        myNode.set_nav (myPacket.data_len p)
          (myNode.set_receive_rts_time now
             (myNode.set_receive_rts_from (myPacket.nodeid p)
                (myNode.set_receive_rts true n)))
    | dataPacketType =>
        myNode.set_nav (G.max_payload_size g)
          (myNode.set_receive_data_time now
             (myNode.set_receive_data_from (myPacket.nodeid p)
                (myNode.set_receive_data true n)))
    end.
Proof.
  unfold eligible, hint_one. intros H.
  apply andb_true_iff in H as [H H4]. apply andb_true_iff in H as [H H3].
  apply andb_true_iff in H as [H1 H2].
  rewrite H1, H2, H3, H4. reflexivity.
Qed.

Lemma hint_one_not_eligible (g : G.settings) (now : Q) (p : myPacket.t)
    (n : myNode.t) :
  eligible p n = false -> hint_one g now p n = n.
Proof.
  unfold eligible, hint_one. intros H.
  destruct (negb (myNode.nodeid n =? myPacket.nodeid p)); [| reflexivity].
  destruct (myNode.listening n); [| reflexivity].
  simpl in H. rewrite H. reflexivity.
Qed.

Lemma hint_one_frame (g : G.settings) (now : Q) (p : myPacket.t) (n : myNode.t) :
  myNode.nodeid (hint_one g now p n) = myNode.nodeid n
  /\ myNode.packet (hint_one g now p n) = myNode.packet n
  /\ myNode.ca_state (hint_one g now p n) = myNode.ca_state n.
Proof.
  destruct (eligible p n) eqn:E.
  - rewrite hint_one_eligible by exact E. destruct (myPacket.ptype p); auto.
  - rewrite hint_one_not_eligible by exact E. auto.
Qed.

Lemma propagate_hints_lookup (g : G.settings) (now : Q) (self : nat)
    (nodes : list myNode.t) (s : myNode.t) (k : nat) :
  nodes !! self = Some s ->
  propagate_hints g now self nodes !! k
  = hint_one g now (myNode.packet s) <$> nodes !! k.
Proof.
  intros E. unfold propagate_hints. rewrite E. apply list_lookup_fmap.
Qed.

Lemma mark_processed_lookup (g : G.settings) (packetsAtBS : list nat)
    (self : nat) (nodes : list myNode.t) (k : nat) :
  exists b,
    mark_processed g packetsAtBS self nodes !! k
    = (if decide (k = self)
       then myNode.upd_packet (myPacket.set_processed b) <$> nodes !! k
       else nodes !! k).
Proof.
  unfold mark_processed.
  destruct (count_processed nodes packetsAtBS >? G.maxBSReceives g);
    [exists false | exists true];
    (destruct (decide (k = self)) as [-> | Hne];
     [apply list_lookup_alter_eq | apply list_lookup_alter_ne; congruence]).
Qed.

(** The phases of the handler. *)
Lemma checkcollision_phases (g : G.settings) (now : Q) (packetsAtBS : list nat)
    (self : nat) (nodes nodes' : list myNode.t) (col : bool) :
  checkcollision g now packetsAtBS self nodes = (nodes', col) ->
  exists nodes1,
    pairwise g now packetsAtBS self (mark_processed g packetsAtBS self nodes)
    = (nodes1, col)
    /\ nodes'
       = if col then at_propagation g now packetsAtBS self nodes
         else if G.CA g then
                propagate_hints g now self
                  (at_propagation g now packetsAtBS self nodes)
              else at_propagation g now packetsAtBS self nodes.
Proof.
  unfold checkcollision, at_propagation. intros H.
  destruct (pairwise g now packetsAtBS self
              (mark_processed g packetsAtBS self nodes)) as [nodes1 col1].
  exists nodes1. simpl.
  destruct col1; inversion H; subst; auto.
Qed.

(** The table at the propagation loop, node by node: the packet flags may
    have moved, hints may have been cleared, nothing else. *)
Lemma at_propagation_lookup (g : G.settings) (now : Q) (packetsAtBS : list nat)
    (self : nat) (nodes : list myNode.t) (k : nat) (n : myNode.t) :
  nodes !! k = Some n ->
  exists m r d,
    at_propagation g now packetsAtBS self nodes !! k = Some m
    /\ myNode.nodeid m = myNode.nodeid n
    /\ myPacket.nodeid (myNode.packet m) = myPacket.nodeid (myNode.packet n)
    /\ myPacket.ptype (myNode.packet m) = myPacket.ptype (myNode.packet n)
    /\ myPacket.data_len (myNode.packet m)
       = myPacket.data_len (myNode.packet n)
    /\ myNode.ca_state m = myNode.ca_state n
    /\ hints m = hints (clear r d n)
    /\ (r = true -> myNode.receive_rts n = true /\ G.CA g = true)
    /\ (d = true -> myNode.receive_data n = true /\ G.CA g = true).
Proof.
  intros Ek. unfold at_propagation.
  destruct (pairwise g now packetsAtBS self
              (mark_processed g packetsAtBS self nodes)) as [nodes1 col] eqn:Ep.
  destruct (pairwise_lookup _ _ _ _ _ _ _ k Ep) as [c Ec].
  destruct (mark_processed_lookup g packetsAtBS self nodes k) as [b Eb].
  rewrite Eb, Ek in Ec. simpl.
  set (n0 := if decide (k = self)
             then myNode.upd_packet (myPacket.set_processed b) n else n).
  assert (E1 : nodes1 !! k = Some (touch c n0)).
  { rewrite Ec. unfold n0. destruct (decide (k = self)); reflexivity. }
  assert (F0 : myNode.nodeid (touch c n0) = myNode.nodeid n
               /\ myPacket.nodeid (myNode.packet (touch c n0))
                  = myPacket.nodeid (myNode.packet n)
               /\ myPacket.ptype (myNode.packet (touch c n0))
                  = myPacket.ptype (myNode.packet n)
               /\ myPacket.data_len (myNode.packet (touch c n0))
                  = myPacket.data_len (myNode.packet n)
               /\ myNode.ca_state (touch c n0) = myNode.ca_state n
               /\ forall r d, hints (clear r d (touch c n0)) = hints (clear r d n)
               /\ myNode.receive_rts (touch c n0) = myNode.receive_rts n
               /\ myNode.receive_data (touch c n0) = myNode.receive_data n).
  { unfold n0. destruct c, (decide (k = self)); simpl; repeat split;
      destruct r, d; reflexivity. }
  destruct F0 as (Fi & Fpi & Fpt & Fdl & Fs & Fh).
  destruct (G.CA g) eqn:ECA.
  - destruct (cancel_hints_lookup packetsAtBS nodes1 k) as (r & d & E & Hrd).
    rewrite E1 in E. specialize (Hrd _ E1). simpl in E.
    destruct (Fh r d) as (Fh1 & Fr & Fd). rewrite Fr, Fd in Hrd.
    pose proof (clear_frame r d (touch c n0)) as (Ci & Cp & Cs & _).
    exists (clear r d (touch c n0)), r, d.
    rewrite Ci, Cp, Cs. intuition.
  - exists (touch c n0), false, false.
    destruct (Fh false false) as (Fh1 & _). simpl in Fh1.
    intuition; discriminate.
Qed.

(** After the correction no node holds a hint from a collided packet that is
    on the air. *)
Lemma at_propagation_effect (g : G.settings) (now : Q) (packetsAtBS : list nat)
    (self : nat) (nodes : list myNode.t) (j : nat) (o : myNode.t) :
  G.CA g = true ->
  j ∈ packetsAtBS ->
  at_propagation g now packetsAtBS self nodes !! j = Some o ->
  myPacket.collided (myNode.packet o) = true ->
  forall k m, at_propagation g now packetsAtBS self nodes !! k = Some m ->
    ~ (myNode.receive_rts m = true
       /\ myNode.receive_rts_from m = myNode.nodeid o)
    /\ ~ (myNode.receive_data m = true
          /\ myNode.receive_data_from m = myNode.nodeid o).
Proof.
  unfold at_propagation. intros HCA Hin Ej Hc k m Ek.
  destruct (pairwise g now packetsAtBS self
              (mark_processed g packetsAtBS self nodes)) as [nodes1 col].
  rewrite HCA in Ej, Ek. simpl in Ej, Ek.
  destruct (cancel_hints_lookup packetsAtBS nodes1 j) as (r & d & E & _).
  rewrite Ej in E. destruct (nodes1 !! j) as [o1 |] eqn:E1; [| discriminate].
  simpl in E. injection E as ->.
  pose proof (clear_frame r d o1) as (Fi & Fp & _).
  rewrite Fi. rewrite Fp in Hc.
  exact (cancel_hints_effect packetsAtBS nodes1 j o1 Hin E1 Hc k m Ek).
Qed.

(** The result of the handler, node by node. *)
Lemma checkcollision_lookup (g : G.settings) (now : Q) (packetsAtBS : list nat)
    (self : nat) (nodes nodes' : list myNode.t) (col : bool) (s : myNode.t)
    (k : nat) (n' : myNode.t) :
  checkcollision g now packetsAtBS self nodes = (nodes', col) ->
  nodes !! self = Some s ->
  nodes' !! k = Some n' ->
  exists m p,
    at_propagation g now packetsAtBS self nodes !! k = Some m
    /\ myPacket.nodeid p = myPacket.nodeid (myNode.packet s)
    /\ myPacket.ptype p = myPacket.ptype (myNode.packet s)
    /\ myPacket.data_len p = myPacket.data_len (myNode.packet s)
    /\ n' = if negb col && G.CA g then hint_one g now p m else m.
Proof.
  intros H Es Ek.
  destruct (checkcollision_phases _ _ _ _ _ _ _ H) as (nodes1 & _ & ->).
  destruct (at_propagation_lookup g now packetsAtBS self nodes self s Es)
    as (s2 & _ & _ & Es2 & _ & Fpi & Fpt & Fdl & _).
  destruct col; simpl.
  - exists n', (myNode.packet s2). auto.
  - destruct (G.CA g).
    + rewrite (propagate_hints_lookup _ _ _ _ _ _ Es2) in Ek.
      destruct (at_propagation g now packetsAtBS self nodes !! k) as [m |];
        [| discriminate].
      injection Ek as <-. exists m, (myNode.packet s2). auto.
    + exists n', (myNode.packet s2). auto.
Qed.

Lemma at_propagation_lookup_inv (g : G.settings) (now : Q)
    (packetsAtBS : list nat) (self : nat) (nodes : list myNode.t) (k : nat)
    (m : myNode.t) :
  at_propagation g now packetsAtBS self nodes !! k = Some m ->
  exists n, nodes !! k = Some n.
Proof.
  unfold at_propagation. intros H.
  destruct (pairwise g now packetsAtBS self
              (mark_processed g packetsAtBS self nodes)) as [nodes1 col] eqn:Ep.
  destruct (pairwise_lookup _ _ _ _ _ _ _ k Ep) as [c Ec].
  destruct (mark_processed_lookup g packetsAtBS self nodes k) as [b Eb].
  simpl in H.
  assert (H1 : is_Some (nodes1 !! k)).
  { destruct (G.CA g); [| eauto].
    destruct (cancel_hints_lookup packetsAtBS nodes1 k) as (r & d & E & _).
    rewrite H in E. destruct (nodes1 !! k); [eauto | discriminate]. }
  destruct H1 as [n1 H1]. rewrite H1, Eb in Ec.
  destruct (nodes !! k) as [n |]; [eauto |].
  destruct (decide (k = self)); discriminate.
Qed.

(** X9 (the statement of claim C3).  On every arrival at the gateway, once
    the arriving packet has been evaluated against the packets on the air,
    no node is left holding a reception hint (receive_rts or receive_data)
    whose recorded sender is on the air with its packet marked collided;
    this holds for both values of the returned flag, that is whether or not the arriving packet itself
    collided.  (A node whose hint was cleared may at once receive the hint
    of the arriving packet, whose sender is not yet on the air.)  Without
    collision avoidance the loop does not run and no node holds a hint. *)
Theorem checkcollision_cancels_hints (g : G.settings) (now : Q)
    (packetsAtBS : list nat) (self : nat) (nodes nodes' : list myNode.t)
    (col : bool) (s : myNode.t) :
  unique_ids nodes ->
  self ∉ packetsAtBS ->
  nodes !! self = Some s ->
  (G.CA g = false ->
   forall k n, nodes !! k = Some n ->
     myNode.receive_rts n = false /\ myNode.receive_data n = false) ->
  checkcollision g now packetsAtBS self nodes = (nodes', col) ->
  forall k n', nodes' !! k = Some n' ->
    (myNode.receive_rts n' = true ->
     ~ in_flight_collided nodes' packetsAtBS (myNode.receive_rts_from n'))
    /\ (myNode.receive_data n' = true ->
        ~ in_flight_collided nodes' packetsAtBS (myNode.receive_data_from n')).
Proof.
  intros Hid Hself Es HnoCA H k n' Ek.
  destruct (checkcollision_lookup _ _ _ _ _ _ _ _ _ _ H Es Ek)
    as (m & p & Em & Pi & Pt & Pd & En').
  destruct (at_propagation_lookup_inv _ _ _ _ _ _ _ Em) as [n En].
  destruct (at_propagation_lookup g now packetsAtBS self nodes k n En)
    as (m0 & r & d & Em0 & _ & _ & _ & _ & _ & Fh & Hr & Hd).
  rewrite Em in Em0. injection Em0 as <-.
  destruct (Hid _ _ Es) as [_ Hsid].
  (* every collided packet on the air was already so at the propagation loop *)
  assert (Hback : forall id,
    in_flight_collided nodes' packetsAtBS id ->
    exists j o2, j ∈ packetsAtBS
      /\ at_propagation g now packetsAtBS self nodes !! j = Some o2
      /\ myNode.nodeid o2 = id /\ id = Z.of_nat j
      /\ myPacket.collided (myNode.packet o2) = true).
  { intros id (j & o' & Hin & Ej & Hoid & Hoc).
    destruct (checkcollision_lookup _ _ _ _ _ _ _ _ _ _ H Es Ej)
      as (o2 & p' & Eo2 & _ & _ & _ & Eo').
    destruct (at_propagation_lookup_inv _ _ _ _ _ _ _ Eo2) as [nj Enj].
    destruct (at_propagation_lookup g now packetsAtBS self nodes j nj Enj)
      as (o3 & _ & _ & Eo3 & Fi & _).
    rewrite Eo2 in Eo3. injection Eo3 as <-.
    destruct (Hid _ _ Enj) as [Hnj _].
    assert (Hfr : myNode.nodeid o' = myNode.nodeid o2
                  /\ myNode.packet o' = myNode.packet o2).
    { subst o'. destruct (negb col && G.CA g); [| auto].
      pose proof (hint_one_frame g now p' o2). tauto. }
    destruct Hfr as [Hfi Hfp].
    exists j, o2. rewrite <- Hfi, <- Hfp. repeat split; auto; congruence. }
  destruct (G.CA g) eqn:ECA.
  - (* with collision avoidance *)
    assert (Hmid :
      (myNode.receive_rts m = true ->
       ~ in_flight_collided nodes' packetsAtBS (myNode.receive_rts_from m))
      /\ (myNode.receive_data m = true ->
          ~ in_flight_collided nodes' packetsAtBS (myNode.receive_data_from m))).
    { split; intros Hf Hc; destruct (Hback _ Hc) as (j & o2 & Hin & Eo2 & Hoid & _ & Hoc);
        destruct (at_propagation_effect g now packetsAtBS self nodes j o2
                    ECA Hin Eo2 Hoc k m Em) as [A B]; [apply A | apply B]; auto. }
    rewrite andb_true_r in En'.
    destruct col; simpl in En'; [subst n'; exact Hmid |].
    destruct (eligible p m) eqn:Eel.
    + rewrite hint_one_eligible in En' by exact Eel.
      unfold eligible in Eel.
      apply andb_true_iff in Eel as [Eel E4]. apply andb_true_iff in Eel as [_ E3].
      apply negb_true_iff in E3, E4.
      assert (Hfresh : ~ in_flight_collided nodes' packetsAtBS (myPacket.nodeid p)).
      { intros Hc. destruct (Hback _ Hc) as (j & _ & Hin & _ & _ & Hj & _).
        rewrite Pi, Hsid in Hj. apply Nat2Z.inj in Hj. subst j. contradiction. }
      subst n'. destruct (myPacket.ptype p); simpl; rewrite ?E3, ?E4;
        split; intros; (discriminate || assumption).
    + rewrite hint_one_not_eligible in En' by exact Eel. subst n'. exact Hmid.
  - (* without: no hint at all *)
    simpl in En'. rewrite andb_false_r in En'. subst n'.
    destruct (HnoCA eq_refl _ _ En) as [Hr0 Hd0].
    assert (r = false) by (destruct r; [destruct Hr; auto; discriminate | reflexivity]).
    assert (d = false) by (destruct d; [destruct Hd; auto; discriminate | reflexivity]).
    subst r d. simpl in Fh. unfold hints in Fh.
    injection Fh as Fr _ _ Fd _ _ _. rewrite Fr, Fd, Hr0, Hd0.
    split; discriminate.
Qed.

(** X8 (the statement of claim C2).  When a packet [p] arrives at the
    gateway and the pairwise evaluation does not mark it collided (the
    handler returns 0), then every
    node other than the sender that is in PHASE1_LISTEN or PHASE2_LISTEN and
    whose two flags are false when the loop of lines 477-499 tests them gets
    [receive_rts = true], [receive_rts_from = p.nodeid],
    [receive_rts_time = now] and [nav = p.data_len] if [p] is an RTS, and
    [receive_data = true], [receive_data_from = p.nodeid],
    [receive_data_time = now] and [nav = max_payload_size] if [p] is DATA;
    the hints of every other node are as they were when [p] arrived.  The
    flags tested are those of [at_propagation], the table after the
    correction of lines 451-461; for a node that holds no hint when [p]
    arrives they are the flags at arrival. *)
Theorem checkcollision_propagates_hints (g : G.settings) (now : Q)
    (packetsAtBS : list nat) (self : nat) (nodes nodes' : list myNode.t)
    (s : myNode.t) :
  unique_ids nodes ->
  (forall k n, nodes !! k = Some n -> hint_wf n) ->
  (G.CA g = false ->
   forall k n, nodes !! k = Some n -> myNode.listening n = false) ->
  nodes !! self = Some s ->
  myNode.listening s = false ->
  checkcollision g now packetsAtBS self nodes = (nodes', false) ->
  forall k n, nodes !! k = Some n ->
    exists m n',
      at_propagation g now packetsAtBS self nodes !! k = Some m
      /\ nodes' !! k = Some n'
      /\ (k <> self -> myNode.listening n = true ->
          myNode.receive_rts m = false -> myNode.receive_data m = false ->
          match myPacket.ptype (myNode.packet s) with
          | rtsPacketType =>
              myNode.receive_rts n' = true
              /\ myNode.receive_rts_from n' = myPacket.nodeid (myNode.packet s)
              /\ myNode.receive_rts_time n' = now
              /\ myNode.nav n' = myPacket.data_len (myNode.packet s)
          | dataPacketType =>
              myNode.receive_data n' = true
              /\ myNode.receive_data_from n' = myPacket.nodeid (myNode.packet s)
              /\ myNode.receive_data_time n' = now
              /\ myNode.nav n' = G.max_payload_size g
          end)
      /\ (~ (k <> self /\ myNode.listening n = true
             /\ myNode.receive_rts m = false /\ myNode.receive_data m = false) ->
          hints n' = hints n)
      /\ (myNode.receive_rts n = false -> myNode.receive_data n = false ->
          myNode.receive_rts m = false /\ myNode.receive_data m = false).
Proof.
  intros Hid Hwf HnoCA Es Hls H k n En.
  destruct (at_propagation_lookup g now packetsAtBS self nodes k n En)
    as (m & r & d & Em & Fi & _ & _ & _ & Fs & Fh & Hr & Hd).
  destruct (checkcollision_phases _ _ _ _ _ _ _ H) as (nodes1 & _ & E').
  destruct (at_propagation_lookup g now packetsAtBS self nodes self s Es)
    as (s2 & _ & _ & Es2 & _ & Pi & Pt & Pd & _).
  destruct (Hid _ _ En) as [Hnid _]. destruct (Hid _ _ Es) as [_ Hsid].
  destruct (Hwf _ _ En) as [Hw1 Hw2].
  assert (Hlis : myNode.listening m = myNode.listening n)
    by (unfold myNode.listening; rewrite Fs; reflexivity).
  assert (Hflags : myNode.receive_rts m = myNode.receive_rts n && negb r
                   /\ myNode.receive_data m = myNode.receive_data n && negb d).
  { unfold hints in Fh. injection Fh as F1 _ _ F4 _ _ _.
    pose proof (clear_frame r d n) as (_ & _ & _ & _ & _ & Cr & Cd).
    rewrite F1, F4, Cr, Cd. auto. }
  destruct Hflags as [Hfr Hfd].
  (* a node that is not tested positively was not touched by the correction *)
  assert (Hsame :
    ~ (k <> self /\ myNode.listening n = true
       /\ myNode.receive_rts m = false /\ myNode.receive_data m = false) ->
    hints m = hints n).
  { intros Hne. destruct r, d; try exact Fh; exfalso; apply Hne.
    - destruct Hr as [Hr _]; auto. destruct Hd as [Hd _]; auto. tauto.
    - destruct Hr as [Hr _]; auto.
      assert (Hl : myNode.listening n = true) by auto.
      rewrite Hfr, Hfd, Hr, andb_true_r.
      repeat split; try reflexivity; try assumption.
      + intros ->. rewrite Es in En. injection En as <-. congruence.
      + destruct (myNode.receive_data n); [tauto | reflexivity].
    - destruct Hd as [Hd _]; auto.
      assert (Hl : myNode.listening n = true) by auto.
      rewrite Hfr, Hfd, Hd, andb_true_r.
      repeat split; try reflexivity; try assumption.
      + intros ->. rewrite Es in En. injection En as <-. congruence.
      + destruct (myNode.receive_rts n); [tauto | reflexivity]. }
  assert (Hnohint : myNode.receive_rts n = false -> myNode.receive_data n = false ->
                    myNode.receive_rts m = false /\ myNode.receive_data m = false).
  { intros A B. rewrite Hfr, Hfd, A, B. auto. }
  simpl in E'. destruct (G.CA g) eqn:ECA.
  - (* with collision avoidance: the loop runs *)
    exists m, (hint_one g now (myNode.packet s2) m).
    split; [exact Em |]. split.
    { rewrite E', (propagate_hints_lookup _ _ _ _ _ _ Es2), Em. reflexivity. }
    assert (Hel : eligible (myNode.packet s2) m = true <->
                  k <> self /\ myNode.listening n = true
                  /\ myNode.receive_rts m = false /\ myNode.receive_data m = false).
    { unfold eligible. rewrite Hlis, Fi, Pi, Hnid, Hsid.
      rewrite !andb_true_iff, !negb_true_iff, Z.eqb_neq.
      split; [intros [[[A B] C] D] | intros (A & B & C & D)];
        repeat split; auto; lia. }
    split; [| split; [| exact Hnohint]].
    + intros A B C D. rewrite hint_one_eligible by (apply Hel; auto).
      rewrite Pt, Pi, Pd. destruct (myPacket.ptype (myNode.packet s)); auto.
    + intros Hne. rewrite hint_one_not_eligible; [auto |].
      destruct (eligible (myNode.packet s2) m) eqn:E; [| reflexivity].
      exfalso. apply Hne, Hel. reflexivity.
  - (* without: nobody listens, nothing is written *)
    exists m, m. split; [exact Em |]. split; [rewrite E'; exact Em |].
    split; [| split; [exact Hsame | exact Hnohint]].
    intros _ Hl. rewrite (HnoCA eq_refl _ _ En) in Hl. discriminate.
Qed.

Lemma hint_one_hint_set (g : G.settings) (now : Q) (p : myPacket.t)
    (n : myNode.t) :
  hint_one g now p n = if eligible p n then hint_set g now p n else n.
Proof.
  destruct (eligible p n) eqn:E.
  - apply hint_one_eligible, E.
  - apply hint_one_not_eligible, E.
Qed.

(** The handler changes a node by [gw_effect] and in no other way. *)
Lemma checkcollision_shape (g : G.settings) (now : Q) (packetsAtBS : list nat)
    (self : nat) (nodes nodes' : list myNode.t) (col : bool) (s : myNode.t)
    (k : nat) (n' : myNode.t) :
  checkcollision g now packetsAtBS self nodes = (nodes', col) ->
  nodes !! self = Some s ->
  nodes' !! k = Some n' ->
  exists n p b c r d h,
    nodes !! k = Some n
    /\ n' = gw_effect g now p b c r d h n
    /\ b = (if decide (k = self)
            then Some (negb (count_processed nodes packetsAtBS
                             >? G.maxBSReceives g))
            else None)
    /\ (h = true ->
        myNode.listening n = true
        /\ myNode.receive_rts (clear r d n) = false
        /\ myNode.receive_data (clear r d n) = false).
Proof.
  intros H Es Ek.
  destruct (checkcollision_lookup _ _ _ _ _ _ _ _ _ _ H Es Ek)
    as (m & p & Em & _ & _ & _ & En').
  unfold at_propagation in Em.
  destruct (pairwise g now packetsAtBS self
              (mark_processed g packetsAtBS self nodes)) as [nodes1 col1] eqn:Ep.
  destruct (pairwise_lookup _ _ _ _ _ _ _ k Ep) as [c Ec].
  simpl in Em.
  assert (Hm : exists r d, nodes1 !! k = Some m /\ r = false /\ d = false
                 \/ (exists m1, nodes1 !! k = Some m1 /\ m = clear r d m1)).
  { destruct (G.CA g).
    - destruct (cancel_hints_lookup packetsAtBS nodes1 k) as (r & d & E & _).
      rewrite Em in E. destruct (nodes1 !! k) as [m1 |]; [| discriminate].
      injection E as ->. exists r, d. right. eauto.
    - exists false, false. left. auto. }
  destruct Hm as (r & d & Hm).
  assert (Hm1 : exists m1, nodes1 !! k = Some m1 /\ m = clear r d m1).
  { destruct Hm as [(E & -> & ->) | Hm]; [exists m; auto | exact Hm]. }
  clear Hm. destruct Hm1 as (m1 & E1 & ->).
  rewrite E1 in Ec. unfold mark_processed in Ec.
  set (v := negb (count_processed nodes packetsAtBS >? G.maxBSReceives g)) in *.
  assert (E0 : (if count_processed nodes packetsAtBS >? G.maxBSReceives g
                then alter (myNode.upd_packet (myPacket.set_processed false))
                       self nodes
                else alter (myNode.upd_packet (myPacket.set_processed true))
                       self nodes)
               = alter (myNode.upd_packet (myPacket.set_processed v)) self nodes).
  { unfold v. destruct (_ >? _); reflexivity. }
  rewrite E0 in Ec. clear E0.
  set (h := negb col && G.CA g && eligible p (clear r d m1)).
  assert (En'' : n' = if h then hint_set g now p (clear r d m1)
                      else clear r d m1).
  { subst n' h. rewrite hint_one_hint_set.
    destruct (negb col && G.CA g), (eligible p (clear r d m1)); reflexivity. }
  destruct (decide (k = self)) as [-> | Hne].
  - rewrite list_lookup_alter_eq, Es in Ec. simpl in Ec. injection Ec as ->.
    exists s, p, (Some v), c, r, d, h.
    split; [exact Es |]. split; [exact En'' |]. split; [reflexivity |].
    intros Hh. unfold h in Hh.
    apply andb_true_iff in Hh as [_ Hh]. unfold eligible in Hh.
    apply andb_true_iff in Hh as [Hh E4]. apply andb_true_iff in Hh as [Hh E3].
    apply andb_true_iff in Hh as [_ E2].
    apply negb_true_iff in E3, E4.
    destruct c, r, d; simpl in *; auto.
  - rewrite list_lookup_alter_ne in Ec by congruence.
    destruct (nodes !! k) as [n |] eqn:En; [| discriminate].
    simpl in Ec. injection Ec as ->.
    exists n, p, None, c, r, d, h.
    split; [reflexivity |]. split; [exact En'' |]. split; [reflexivity |].
    intros Hh. unfold h in Hh.
    apply andb_true_iff in Hh as [_ Hh]. unfold eligible in Hh.
    apply andb_true_iff in Hh as [Hh E4]. apply andb_true_iff in Hh as [Hh E3].
    apply andb_true_iff in Hh as [_ E2].
    apply negb_true_iff in E3, E4.
    destruct c, r, d; simpl in *; auto.
Qed.

(** ** Counting the demodulator slots *)

Lemma py_in_elem_of (i : nat) (l : list nat) : py_in i l = true <-> i ∈ l.
Proof.
  unfold py_in. induction l as [| j l IH]; simpl.
  - split; [discriminate | intros H; inversion H].
  - rewrite orb_true_iff, IH, elem_of_cons, Nat.eqb_eq. tauto.
Qed.

Lemma count_processed_le (nodes nodes' : list myNode.t) (l : list nat) :
  (forall j, j ∈ l -> is_processed nodes' j = true -> is_processed nodes j = true) ->
  count_processed nodes' l <= count_processed nodes l.
Proof.
  induction l as [| j l IH]; intros H; simpl; [lia |].
  assert (IH' : count_processed nodes' l <= count_processed nodes l).
  { apply IH. intros j' Hj'. apply H, elem_of_cons. right. exact Hj'. }
  specialize (H j (proj2 (elem_of_cons l j j) (or_introl eq_refl))).
  destruct (is_processed nodes' j), (is_processed nodes j); lia.
Qed.

Lemma count_processed_ext (nodes nodes' : list myNode.t) (l : list nat) :
  (forall j, j ∈ l -> is_processed nodes' j = is_processed nodes j) ->
  count_processed nodes' l = count_processed nodes l.
Proof.
  intros H. apply Z.le_antisymm; apply count_processed_le; intros j Hj;
    rewrite (H j Hj); auto.
Qed.

Lemma count_processed_app (nodes : list myNode.t) (l1 l2 : list nat) :
  count_processed nodes (l1 ++ l2)
  = count_processed nodes l1 + count_processed nodes l2.
Proof. induction l1 as [| j l1 IH]; simpl; [reflexivity | rewrite IH; lia]. Qed.

Lemma count_processed_nonneg (nodes : list myNode.t) (l : list nat) :
  0 <= count_processed nodes l.
Proof.
  induction l as [| j l IH]; simpl; [lia |].
  destruct (is_processed nodes j); lia.
Qed.

Lemma count_processed_remove (nodes : list myNode.t) (i : nat) (l : list nat) :
  count_processed nodes (py_remove i l) <= count_processed nodes l.
Proof.
  induction l as [| j l IH]; simpl; [lia |].
  pose proof (count_processed_nonneg nodes l).
  destruct (Nat.eqb i j); simpl; destruct (is_processed nodes j); lia.
Qed.

Lemma is_processed_insert (nodes : list myNode.t) (i : nat) (n n' : myNode.t)
    (j : nat) :
  nodes !! i = Some n ->
  myPacket.processed (myNode.packet n') = myPacket.processed (myNode.packet n) ->
  is_processed (<[i := n']> nodes) j = is_processed nodes j.
Proof.
  intros Ei Hp. unfold is_processed.
  destruct (decide (i = j)) as [<- | Hne].
  - rewrite list_lookup_insert_eq by (eapply lookup_lt_Some; eauto).
    rewrite Ei. exact Hp.
  - rewrite list_lookup_insert_ne by exact Hne. reflexivity.
Qed.

(** ** Steps that touch the stepping node only *)

Lemma wf_local (g : G.settings) (st st_g : Sim.t) (i : nat)
    (node node' : myNode.t) (c c' : pc) :
  wf g st ->
  Sim.nodes st !! i = Some node -> Sim.tasks st !! i = Some c ->
  Sim.nodes st_g = Sim.nodes st -> Sim.tasks st_g = Sim.tasks st ->
  Sim.packetsAtBS st_g = Sim.packetsAtBS st ->
  own_ok g c c' node node' ->
  wf g (Sim.goto i c' (Sim.put i node' st_g)).
Proof.
  intros [Hids Hnodes Hslots Hlen] Ei Ec En Et Ep [O1 O2 O3 O4].
  unfold wf, Sim.goto, Sim.put. simpl. rewrite En, Et, Ep.
  pose proof (lookup_lt_Some _ _ _ Ei) as Li.
  pose proof (lookup_lt_Some _ _ _ Ec) as Lc.
  split.
  - intros j n Ej. destruct (decide (i = j)) as [<- | Hne].
    + rewrite list_lookup_insert_eq in Ej by exact Li. injection Ej as <-.
      rewrite O1, O2. apply Hids, Ei.
    + rewrite list_lookup_insert_ne in Ej by exact Hne. apply Hids, Ej.
  - intros k n c0 Ek Ek'. destruct (decide (i = k)) as [<- | Hne].
    + rewrite list_lookup_insert_eq in Ek by exact Li.
      rewrite list_lookup_insert_eq in Ek' by exact Lc.
      injection Ek as <-. injection Ek' as <-. eauto.
    + rewrite list_lookup_insert_ne in Ek by exact Hne.
      rewrite list_lookup_insert_ne in Ek' by exact Hne. eauto.
  - rewrite (count_processed_ext (Sim.nodes st)); [exact Hslots |].
    intros j _. eapply is_processed_insert; eauto.
  - rewrite !length_insert. exact Hlen.
Qed.

Lemma wf_goto (g : G.settings) (st : Sim.t) (i : nat) (node : myNode.t)
    (c c' : pc) :
  wf g st ->
  Sim.nodes st !! i = Some node -> Sim.tasks st !! i = Some c ->
  (node_wf g c node -> node_wf g c' node) ->
  wf g (Sim.goto i c' st).
Proof.
  intros Hwf Ei Ec H.
  assert (W : wf g (Sim.goto i c' (Sim.put i node st))).
  { eapply wf_local; eauto. split; auto. }
  unfold wf, Sim.goto, Sim.put in *. simpl in *.
  rewrite list_insert_id in W by exact Ei. exact W.
Qed.

(** ** Tactics for the case analysis of a block *)

Ltac bool_hyps :=
  repeat match goal with
  | H : _ && _ = true |- _ => apply andb_true_iff in H; destruct H
  | H : negb _ = true |- _ => apply negb_true_iff in H
  | H : negb _ = false |- _ => apply negb_false_iff in H
  | H : mac_state_eqb _ _ = true |- _ => apply mac_state_eqb_eq in H
  | H : packet_type_eqb _ _ = true |- _ => apply packet_type_eqb_eq in H
  | H : (_ =? _) = true |- _ => apply Z.eqb_eq in H
  | H : (_ =? _) = false |- _ => apply Z.eqb_neq in H
  | H : (_ <? _) = true |- _ => apply Z.ltb_lt in H
  | H : (_ <? _) = false |- _ => apply Z.ltb_ge in H
  | H : (_ >? _) = true |- _ => apply Z.gtb_lt in H
  | H : (_ >? _) = false |- _ => rewrite Z.gtb_ltb in H; apply Z.ltb_ge in H
  end.

Ltac split_step H :=
  repeat match type of H with
         | context [if ?b then _ else _] => destruct b eqn:?
         | context [match ?x with _ => _ end] => destruct x eqn:?
         end.

Ltac split_ifs H :=
  repeat match type of H with
         | context [if ?b then _ else _] => destruct b eqn:?
         end.

Ltac use_state :=
  repeat match goal with
         | H : myNode.ca_state _ = _ |- _ => rewrite H in *
         end.

(** Closes [own_ok g c c' node node'] for a [node'] written with setters. *)
Ltac own_tac :=
  split; [reflexivity | reflexivity | reflexivity |];
  let W1 := fresh "W" in
  let W2 := fresh "W" in
  let W3 := fresh "W" in
  let W4 := fresh "W" in
  let W5 := fresh "W" in
  let W6 := fresh "W" in
  let W8 := fresh "W" in
  let W9 := fresh "W" in
  let W10 := fresh "W" in
  let W11 := fresh "W" in
  intros [W1 W2 W3 W4 W5 W6 W8 W9 W10 W11];
  bool_hyps;
  try specialize (W11 (or_introl eq_refl));
  try specialize (W11 (or_intror (or_introl eq_refl)));
  try specialize (W11 (or_intror (or_intror eq_refl)));
  try match goal with
      | HCA : G.CA _ = false |- _ => pose proof (W10 HCA)
      end;
  try specialize (W9 eq_refl);
  try specialize (W8 (or_introl eq_refl));
  try specialize (W8 (or_intror eq_refl));
  split; unfold hint_wf, myNode.listening in *; cbn; use_state; cbn in *;
  try specialize (W2 ltac:(discriminate) ltac:(discriminate));
  [ lia
  | intros; first [congruence | lia | apply W2; congruence]
  | let h := fresh in intros h; try specialize (W3 h); lia
  | let h := fresh in intros h; try specialize (W4 h); lia
  | lia
  | intuition (congruence || discriminate)
  | intros [? | ?]; first [discriminate | congruence | apply W8; auto]
  | intros ?; first [discriminate | congruence | apply W9; auto]
  | let h := fresh in
    intros h;
    first [exact (W10 h) | congruence | specialize (W10 h); congruence]
  | intros [? | [? | ?]];
    first [discriminate | assumption | congruence | apply W11; auto] ].

(** ** The invariant, piece by piece *)

Lemma node_wf_pc (g : G.settings) (c c' : pc) (n : myNode.t) :
  node_wf g c n -> plain_pc c' -> node_wf g c' n.
Proof.
  intros [W1 W2 W3 W4 W5 W6 W8 W9 W10 W11] (A & B & C & D & E & F).
  split; auto; intros; intuition congruence.
Qed.

Lemma alter_insert (f : myNode.t -> myNode.t) (i : nat)
    (nodes : list myNode.t) (n : myNode.t) :
  nodes !! i = Some n -> alter f i nodes = <[i := f n]> nodes.
Proof.
  intros Ei. apply list_eq. intros j.
  destruct (decide (i = j)) as [<- | Hne].
  - rewrite list_lookup_alter_eq, Ei.
    rewrite list_lookup_insert_eq by (eapply lookup_lt_Some; eauto).
    reflexivity.
  - rewrite list_lookup_alter_ne, list_lookup_insert_ne by exact Hne.
    reflexivity.
Qed.

Lemma wf_parts_own (g : G.settings) (nodes : list myNode.t) (tasks : list pc)
    (packetsAtBS : list nat) (i : nat) (n n' : myNode.t) (c c' : pc) :
  wf_parts g nodes tasks packetsAtBS ->
  nodes !! i = Some n -> tasks !! i = Some c ->
  own_ok g c c' n n' ->
  wf_parts g (<[i := n']> nodes) (<[i := c']> tasks) packetsAtBS.
Proof.
  intros [Hids Hnodes Hslots Hlen] Ei Ec [O1 O2 O3 O4].
  pose proof (lookup_lt_Some _ _ _ Ei) as Li.
  pose proof (lookup_lt_Some _ _ _ Ec) as Lc.
  split.
  - intros j m Ej. destruct (decide (i = j)) as [<- | Hne].
    + rewrite list_lookup_insert_eq in Ej by exact Li. injection Ej as <-.
      rewrite O1, O2. apply Hids, Ei.
    + rewrite list_lookup_insert_ne in Ej by exact Hne. apply Hids, Ej.
  - intros k m c0 Ek Ek'. destruct (decide (i = k)) as [<- | Hne].
    + rewrite list_lookup_insert_eq in Ek by exact Li.
      rewrite list_lookup_insert_eq in Ek' by exact Lc.
      injection Ek as <-. injection Ek' as <-. eauto.
    + rewrite list_lookup_insert_ne in Ek by exact Hne.
      rewrite list_lookup_insert_ne in Ek' by exact Hne. eauto.
  - rewrite (count_processed_ext nodes); [exact Hslots |].
    intros j _. eapply is_processed_insert; eauto.
  - rewrite !length_insert. exact Hlen.
Qed.

Lemma wf_stutter (g : G.settings) (st : Sim.t) (i : nat) (node : myNode.t)
    (c c' : pc) :
  wf g st ->
  Sim.nodes st !! i = Some node -> Sim.tasks st !! i = Some c ->
  plain_pc c' ->
  wf g (Sim.goto i c' st).
Proof.
  intros Hwf Ei Ec A.
  eapply wf_goto; eauto. intros W. eapply node_wf_pc; eauto.
Qed.

Lemma gw_rel_refl (g : G.settings) (n : myNode.t) : gw_rel g n n.
Proof. split; auto. Qed.

Lemma gw_rel_trans (g : G.settings) (n1 n2 n3 : myNode.t) :
  gw_rel g n1 n2 -> gw_rel g n2 n3 -> gw_rel g n1 n3.
Proof.
  intros [A1 A2 A3] [B1 B2 B3]. split; [congruence | congruence | auto].
Qed.

(** Assignments to the flags of the packet and to its time stamp. *)
Lemma gw_rel_flags (g : G.settings) (f : myPacket.t -> myPacket.t)
    (n : myNode.t) :
  myPacket.nodeid (f (myNode.packet n)) = myPacket.nodeid (myNode.packet n) ->
  gw_rel g n (myNode.upd_packet f n).
Proof.
  intros Hf. split; [reflexivity | exact Hf |].
  intros c [W1 W2 W3 W4 W5 W6 W8 W9 W10 W11]. split; assumption.
Qed.

Lemma gw_rel_effect (g : G.settings) (now : Q) (p : myPacket.t)
    (b : option bool) (c r d h : bool) (n : myNode.t) :
  (h = true ->
   myNode.listening n = true
   /\ myNode.receive_rts (clear r d n) = false
   /\ myNode.receive_data (clear r d n) = false) ->
  gw_rel g n (gw_effect g now p b c r d h n).
Proof.
  intros Hh. split.
  - unfold gw_effect, hint_set.
    destruct b as [v |], c, r, d, h, (myPacket.ptype p); reflexivity.
  - unfold gw_effect, hint_set.
    destruct b as [v |], c, r, d, h, (myPacket.ptype p); reflexivity.
  - intros c0 [W1 W2 W3 W4 W5 [W6 W7] W8 W9 W10 W11].
    assert (Hframe :
      myNode.n_retry (gw_effect g now p b c r d h n) = myNode.n_retry n
      /\ myNode.ca_state (gw_effect g now p b c r d h n) = myNode.ca_state n
      /\ myNode.n_retry_rts (gw_effect g now p b c r d h n)
         = myNode.n_retry_rts n
      /\ myNode.Wbusy_BE (gw_effect g now p b c r d h n) = myNode.Wbusy_BE n).
    { unfold gw_effect, hint_set.
      destruct b as [v |], c, r, d, h, (myPacket.ptype p); auto. }
    destruct Hframe as (F1 & F2 & F3 & F4).
    split; rewrite ?F1, ?F2, ?F3, ?F4; try assumption.
    unfold hint_wf, myNode.listening in *. rewrite F2.
    destruct h.
    + destruct Hh as (Hl & Hr & Hd); [reflexivity |].
      revert Hr Hd. unfold gw_effect, hint_set.
      destruct b as [v |], c, r, d, (myPacket.ptype p); cbn;
        intros Hr Hd; rewrite ?Hr, ?Hd; split; auto; intros [? ?]; discriminate.
    + unfold gw_effect.
      destruct b as [v |], c, r, d; cbn; split; auto;
        try (intros [? | ?]; discriminate);
        try (intros [? ?]; discriminate);
        try tauto.
Qed.

Lemma collide_with_length (g : G.settings) (now : Q) (self other : nat)
    (nodes nodes' : list myNode.t) (col col' : bool) :
  collide_with g now self (nodes, col) other = (nodes', col') ->
  length nodes' = length nodes.
Proof.
  unfold collide_with, mark_collided. intros H.
  split_step H; inversion H; subst; clear H;
    rewrite ?length_alter; reflexivity.
Qed.

Lemma pairwise_length (g : G.settings) (now : Q) (self : nat)
    (packetsAtBS : list nat) :
  forall (nodes nodes' : list myNode.t) (col col' : bool),
    foldl (collide_with g now self) (nodes, col) packetsAtBS = (nodes', col') ->
    length nodes' = length nodes.
Proof.
  induction packetsAtBS as [| other rest IH]; intros nodes nodes' col col' H.
  - simpl in H. inversion H; reflexivity.
  - cbn [foldl] in H.
    destruct (collide_with g now self (nodes, col) other) as [nodes1 col1] eqn:E.
    rewrite (IH _ _ _ _ H). eapply collide_with_length, E.
Qed.

Lemma cancel_hints_length (packetsAtBS : list nat) :
  forall nodes : list myNode.t,
    length (cancel_hints packetsAtBS nodes) = length nodes.
Proof.
  induction packetsAtBS as [| j rest IH]; intros nodes; [reflexivity |].
  rewrite cancel_hints_cons, IH.
  destruct (nodes !! j); [apply length_fmap | reflexivity].
Qed.

Lemma checkcollision_length (g : G.settings) (now : Q) (packetsAtBS : list nat)
    (self : nat) (nodes nodes' : list myNode.t) (col : bool) :
  checkcollision g now packetsAtBS self nodes = (nodes', col) ->
  length nodes' = length nodes.
Proof.
  unfold checkcollision, propagate_hints. intros H.
  destruct (pairwise g now packetsAtBS self
              (mark_processed g packetsAtBS self nodes)) as [nodes1 col1] eqn:Ep.
  apply pairwise_length in Ep.
  assert (L0 : length (mark_processed g packetsAtBS self nodes) = length nodes).
  { unfold mark_processed. destruct (_ >? _); apply length_alter. }
  split_step H; inversion H; subst; clear H;
    rewrite ?length_fmap, ?cancel_hints_length; congruence.
Qed.

Ltac len_tac :=
  first [ apply length_alter
        | eapply checkcollision_length; eassumption ].

(** A table whose nodes come from those of a well-formed table by [gw_rel]. *)
Lemma wf_parts_pointwise (g : G.settings) (nodes nodes' : list myNode.t)
    (tasks : list pc) (packetsAtBS packetsAtBS' : list nat) :
  length nodes' = length nodes ->
  (forall k n', nodes' !! k = Some n' ->
     exists n, nodes !! k = Some n /\ gw_rel g n n') ->
  count_processed nodes' packetsAtBS' <= G.maxBSReceives g + 1 ->
  wf_parts g nodes tasks packetsAtBS ->
  wf_parts g nodes' tasks packetsAtBS'.
Proof.
  intros Hl Hpt Hcount [Hids Hnodes _ Hlen]. split.
  - intros j n' Ej. destruct (Hpt _ _ Ej) as (n & En & [G1 G2 _]).
    rewrite G1, G2. apply Hids, En.
  - intros k n' c Ek Ec. destruct (Hpt _ _ Ek) as (n & En & [_ _ G3]).
    apply G3. eapply Hnodes; eauto.
  - exact Hcount.
  - congruence.
Qed.

Lemma alter_pointwise (g : G.settings) (f : myNode.t -> myNode.t) (i : nat)
    (nodes : list myNode.t) :
  (forall n, gw_rel g n (f n)) ->
  forall k n', alter f i nodes !! k = Some n' ->
    exists n, nodes !! k = Some n /\ gw_rel g n n'.
Proof.
  intros Hf k n' Ek. destruct (decide (i = k)) as [<- | Hne].
  - rewrite list_lookup_alter_eq in Ek.
    destruct (nodes !! i) as [n |]; [| discriminate].
    injection Ek as <-. eauto.
  - rewrite list_lookup_alter_ne in Ek by exact Hne.
    exists n'. split; [exact Ek | apply gw_rel_refl].
Qed.

Lemma is_processed_alter_other (f : myNode.t -> myNode.t) (i j : nat)
    (nodes : list myNode.t) :
  i <> j -> is_processed (alter f i nodes) j = is_processed nodes j.
Proof.
  intros Hne. unfold is_processed. rewrite list_lookup_alter_ne by exact Hne.
  reflexivity.
Qed.

Lemma is_processed_alter_same (f : myNode.t -> myNode.t) (i j : nat)
    (nodes : list myNode.t) :
  (forall n, myPacket.processed (myNode.packet (f n))
             = myPacket.processed (myNode.packet n)) ->
  is_processed (alter f i nodes) j = is_processed nodes j.
Proof.
  intros Hf. unfold is_processed. destruct (decide (i = j)) as [<- | Hne].
  - rewrite list_lookup_alter_eq. destruct (nodes !! i); simpl; auto.
  - rewrite list_lookup_alter_ne by exact Hne. reflexivity.
Qed.

(** *** The packet leaves the gateway *)

Lemma leave_tasks (i : nat) (st : Sim.t) :
  Sim.tasks (leave i st) = Sim.tasks st.
Proof. unfold leave. destruct (py_in i (Sim.packetsAtBS st)); reflexivity. Qed.

Lemma leave_wf_parts (g : G.settings) (i : nat) (st : Sim.t) (tasks : list pc) :
  wf_parts g (Sim.nodes st) tasks (Sim.packetsAtBS st) ->
  wf_parts g (Sim.nodes (leave i st)) tasks (Sim.packetsAtBS (leave i st)).
Proof.
  intros Hwf.
  set (reset := fun node =>
    myNode.upd_packet (myPacket.set_lost false)
      (myNode.upd_packet (myPacket.set_processed false)
         (myNode.upd_packet (myPacket.set_collided false) node))).
  assert (En : Sim.nodes (leave i st) = alter reset i (Sim.nodes st)).
  { unfold leave. destruct (py_in i (Sim.packetsAtBS st)); reflexivity. }
  assert (Ep : Sim.packetsAtBS (leave i st)
               = if py_in i (Sim.packetsAtBS st)
                 then py_remove i (Sim.packetsAtBS st)
                 else Sim.packetsAtBS st).
  { unfold leave. destruct (py_in i (Sim.packetsAtBS st)); reflexivity. }
  rewrite En, Ep.
  eapply wf_parts_pointwise; [len_tac | | | exact Hwf].
  - apply alter_pointwise. intros n. unfold reset.
    eapply gw_rel_trans; [| apply gw_rel_flags; reflexivity].
    eapply gw_rel_trans; apply gw_rel_flags; reflexivity.
  - destruct Hwf as [_ _ Hslots _].
    etransitivity; [| exact Hslots].
    transitivity (count_processed (Sim.nodes st)
                    (if py_in i (Sim.packetsAtBS st)
                     then py_remove i (Sim.packetsAtBS st)
                     else Sim.packetsAtBS st)).
    + apply count_processed_le. intros j _. unfold is_processed.
      destruct (decide (i = j)) as [<- | Hne].
      * rewrite list_lookup_alter_eq.
        destruct (Sim.nodes st !! i); simpl; discriminate.
      * rewrite list_lookup_alter_ne by exact Hne. auto.
    + destruct (py_in i (Sim.packetsAtBS st)); [| lia].
      apply count_processed_remove.
Qed.

(** *** A packet arrives at the gateway *)

Lemma checkcollision_pointwise (g : G.settings) (now : Q)
    (packetsAtBS : list nat) (self : nat) (nodes nodes' : list myNode.t)
    (col : bool) (s : myNode.t) :
  checkcollision g now packetsAtBS self nodes = (nodes', col) ->
  nodes !! self = Some s ->
  forall k n', nodes' !! k = Some n' ->
    exists n, nodes !! k = Some n /\ gw_rel g n n'
      /\ is_processed nodes' k
         = if decide (k = self)
           then negb (count_processed nodes packetsAtBS >? G.maxBSReceives g)
           else is_processed nodes k.
Proof.
  intros H Es k n' Ek.
  destruct (checkcollision_shape _ _ _ _ _ _ _ _ _ _ H Es Ek)
    as (n & p & b & c & r & d & h & En & -> & Hb & Hh).
  exists n. split; [exact En |]. split; [apply gw_rel_effect, Hh |].
  unfold is_processed. rewrite Ek, En.
  unfold gw_effect, hint_set.
  destruct (decide (k = self)); subst b;
    destruct c, r, d, h, (myPacket.ptype p); reflexivity.
Qed.

Lemma checkcollision_slots (g : G.settings) (now : Q) (packetsAtBS : list nat)
    (self : nat) (nodes nodes' : list myNode.t) (col : bool) (s : myNode.t) :
  checkcollision g now packetsAtBS self nodes = (nodes', col) ->
  nodes !! self = Some s ->
  self ∉ packetsAtBS ->
  length nodes' = length nodes ->
  count_processed nodes packetsAtBS <= G.maxBSReceives g + 1 ->
  count_processed nodes' (packetsAtBS ++ [self]) <= G.maxBSReceives g + 1.
Proof.
  intros H Es Hself Hlen Hslots.
  assert (Hlook : forall k, is_Some (nodes !! k) -> is_Some (nodes' !! k)).
  { intros k Hk. apply lookup_lt_is_Some. apply lookup_lt_is_Some in Hk. lia. }
  assert (Hsame : count_processed nodes' packetsAtBS
                  = count_processed nodes packetsAtBS).
  { apply count_processed_ext. intros j Hj.
    destruct (nodes' !! j) as [n' |] eqn:Ej.
    - destruct (checkcollision_pointwise _ _ _ _ _ _ _ _ H Es j n' Ej)
        as (n & _ & _ & E).
      rewrite E. destruct (decide (j = self)); [subst; contradiction | reflexivity].
    - unfold is_processed. rewrite Ej.
      destruct (nodes !! j) eqn:Ej'; [| reflexivity].
      destruct (Hlook j) as [? E]; [eauto | congruence]. }
  rewrite count_processed_app, Hsame. simpl.
  destruct (Hlook self) as [s' Es']; [eauto |].
  destruct (checkcollision_pointwise _ _ _ _ _ _ _ _ H Es self s' Es')
    as (_ & _ & _ & E).
  rewrite E. destruct (decide (self = self)); [| contradiction].
  destruct (Z.gtb_spec (count_processed nodes packetsAtBS) (G.maxBSReceives g));
    simpl; lia.
Qed.

Lemma arrive_tasks (g : G.settings) (now : Q) (i : nat) (st st' : Sim.t) :
  arrive g now i st = Some st' -> Sim.tasks st' = Sim.tasks st.
Proof.
  unfold arrive. intros H.
  destruct (py_in i (Sim.packetsAtBS st)); [inversion H; reflexivity |].
  destruct (Sim.nodes st !! i) as [node |]; [| discriminate]. simpl in H.
  destruct (sensitivity _ _) as [sens |]; [| discriminate]. simpl in H.
  destruct (Qltb _ _); [inversion H; reflexivity |].
  destruct (checkcollision _ _ _ _ _) as [nodes col].
  inversion H; reflexivity.
Qed.

Lemma arrive_noCA_tasks (g : G.settings) (now : Q) (i : nat) (st st' : Sim.t) :
  arrive_noCA g now i st = Some st' -> Sim.tasks st' = Sim.tasks st.
Proof.
  unfold arrive_noCA. intros H.
  destruct (py_in i (Sim.packetsAtBS st)); [inversion H; reflexivity |].
  destruct (Sim.nodes st !! i) as [node |]; [| discriminate]. simpl in H.
  destruct (sensitivity _ _) as [sens |]; [| discriminate]. simpl in H.
  destruct (Qltb _ _); [inversion H; reflexivity |].
  destruct (checkcollision _ _ _ _ _) as [nodes col].
  destruct col; inversion H; reflexivity.
Qed.

(** The arrival proper: the table after [lost = False], the handler, the
    append and the time stamp; [fix_flag] is the assignment to [collided]
    that the code without CA adds. *)
Lemma arrival_wf_parts (g : G.settings) (now : Q) (i : nat)
    (nodes nodes2 : list myNode.t) (tasks : list pc) (packetsAtBS : list nat)
    (col : bool) (node : myNode.t) (fix_flag : list myNode.t -> list myNode.t) :
  nodes !! i = Some node ->
  i ∉ packetsAtBS ->
  checkcollision g now packetsAtBS i
    (alter (myNode.upd_packet (myPacket.set_lost false)) i nodes) = (nodes2, col) ->
  (fix_flag = (fun l => l)
   \/ exists b, fix_flag
        = alter (myNode.upd_packet (myPacket.set_collided b)) i) ->
  wf_parts g nodes tasks packetsAtBS ->
  wf_parts g
    (alter (myNode.upd_packet (myPacket.set_addTime now)) i (fix_flag nodes2))
    tasks (packetsAtBS ++ [i]).
Proof.
  intros Ei Hi H Hfix Hwf.
  set (nodes1 := alter (myNode.upd_packet (myPacket.set_lost false)) i nodes) in *.
  assert (E1 : nodes1 !! i
               = Some (myNode.upd_packet (myPacket.set_lost false) node)).
  { unfold nodes1. rewrite list_lookup_alter_eq, Ei. reflexivity. }
  assert (W1 : wf_parts g nodes1 tasks packetsAtBS).
  { eapply wf_parts_pointwise; [len_tac | | | exact Hwf].
    - apply alter_pointwise. intros n. apply gw_rel_flags. reflexivity.
    - destruct Hwf as [_ _ Hs _]. unfold nodes1.
      rewrite (count_processed_ext nodes); [exact Hs |].
      intros j _. apply is_processed_alter_same. reflexivity. }
  assert (W2 : wf_parts g nodes2 tasks (packetsAtBS ++ [i])).
  { eapply wf_parts_pointwise; [len_tac | | | exact W1].
    - intros k n' Ek.
      destruct (checkcollision_pointwise _ _ _ _ _ _ _ _ H E1 k n' Ek)
        as (n & En & Hrel & _). eauto.
    - eapply checkcollision_slots; eauto.
      + eapply checkcollision_length; eauto.
      + apply W1. }
  assert (W3 : wf_parts g (fix_flag nodes2) tasks (packetsAtBS ++ [i])).
  { destruct Hfix as [-> | [b ->]]; [exact W2 |].
    eapply wf_parts_pointwise; [len_tac | | | exact W2].
    - apply alter_pointwise. intros n. apply gw_rel_flags. reflexivity.
    - destruct W2 as [_ _ Hs _].
      rewrite (count_processed_ext nodes2); [exact Hs |].
      intros j _. apply is_processed_alter_same. reflexivity. }
  eapply wf_parts_pointwise; [len_tac | | | exact W3].
  - apply alter_pointwise. intros n. apply gw_rel_flags. reflexivity.
  - destruct W3 as [_ _ Hs _].
    rewrite (count_processed_ext (fix_flag nodes2)); [exact Hs |].
    intros j _. apply is_processed_alter_same. reflexivity.
Qed.

Lemma arrive_wf_parts (g : G.settings) (now : Q) (i : nat) (st st' : Sim.t)
    (tasks : list pc) :
  arrive g now i st = Some st' ->
  wf_parts g (Sim.nodes st) tasks (Sim.packetsAtBS st) ->
  wf_parts g (Sim.nodes st') tasks (Sim.packetsAtBS st').
Proof.
  unfold arrive. intros H Hwf.
  destruct (py_in i (Sim.packetsAtBS st)) eqn:Ein;
    [inversion H; subst; exact Hwf |].
  assert (Hi : i ∉ Sim.packetsAtBS st).
  { intros Hin. apply py_in_elem_of in Hin. congruence. }
  destruct (Sim.nodes st !! i) as [node |] eqn:Ei; [| discriminate].
  simpl in H.
  destruct (sensitivity _ _) as [sens |]; [| discriminate]. simpl in H.
  destruct (Qltb _ _).
  - inversion H; subst; clear H. unfold Sim.upd. simpl.
    eapply wf_parts_pointwise; [len_tac | | | exact Hwf].
    + apply alter_pointwise. intros n. apply gw_rel_flags. reflexivity.
    + destruct Hwf as [_ _ Hs _].
      rewrite (count_processed_ext (Sim.nodes st)); [exact Hs |].
      intros j _. apply is_processed_alter_same. reflexivity.
  - unfold Sim.upd in H. simpl in H.
    destruct (checkcollision _ _ _ _ _) as [nodes2 col] eqn:Ecc.
    inversion H; subst; clear H. simpl.
    eapply (arrival_wf_parts g now i (Sim.nodes st) nodes2 tasks
              (Sim.packetsAtBS st) col node (fun l => l)); eauto.
Qed.

Lemma arrive_noCA_wf_parts (g : G.settings) (now : Q) (i : nat)
    (st st' : Sim.t) (tasks : list pc) :
  arrive_noCA g now i st = Some st' ->
  wf_parts g (Sim.nodes st) tasks (Sim.packetsAtBS st) ->
  wf_parts g (Sim.nodes st') tasks (Sim.packetsAtBS st').
Proof.
  unfold arrive_noCA. intros H Hwf.
  destruct (py_in i (Sim.packetsAtBS st)) eqn:Ein;
    [inversion H; subst; exact Hwf |].
  assert (Hi : i ∉ Sim.packetsAtBS st).
  { intros Hin. apply py_in_elem_of in Hin. congruence. }
  destruct (Sim.nodes st !! i) as [node |] eqn:Ei; [| discriminate].
  simpl in H.
  destruct (sensitivity _ _) as [sens |]; [| discriminate]. simpl in H.
  destruct (Qltb _ _).
  - inversion H; subst; clear H. unfold Sim.upd. simpl.
    eapply wf_parts_pointwise; [len_tac | | | exact Hwf].
    + apply alter_pointwise. intros n. apply gw_rel_flags. reflexivity.
    + destruct Hwf as [_ _ Hs _].
      rewrite (count_processed_ext (Sim.nodes st)); [exact Hs |].
      intros j _. apply is_processed_alter_same. reflexivity.
  - unfold Sim.upd in H. simpl in H.
    destruct (checkcollision _ _ _ _ _) as [nodes2 col] eqn:Ecc.
    destruct col; inversion H; subst; clear H; simpl;
      eapply (arrival_wf_parts g now i (Sim.nodes st) nodes2 tasks
                (Sim.packetsAtBS st) _ node
                (alter (myNode.upd_packet (myPacket.set_collided _)) i));
      eauto.
Qed.

(** ** Every block keeps the invariant *)

Ltac plain_tac := unfold plain_pc; repeat split; discriminate.

Ltac stutter_tac :=
  eapply wf_stutter; [eassumption | eassumption | eassumption | plain_tac].

Ltac local_tac :=
  first
    [ stutter_tac
    | eapply wf_local;
      [ eassumption | eassumption | eassumption
      | reflexivity | reflexivity | reflexivity | own_tac ] ].

Ltac local_block H :=
  split_step H; inversion H; subst; clear H; local_tac.

Lemma wf_after_arrival (g : G.settings) (i : nat) (st st1 st2 : Sim.t)
    (node node1 : myNode.t) (c c' : pc) :
  wf g st ->
  Sim.nodes st !! i = Some node -> Sim.tasks st !! i = Some c ->
  own_ok g c c' node node1 ->
  (forall tasks,
     wf_parts g (Sim.nodes (Sim.put i node1 st)) tasks
       (Sim.packetsAtBS (Sim.put i node1 st)) ->
     wf_parts g (Sim.nodes st1) tasks (Sim.packetsAtBS st1)) ->
  Sim.tasks st1 = Sim.tasks st ->
  Sim.nodes st2 = Sim.nodes st1 -> Sim.tasks st2 = Sim.tasks st1 ->
  Sim.packetsAtBS st2 = Sim.packetsAtBS st1 ->
  wf g (Sim.goto i c' st2).
Proof.
  intros Hwf Ei Ec Hown Harr Et En2 Et2 Ep2.
  unfold wf, Sim.goto. simpl. rewrite En2, Et2, Ep2, Et.
  apply Harr. unfold Sim.put. simpl.
  eapply wf_parts_own; eauto.
Qed.

Lemma wf_after_leave (g : G.settings) (i : nat) (st st0 : Sim.t)
    (node : myNode.t) (c c' : pc) (f : myNode.t -> myNode.t) :
  wf g st ->
  Sim.nodes st !! i = Some node -> Sim.tasks st !! i = Some c ->
  Sim.nodes st0 = Sim.nodes st -> Sim.tasks st0 = Sim.tasks st ->
  Sim.packetsAtBS st0 = Sim.packetsAtBS st ->
  (forall n, own_ok g c c' n (f n)) ->
  wf g (Sim.goto i c' (Sim.upd i f (leave i st0))).
Proof.
  intros Hwf Ei Ec En Et Ep Hown.
  assert (W : wf_parts g (Sim.nodes (leave i st0)) (Sim.tasks st)
                (Sim.packetsAtBS (leave i st0))).
  { apply leave_wf_parts. rewrite En, Ep. exact Hwf. }
  assert (El : exists n, Sim.nodes (leave i st0) !! i = Some n).
  { assert (E : Sim.nodes (leave i st0)
                = alter (fun node =>
                    myNode.upd_packet (myPacket.set_lost false)
                      (myNode.upd_packet (myPacket.set_processed false)
                         (myNode.upd_packet (myPacket.set_collided false) node)))
                    i (Sim.nodes st0)).
    { unfold leave. destruct (py_in i (Sim.packetsAtBS st0)); reflexivity. }
    rewrite E, list_lookup_alter_eq, En, Ei. eauto. }
  destruct El as [n El].
  unfold wf.
  change (Sim.nodes (Sim.goto i c' (Sim.upd i f (leave i st0))))
    with (alter f i (Sim.nodes (leave i st0))).
  change (Sim.tasks (Sim.goto i c' (Sim.upd i f (leave i st0))))
    with (<[i := c']> (Sim.tasks (leave i st0))).
  change (Sim.packetsAtBS (Sim.goto i c' (Sim.upd i f (leave i st0))))
    with (Sim.packetsAtBS (leave i st0)).
  rewrite leave_tasks, Et, (alter_insert _ _ _ _ El).
  eapply wf_parts_own; eauto.
Qed.

Lemma own_ok_id (g : G.settings) (c c' : pc) (n : myNode.t) :
  plain_pc c' -> own_ok g c c' n n.
Proof.
  intros A. split; try reflexivity. intros W. eapply node_wf_pc; eauto.
Qed.

Lemma count_data_parts (p : myPacket.t) (st : Sim.t) :
  Sim.nodes (count_data p st) = Sim.nodes st
  /\ Sim.tasks (count_data p st) = Sim.tasks st
  /\ Sim.packetsAtBS (count_data p st) = Sim.packetsAtBS st
  /\ Sim.channel_busy_rts (count_data p st) = Sim.channel_busy_rts st
  /\ Sim.channel_busy_data (count_data p st) = Sim.channel_busy_data st.
Proof.
  unfold count_data.
  destruct (myPacket.lost p), (myPacket.collided p), (myPacket.processed p);
    simpl; auto.
Qed.

Lemma count_rts_parts (p : myPacket.t) (st : Sim.t) :
  Sim.nodes (count_rts p st) = Sim.nodes st
  /\ Sim.tasks (count_rts p st) = Sim.tasks st
  /\ Sim.packetsAtBS (count_rts p st) = Sim.packetsAtBS st
  /\ Sim.channel_busy_rts (count_rts p st) = Sim.channel_busy_rts st
  /\ Sim.channel_busy_data (count_rts p st) = Sim.channel_busy_data st.
Proof.
  unfold count_rts.
  destruct (myPacket.lost p), (myPacket.collided p), (myPacket.processed p);
    simpl; auto.
Qed.

Lemma wf_after_leave_id (g : G.settings) (i : nat) (st st0 : Sim.t)
    (node : myNode.t) (c c' : pc) :
  wf g st ->
  Sim.nodes st !! i = Some node -> Sim.tasks st !! i = Some c ->
  Sim.nodes st0 = Sim.nodes st -> Sim.tasks st0 = Sim.tasks st ->
  Sim.packetsAtBS st0 = Sim.packetsAtBS st ->
  plain_pc c' ->
  wf g (Sim.goto i c' (leave i st0)).
Proof.
  intros Hwf Ei Ec En Et Ep A.
  pose proof (wf_after_leave g i st st0 node c c' (fun n => n)
                Hwf Ei Ec En Et Ep) as W.
  unfold wf in *.
  change (Sim.nodes (Sim.goto i c' (Sim.upd i (fun n => n) (leave i st0))))
    with (alter (fun n : myNode.t => n) i (Sim.nodes (leave i st0))) in W.
  rewrite list_alter_id in W by reflexivity.
  apply W. intros n. apply own_ok_id; assumption.
Qed.

(** The node that [nav_after_data] returns does not depend on whether a
    wait is left. *)
Lemma nav_after_data_fst (g : G.settings) (d : draws) (now : Q)
    (count : myNode.t -> myNode.t) (node : myNode.t) :
  (nav_after_data g d now count node).1
  = myNode.set_ca_state start_nav
      (count
         (myNode.set_receive_data false
            (myNode.set_total_listen_time
               (myNode.total_listen_time node
                + (myNode.receive_data_time node
                   - myNode.ca_listen_start_time node))%Q node))).
Proof. unfold nav_after_data. destruct (Qle_bool _ _); reflexivity. Qed.

Section Blocks.

Variable g : G.settings.
Variable d : draws.
Variable now : Q.
Hypothesis Hok : settings_ok g.

Variables (i : nat) (node : myNode.t) (st st' : Sim.t) (w : option Q).
Hypothesis Hwf : wf g st.
Hypothesis Ei : Sim.nodes st !! i = Some node.

Lemma block_schedule_tx_wf :
  G.CA g = true ->
  Sim.tasks st !! i = Some pc_loop ->
  block_schedule_tx g d now i node st = Some (st', w) -> wf g st'.
Proof.
  destruct Hok as [S1 S2 S3]. intros HCA Ec H.
  unfold block_schedule_tx, next in H. local_block H.
Qed.

Lemma block_nc_schedule_wf :
  G.CA g = false ->
  Sim.tasks st !! i = Some pc_loop ->
  block_nc_schedule g d now i node st = Some (st', w) -> wf g st'.
Proof.
  destruct Hok as [S1 S2 S3]. intros HCA Ec H.
  unfold block_nc_schedule, next in H. local_block H.
Qed.

Lemma block_want_transmit_wf :
  Sim.tasks st !! i = Some pc_want_transmit ->
  block_want_transmit g d now i node st = Some (st', w) -> wf g st'.
Proof.
  destruct Hok as [S1 S2 S3]. intros Ec H.
  unfold block_want_transmit, cca_want_transmit, draw_backoff, grow_BE,
    count_transmit, next in H.
  local_block H.
Qed.

Lemma block_start_CA_wf :
  Sim.tasks st !! i = Some pc_start_CA ->
  block_start_CA g d now i node st = Some (st', w) -> wf g st'.
Proof.
  destruct Hok as [S1 S2 S3]. intros Ec H.
  unfold block_start_CA, start_listen, next in H. local_block H.
Qed.

Lemma block_listen1_wf :
  Sim.tasks st !! i = Some pc_listen1 ->
  block_listen1 g d now i node st = Some (st', w) -> wf g st'.
Proof.
  destruct Hok as [S1 S2 S3]. intros Ec H.
  unfold block_listen1, next in H.
  destruct (nav_after_data _ _ _ _ node) as [node1 w1] eqn:E.
  apply (f_equal fst) in E. rewrite nav_after_data_fst in E.
  simpl in E. subst node1.
  local_block H.
Qed.

Lemma block_listen1_rts_wf :
  Sim.tasks st !! i = Some pc_listen1_rts ->
  block_listen1_rts g d now i node st = Some (st', w) -> wf g st'.
Proof.
  destruct Hok as [S1 S2 S3]. intros Ec H.
  unfold block_listen1_rts, nav_after_rts, next in H. local_block H.
Qed.

Lemma block_phase2_backoff_wf :
  Sim.tasks st !! i = Some pc_phase2_backoff ->
  block_phase2_backoff g i node st = Some (st', w) -> wf g st'.
Proof.
  destruct Hok as [S1 S2 S3]. intros Ec H.
  unfold block_phase2_backoff, next in H. local_block H.
Qed.

Lemma block_phase2_rts_wf :
  Sim.tasks st !! i = Some pc_phase2_rts ->
  block_phase2_rts g d now i node st = Some (st', w) -> wf g st'.
Proof.
  destruct Hok as [S1 S2 S3]. intros Ec H.
  unfold block_phase2_rts, start_listen, next in H. local_block H.
Qed.

Lemma block_listen2_wf :
  Sim.tasks st !! i = Some pc_listen2 ->
  block_listen2 g d now i node st = Some (st', w) -> wf g st'.
Proof.
  destruct Hok as [S1 S2 S3]. intros Ec H.
  unfold block_listen2, next in H.
  destruct (nav_after_data _ _ _ _ node) as [node1 w1] eqn:E.
  apply (f_equal fst) in E. rewrite nav_after_data_fst in E.
  simpl in E. subst node1.
  local_block H.
Qed.

Lemma block_listen2_rts_wf :
  Sim.tasks st !! i = Some pc_listen2_rts ->
  block_listen2_rts g d now i node st = Some (st', w) -> wf g st'.
Proof.
  destruct Hok as [S1 S2 S3]. intros Ec H.
  unfold block_listen2_rts, nav_after_rts, next in H. local_block H.
Qed.

Lemma block_phase3_backoff_wf :
  Sim.tasks st !! i = Some pc_phase3_backoff ->
  block_phase3_backoff g i node st = Some (st', w) -> wf g st'.
Proof.
  destruct Hok as [S1 S2 S3]. intros Ec H.
  unfold block_phase3_backoff, next in H. local_block H.
Qed.

Lemma block_start_nav_wf :
  Sim.tasks st !! i = Some pc_start_nav ->
  block_start_nav g i node st = Some (st', w) -> wf g st'.
Proof.
  destruct Hok as [S1 S2 S3]. intros Ec H.
  unfold block_start_nav, next in H. local_block H.
Qed.

Lemma block_nc_wait_wf :
  Sim.tasks st !! i = Some pc_nc_wait ->
  block_nc_wait now i node st = Some (st', w) -> wf g st'.
Proof.
  destruct Hok as [S1 S2 S3]. intros Ec H.
  unfold block_nc_wait, count_transmit, next in H. local_block H.
Qed.

Lemma block_end_wf :
  Sim.tasks st !! i = Some pc_end ->
  block_end g now i st = Some (st', w) -> wf g st'.
Proof.
  intros Ec H. unfold block_end, next in H.
  split_step H; inversion H; subst; clear H.
  - eapply (wf_stutter g (Sim.set_endSim now st)); eauto; plain_tac.
  - stutter_tac.
Qed.

(** Closes the goal of a branch that puts a packet on the air: [H] is the
    equation of the step, with the arrival still a bind. *)
Ltac arrival_tac H arr_wf arr_tasks :=
  match type of H with
  | context [?arr ?g ?now ?i (Sim.put ?i ?node1 ?st)] =>
      let st1 := fresh "st1" in
      let Ea := fresh "Ea" in
      destruct (arr g now i (Sim.put i node1 st)) as [st1 |] eqn:Ea;
      [| discriminate H];
      simpl in H; inversion H; subst; clear H;
      eapply (wf_after_arrival _ _ _ st1 _ _ node1);
      [ eassumption | eassumption | eassumption
      | own_tac
      | intros tasks0 Hparts; eapply arr_wf; [exact Ea | exact Hparts]
      | rewrite (arr_tasks _ _ _ _ _ Ea); reflexivity
      | reflexivity | reflexivity | reflexivity ]
  end.

Lemma block_rts_loop_wf :
  Sim.tasks st !! i = Some pc_rts_loop ->
  block_rts_loop g d now i node st = Some (st', w) -> wf g st'.
Proof.
  destruct Hok as [S1 S2 S3]. intros Ec H.
  unfold block_rts_loop, send_rts, cca_rts, draw_backoff, grow_BE, next in H.
  split_ifs H;
    first [ arrival_tac H arrive_wf_parts arrive_tasks
          | inversion H; subst; clear H; local_tac ].
Qed.

Lemma block_phase3_transmit_wf :
  Sim.tasks st !! i = Some pc_phase3_transmit ->
  block_phase3_transmit g d now i node st = Some (st', w) -> wf g st'.
Proof.
  destruct Hok as [S1 S2 S3]. intros Ec H.
  unfold block_phase3_transmit, cca_phase3, next in H.
  split_ifs H;
    first [ arrival_tac H arrive_wf_parts arrive_tasks
          | inversion H; subst; clear H; local_tac ].
Qed.

Lemma block_nc_loop_wf :
  Sim.tasks st !! i = Some pc_nc_loop ->
  block_nc_loop g d now i node st = Some (st', w) -> wf g st'.
Proof.
  destruct Hok as [S1 S2 S3]. intros Ec H.
  unfold block_nc_loop, nc_after_loop, cca_noCA, draw_backoff, grow_BE, next
    in H.
  split_ifs H;
    first [ arrival_tac H arrive_noCA_wf_parts arrive_noCA_tasks
          | inversion H; subst; clear H; local_tac ].
Qed.

Lemma block_rts_sent_wf :
  Sim.tasks st !! i = Some pc_rts_sent ->
  block_rts_sent i node st = Some (st', w) -> wf g st'.
Proof.
  intros Ec H. unfold block_rts_sent, next in H.
  inversion H; subst; clear H.
  pose proof (count_rts_parts (myNode.packet node)
                (Sim.set_channel_busy_rts false st)) as (P1 & P2 & P3 & _).
  eapply wf_after_leave_id; eauto; plain_tac.
Qed.

Lemma block_data_sent_wf :
  Sim.tasks st !! i = Some pc_data_sent ->
  block_data_sent g i node st = Some (st', w) -> wf g st'.
Proof.
  destruct Hok as [S1 S2 S3]. intros Ec H. unfold block_data_sent, next in H.
  inversion H; subst; clear H.
  pose proof (count_data_parts (myNode.packet node)
                (Sim.set_channel_busy_data false st)) as (P1 & P2 & P3 & _).
  eapply wf_after_leave; eauto.
  intros n. own_tac.
Qed.

Lemma block_nc_sent_wf :
  Sim.tasks st !! i = Some pc_nc_sent ->
  block_nc_sent g i node st = Some (st', w) -> wf g st'.
Proof.
  destruct Hok as [S1 S2 S3]. intros Ec H. unfold block_nc_sent, next in H.
  inversion H; subst; clear H.
  pose proof (count_data_parts (myNode.packet node)
                (Sim.set_channel_busy_data false st)) as (P1 & P2 & P3 & _).
  eapply wf_after_leave; eauto.
  intros n. own_tac.
Qed.

End Blocks.

(** ** The invariant holds along every run *)

Lemma step_wf (g : G.settings) (d : draws) (now : Q) (i : nat)
    (st st' : Sim.t) (w : option Q) :
  settings_ok g -> wf g st ->
  step g d now i st = Some (st', w) -> wf g st'.
Proof.
  intros Hok Hwf H. unfold step in H.
  destruct (Sim.nodes st !! i) as [node |] eqn:Ei; [| discriminate].
  destruct (Sim.tasks st !! i) as [c |] eqn:Ec; [| discriminate].
  simpl in H. destruct c.
  - destruct (G.CA g) eqn:ECA.
    + eapply block_schedule_tx_wf; eauto.
    + eapply block_nc_schedule_wf; eauto.
  - eapply block_want_transmit_wf; eauto.
  - eapply block_start_CA_wf; eauto.
  - eapply block_listen1_wf; eauto.
  - eapply block_listen1_rts_wf; eauto.
  - eapply block_phase2_backoff_wf; eauto.
  - eapply block_rts_loop_wf; eauto.
  - eapply block_rts_sent_wf; eauto.
  - eapply block_phase2_rts_wf; eauto.
  - eapply block_listen2_wf; eauto.
  - eapply block_listen2_rts_wf; eauto.
  - eapply block_phase3_backoff_wf; eauto.
  - eapply block_phase3_transmit_wf; eauto.
  - eapply block_data_sent_wf; eauto.
  - eapply block_start_nav_wf; eauto.
  - eapply block_end_wf; eauto.
  - eapply block_nc_wait_wf; eauto.
  - eapply block_nc_loop_wf; eauto.
  - eapply block_nc_sent_wf; eauto.
  - discriminate.
Qed.

Lemma start_wf (g : G.settings) (avgSendTime distribType packetLength : Z)
    (rs : list myPacket.radio) :
  settings_ok g -> wf g (start g avgSendTime distribType packetLength rs).
Proof.
  intros [S1 S2 S3]. unfold wf, start. simpl. split.
  - intros j n Ej. rewrite list_lookup_imap in Ej.
    destruct (rs !! j); [| discriminate]. injection Ej as <-. auto.
  - intros k n c Ek Ec. rewrite list_lookup_imap in Ek.
    destruct (rs !! k); [| discriminate]. injection Ek as <-.
    apply lookup_replicate_1 in Ec as [-> _].
    split; unfold hint_wf, myNode.listening; simpl;
      try lia;
      try (intros; discriminate);
      try (intros h; destruct (Z.gtb_spec (G.n_retry_rts g) 0); lia);
      try (split; [intros [? | ?]; discriminate | intros [? ?]; discriminate]);
      try (intros [? | ?]; discriminate);
      try (intros [? | [? | ?]]; discriminate);
      try (intros; congruence).
  - change (0 <= G.maxBSReceives g + 1). lia.
  - rewrite length_replicate, length_imap. reflexivity.
Qed.

Theorem reachable_wf (g : G.settings) (s0 st : Sim.t) :
  settings_ok g -> is_start g s0 -> reachable g s0 st -> wf g st.
Proof.
  intros Hok (a & b & c & rs & ->) Hr.
  induction Hr as [| st d now i st' w _ IH Hstep].
  - apply start_wf, Hok.
  - eapply step_wf; eauto.
Qed.

Lemma wf_node (g : G.settings) (st : Sim.t) (k : nat) (n : myNode.t) :
  wf g st -> Sim.nodes st !! k = Some n ->
  exists c, Sim.tasks st !! k = Some c /\ node_wf g c n.
Proof.
  intros [Hids Hnodes Hslots Hlen] Ek.
  destruct (Sim.tasks st !! k) as [c |] eqn:Ec.
  - exists c. split; [reflexivity | eauto].
  - apply lookup_ge_None in Ec. apply lookup_lt_Some in Ek. lia.
Qed.

(** ** Runs of the executable model *)

Lemma run_reachable (g : G.settings) (s0 : Sim.t) (sched : schedule) :
  forall st st' : Sim.t,
    reachable g s0 st -> run g sched st = Some st' -> reachable g s0 st'.
Proof.
  induction sched as [| [[d now] i] rest IH]; intros st st' Hr H.
  - injection H as <-. exact Hr.
  - simpl in H.
    destruct (step g d now i st) as [[st1 w] |] eqn:E; [| discriminate].
    eapply IH; [| exact H]. eapply reach_step; eauto.
Qed.

Lemma run_from_start (g : G.settings) (s0 st : Sim.t) (sched : schedule) :
  run g sched s0 = Some st -> reachable g s0 st.
Proof. apply run_reachable, reach_start. Qed.

Lemma source_ok : settings_ok G.source.
Proof. split; vm_compute; discriminate. Qed.

Lemma is_start_start (g : G.settings) (a b c : Z) (rs : list myPacket.radio) :
  is_start g (start g a b c rs).
Proof. exists a, b, c, rs. reflexivity. Qed.

(** ** The retry counters *)

(** C4.  At every instant of a run, for every node: [n_retry] lies between
    0 and the configured maximum; when the configured limit of RTS retries is
    positive, [n_retry_rts] lies between 0 and that limit; when it is
    negative (or zero), [n_retry_rts] is 1, the value [__init__] gives it,
    in every state: no step lowers it. *)
Theorem retry_counters_in_range (g : G.settings) (s0 st : Sim.t) (k : nat)
    (n : myNode.t) :
  settings_ok g -> is_start g s0 -> reachable g s0 st ->
  Sim.nodes st !! k = Some n ->
  0 <= myNode.n_retry n <= G.n_retry g
  /\ (0 < G.n_retry_rts g ->
      0 <= myNode.n_retry_rts n <= G.n_retry_rts g)
  /\ (G.n_retry_rts g <= 0 -> myNode.n_retry_rts n = 1).
Proof.
  intros Hok Hs Hr Ek.
  destruct (wf_node g st k n (reachable_wf g s0 st Hok Hs Hr) Ek)
    as (c & _ & [W1 _ W3 W4 _ _ _ _ _ _]).
  auto.
Qed.

(** Node 1 of the two-node run, after one busy assessment: 39 of its 40
    retries are left. *)
Lemma retry_counters_in_range_witness :
  exists st n,
    run G.source busy_schedule two_nodes = Some st
    /\ Sim.nodes st !! 1%nat = Some n
    /\ myNode.n_retry n = 39
    /\ 0 <= myNode.n_retry n <= G.n_retry G.source
    /\ (0 < G.n_retry_rts G.source ->
        0 <= myNode.n_retry_rts n <= G.n_retry_rts G.source)
    /\ (G.n_retry_rts G.source <= 0 -> myNode.n_retry_rts n = 1).
Proof.
  destruct (run G.source busy_schedule two_nodes) as [st |] eqn:E;
    [| vm_compute in E; discriminate].
  destruct (Sim.nodes st !! 1%nat) as [n |] eqn:En;
    [| vm_compute in E; injection E as <-; vm_compute in En; discriminate].
  exists st, n. split; [reflexivity |]. split; [exact En |].
  split.
  - vm_compute in E. injection E as <-. vm_compute in En.
    injection En as <-. reflexivity.
  - apply (retry_counters_in_range G.source two_nodes st 1 n).
    + exact source_ok.
    + apply is_start_start.
    + apply run_from_start with (sched := busy_schedule). exact E.
    + exact En.
Defined.

(** ** The demodulator slots *)

(** The flag the handler gives the arriving packet: it is cleared only
    when the packets already on the air that hold a slot are more than
    [maxBSReceives]. *)
Lemma checkcollision_processed (g : G.settings) (now : Q)
    (packetsAtBS : list nat) (self : nat) (nodes nodes' : list myNode.t)
    (col : bool) (s s' : myNode.t) :
  checkcollision g now packetsAtBS self nodes = (nodes', col) ->
  nodes !! self = Some s -> nodes' !! self = Some s' ->
  myPacket.processed (myNode.packet s')
  = negb (count_processed nodes packetsAtBS >? G.maxBSReceives g).
Proof.
  intros H Es Es'.
  destruct (checkcollision_shape _ _ _ _ _ _ _ _ _ _ H Es Es')
    as (n & p & b & c & r & d & h & En & -> & -> & _).
  destruct (decide (self = self)) as [_ | Hne]; [| congruence].
  unfold gw_effect, hint_set, clear, touch.
  destruct c, r, d, h, (myPacket.ptype p); reflexivity.
Qed.

(** C9.  At every instant of a run the packets on the air that hold a
    demodulator slot ([processed = 1]) are at most [maxBSReceives + 1]; and
    the bound is met: under the settings of the script, where
    [maxBSReceives] is 8, a run reaches nine of them. *)
Theorem processed_slots_bound (g : G.settings) (s0 st : Sim.t) :
  settings_ok g -> is_start g s0 -> reachable g s0 st ->
  count_processed (Sim.nodes st) (Sim.packetsAtBS st) <= G.maxBSReceives g + 1
  /\ G.maxBSReceives G.source + 1 = 9
  /\ exists st9,
       reachable G.source crowded_start st9
       /\ count_processed (Sim.nodes st9) (Sim.packetsAtBS st9) = 9.
Proof.
  intros Hok Hs Hr. split; [| split].
  - apply (reachable_wf g s0 st Hok Hs Hr).
  - reflexivity.
  - destruct (run G.source crowded_schedule crowded_start) as [st9 |] eqn:E;
      [| vm_compute in E; discriminate].
    exists st9. split.
    + eapply run_from_start, E.
    + vm_compute in E. injection E as <-. reflexivity.
Qed.

(** The nine RTS of the crowded run. *)
Lemma processed_slots_bound_witness :
  exists st,
    run G.source crowded_schedule crowded_start = Some st
    /\ length (Sim.packetsAtBS st) = 9%nat
    /\ count_processed (Sim.nodes st) (Sim.packetsAtBS st)
       <= G.maxBSReceives G.source + 1.
Proof.
  destruct (run G.source crowded_schedule crowded_start) as [st |] eqn:E;
    [| vm_compute in E; discriminate].
  exists st. split; [reflexivity |]. split.
  - vm_compute in E. injection E as <-. reflexivity.
  - apply (processed_slots_bound G.source crowded_start st).
    + exact source_ok.
    + apply is_start_start.
    + apply run_from_start with (sched := crowded_schedule). exact E.
Defined.

(** ** What the gateway leaves alone

    [proj] is an attribute of a node that neither the assignments to its
    packet nor the hints touch. *)

Section Frame.

Context {A : Type}.
Variable proj : myNode.t -> A.
Hypothesis proj_packet :
  forall f n, proj (myNode.upd_packet f n) = proj n.
Hypothesis proj_gw :
  forall g now p b c r d h n, proj (gw_effect g now p b c r d h n) = proj n.

Lemma alter_frame (f : myNode.t -> myNode.t) (i : nat) (l : list myNode.t) :
  (forall n, proj (f n) = proj n) -> proj <$> alter f i l = proj <$> l.
Proof.
  intros Hf. apply list_eq. intros k. rewrite !list_lookup_fmap.
  destruct (decide (i = k)) as [<- | Hne].
  - rewrite list_lookup_alter_eq. destruct (l !! i); simpl; congruence.
  - rewrite list_lookup_alter_ne by exact Hne. reflexivity.
Qed.

Lemma checkcollision_frame (g : G.settings) (now : Q) (packetsAtBS : list nat)
    (self : nat) (nodes nodes' : list myNode.t) (col : bool) (s : myNode.t) :
  checkcollision g now packetsAtBS self nodes = (nodes', col) ->
  nodes !! self = Some s ->
  proj <$> nodes' = proj <$> nodes.
Proof.
  intros H Es. apply list_eq. intros k. rewrite !list_lookup_fmap.
  destruct (nodes' !! k) as [n' |] eqn:Ek.
  - destruct (checkcollision_shape _ _ _ _ _ _ _ _ _ _ H Es Ek)
      as (n & p & b & c & r & d & h & En & -> & _).
    rewrite En. simpl. f_equal. apply proj_gw.
  - apply lookup_ge_None in Ek.
    rewrite (checkcollision_length _ _ _ _ _ _ _ H) in Ek.
    apply lookup_ge_None in Ek. rewrite Ek. reflexivity.
Qed.

Lemma arrive_frame (g : G.settings) (now : Q) (i : nat) (st st' : Sim.t) :
  arrive g now i st = Some st' ->
  proj <$> Sim.nodes st' = proj <$> Sim.nodes st.
Proof.
  unfold arrive. intros H.
  destruct (py_in i (Sim.packetsAtBS st)); [inversion H; reflexivity |].
  destruct (Sim.nodes st !! i) as [node |] eqn:Ei; [| discriminate].
  simpl in H.
  destruct (sensitivity _ _) as [sens |]; [| discriminate]. simpl in H.
  destruct (Qltb _ _).
  - inversion H; subst; clear H. unfold Sim.upd. simpl.
    apply alter_frame. intros n. apply proj_packet.
  - unfold Sim.upd in H. simpl in H.
    destruct (checkcollision _ _ _ _ _) as [nodes2 col] eqn:Ecc.
    inversion H; subst; clear H. simpl.
    rewrite alter_frame by (intros n; apply proj_packet).
    erewrite checkcollision_frame;
      [| exact Ecc | rewrite list_lookup_alter_eq, Ei; reflexivity].
    apply alter_frame. intros n. apply proj_packet.
Qed.

Lemma arrive_noCA_frame (g : G.settings) (now : Q) (i : nat)
    (st st' : Sim.t) :
  arrive_noCA g now i st = Some st' ->
  proj <$> Sim.nodes st' = proj <$> Sim.nodes st.
Proof.
  unfold arrive_noCA. intros H.
  destruct (py_in i (Sim.packetsAtBS st)); [inversion H; reflexivity |].
  destruct (Sim.nodes st !! i) as [node |] eqn:Ei; [| discriminate].
  simpl in H.
  destruct (sensitivity _ _) as [sens |]; [| discriminate]. simpl in H.
  destruct (Qltb _ _).
  - inversion H; subst; clear H. unfold Sim.upd. simpl.
    apply alter_frame. intros n. apply proj_packet.
  - unfold Sim.upd in H. simpl in H.
    destruct (checkcollision _ _ _ _ _) as [nodes2 col] eqn:Ecc.
    destruct col; inversion H; subst; clear H; simpl;
      rewrite !alter_frame by (intros n; apply proj_packet);
      (erewrite checkcollision_frame;
         [| exact Ecc | rewrite list_lookup_alter_eq, Ei; reflexivity]);
      apply alter_frame; intros n; apply proj_packet.
Qed.

Lemma leave_frame (i : nat) (st : Sim.t) :
  proj <$> Sim.nodes (leave i st) = proj <$> Sim.nodes st.
Proof.
  unfold leave.
  destruct (py_in i (Sim.packetsAtBS st)); unfold Sim.upd; simpl;
    apply alter_frame; intros n; rewrite !proj_packet; reflexivity.
Qed.

End Frame.

(** ** The backoff exponent *)

Lemma Wbusy_BE_gw (g : G.settings) (now : Q) (p : myPacket.t)
    (b : option bool) (c r d h : bool) (n : myNode.t) :
  myNode.Wbusy_BE (gw_effect g now p b c r d h n) = myNode.Wbusy_BE n.
Proof.
  unfold gw_effect, hint_set, clear, touch.
  destruct b as [v |], c, r, d, h, (myPacket.ptype p); reflexivity.
Qed.

Lemma insert_same {A : Type} (proj : myNode.t -> A) (i : nat)
    (l : list myNode.t) (n : myNode.t) :
  l !! i = Some n -> proj <$> l = <[i := proj n]> (proj <$> l).
Proof.
  intros Ei. symmetry. apply list_insert_id.
  rewrite list_lookup_fmap, Ei. reflexivity.
Qed.

Lemma nodes_goto (i : nat) (c : pc) (st : Sim.t) :
  Sim.nodes (Sim.goto i c st) = Sim.nodes st.
Proof. reflexivity. Qed.

Lemma nodes_upd (i : nat) (f : myNode.t -> myNode.t) (st : Sim.t) :
  Sim.nodes (Sim.upd i f st) = alter f i (Sim.nodes st).
Proof. reflexivity. Qed.

(** The resume point and the node decide the branch; [be_local] closes the
    branches that assign the node of the step only. *)
Ltac be_local Ei :=
  first
    [ eexists; split;
      [ cbn; apply (insert_same myNode.Wbusy_BE _ _ _ Ei)
      | left; reflexivity ]
    | eexists; split;
      [ cbn; apply list_fmap_insert
      | bool_hyps; unfold BE_change, resets_BE; cbn;
        first [ left; reflexivity
              | right; left; split; [assumption | reflexivity]
              | right; right; split; [reflexivity | tauto] ] ] ].

Ltac be_arrival H Ei :=
  match type of H with
  | context [?arr ?g ?now ?i (Sim.put ?i ?node1 ?st)] =>
      let st1 := fresh "st1" in
      let Ea := fresh "Ea" in
      destruct (arr g now i (Sim.put i node1 st)) as [st1 |] eqn:Ea;
      [| discriminate H];
      simpl in H; inversion H; subst; clear H;
      exists (myNode.Wbusy_BE node1); split;
      [ cbn;
        lazymatch type of Ea with
        | arrive _ _ _ _ = _ =>
            rewrite (arrive_frame myNode.Wbusy_BE
                       (fun f n => eq_refl) Wbusy_BE_gw _ _ _ _ _ Ea)
        | arrive_noCA _ _ _ _ = _ =>
            rewrite (arrive_noCA_frame myNode.Wbusy_BE
                       (fun f n => eq_refl) Wbusy_BE_gw _ _ _ _ _ Ea)
        end;
        cbn; etransitivity; [apply list_fmap_insert | reflexivity]
      | left; reflexivity ]
  end.

Lemma step_Wbusy_BE (g : G.settings) (d : draws) (now : Q) (i : nat)
    (st st' : Sim.t) (w : option Q) (node : myNode.t) (c : pc) :
  step g d now i st = Some (st', w) ->
  Sim.nodes st !! i = Some node -> Sim.tasks st !! i = Some c ->
  exists x,
    myNode.Wbusy_BE <$> Sim.nodes st'
    = <[i := x]> (myNode.Wbusy_BE <$> Sim.nodes st)
    /\ BE_change g c node x.
Proof.
  intros H Ei Ec. unfold step in H. rewrite Ei, Ec in H. simpl in H.
  destruct c.
  - unfold block_schedule_tx, block_nc_schedule, next in H.
    split_step H; inversion H; subst; clear H; be_local Ei.
  - unfold block_want_transmit, cca_want_transmit, draw_backoff, grow_BE,
      count_transmit, next in H.
    split_step H; inversion H; subst; clear H; be_local Ei.
  - unfold block_start_CA, start_listen, next in H.
    split_step H; inversion H; subst; clear H; be_local Ei.
  - unfold block_listen1, next in H.
    destruct (nav_after_data _ _ _ _ node) as [node1 w1] eqn:E.
    apply (f_equal fst) in E. rewrite nav_after_data_fst in E.
    simpl in E. subst node1.
    split_step H; inversion H; subst; clear H; be_local Ei.
  - unfold block_listen1_rts, nav_after_rts, next in H.
    split_step H; inversion H; subst; clear H; be_local Ei.
  - unfold block_phase2_backoff, next in H.
    split_step H; inversion H; subst; clear H; be_local Ei.
  - unfold block_rts_loop, send_rts, cca_rts, draw_backoff, grow_BE, next in H.
    split_ifs H;
      first [ be_arrival H Ei
            | inversion H; subst; clear H; be_local Ei ].
  - unfold block_rts_sent, next in H. inversion H; subst; clear H.
    exists (myNode.Wbusy_BE node). split; [| left; reflexivity].
    rewrite nodes_goto.
    rewrite (leave_frame myNode.Wbusy_BE (fun f n => eq_refl)).
    rewrite (proj1 (count_rts_parts _ _)). cbn.
    apply (insert_same myNode.Wbusy_BE _ _ _ Ei).
  - unfold block_phase2_rts, start_listen, next in H.
    split_step H; inversion H; subst; clear H; be_local Ei.
  - unfold block_listen2, next in H.
    destruct (nav_after_data _ _ _ _ node) as [node1 w1] eqn:E.
    apply (f_equal fst) in E. rewrite nav_after_data_fst in E.
    simpl in E. subst node1.
    split_step H; inversion H; subst; clear H; be_local Ei.
  - unfold block_listen2_rts, nav_after_rts, next in H.
    split_step H; inversion H; subst; clear H; be_local Ei.
  - unfold block_phase3_backoff, next in H.
    split_step H; inversion H; subst; clear H; be_local Ei.
  - unfold block_phase3_transmit, cca_phase3, next in H.
    split_ifs H;
      first [ be_arrival H Ei
            | inversion H; subst; clear H; be_local Ei ].
  - unfold block_data_sent, next in H. inversion H; subst; clear H.
    exists (myNode.Wbusy_BE node). split; [| left; reflexivity].
    rewrite nodes_goto, nodes_upd, alter_frame by reflexivity.
    rewrite (leave_frame myNode.Wbusy_BE (fun f n => eq_refl)).
    rewrite (proj1 (count_data_parts _ _)). cbn.
    apply (insert_same myNode.Wbusy_BE _ _ _ Ei).
  - unfold block_start_nav, next in H.
    split_step H; inversion H; subst; clear H; be_local Ei.
  - unfold block_end, next in H.
    split_step H; inversion H; subst; clear H; be_local Ei.
  - unfold block_nc_wait, count_transmit, next in H.
    split_step H; inversion H; subst; clear H; be_local Ei.
  - unfold block_nc_loop, nc_after_loop, cca_noCA, draw_backoff, grow_BE, next
      in H.
    split_ifs H;
      first [ be_arrival H Ei
            | injection H as <- _; be_local Ei ].
  - unfold block_nc_sent, next in H. inversion H; subst; clear H.
    exists (G.Wbusy_BE g). split.
    + rewrite nodes_goto, nodes_upd.
      assert (El : exists n,
                Sim.nodes (leave i (count_data (myNode.packet node)
                  (Sim.set_channel_busy_data false st))) !! i = Some n).
      { apply lookup_lt_is_Some.
        rewrite <- (length_fmap myNode.Wbusy_BE).
        rewrite (leave_frame myNode.Wbusy_BE (fun f n => eq_refl)).
        rewrite length_fmap, (proj1 (count_data_parts _ _)). cbn.
        eapply lookup_lt_Some, Ei. }
      destruct El as [n El].
      rewrite (alter_insert _ _ _ _ El), list_fmap_insert.
      rewrite (leave_frame myNode.Wbusy_BE (fun f n => eq_refl)).
      rewrite (proj1 (count_data_parts _ _)). reflexivity.
    + right. right. split; [reflexivity |]. unfold resets_BE. tauto.
  - discriminate.
Qed.

(** C6, as amended.  At every instant of a run [Wbusy_BE] of every node lies
    between its configured initial value and [Wbusy_maxBE]; and no step
    lowers it, except that a step of the node itself may reset it to the
    initial value: when the attempt is aborted, when a transmission without
    CA ends, and, inside an attempt, when the node enters the RTS phase
    (line 1176). *)
Theorem Wbusy_BE_range_and_resets (g : G.settings) (s0 st : Sim.t) (k : nat)
    (n : myNode.t) :
  settings_ok g -> is_start g s0 -> reachable g s0 st ->
  Sim.nodes st !! k = Some n ->
  G.Wbusy_BE g <= myNode.Wbusy_BE n <= G.Wbusy_maxBE g
  /\ forall d now i st' w n',
       step g d now i st = Some (st', w) ->
       Sim.nodes st' !! k = Some n' ->
       myNode.Wbusy_BE n <= myNode.Wbusy_BE n'
       \/ (k = i /\ myNode.Wbusy_BE n' = G.Wbusy_BE g
           /\ exists c, Sim.tasks st !! i = Some c /\ resets_BE c n).
Proof.
  intros Hok Hs Hr Ek. split.
  - destruct (wf_node g st k n (reachable_wf g s0 st Hok Hs Hr) Ek)
      as (c & _ & [_ _ _ _ W5 _ _ _ _ _]).
    exact W5.
  - intros d now i st' w n' Hstep Ek'.
    assert (Hi : exists node c,
              Sim.nodes st !! i = Some node /\ Sim.tasks st !! i = Some c).
    { unfold step in Hstep.
      destruct (Sim.nodes st !! i) as [node |]; [| discriminate].
      destruct (Sim.tasks st !! i) as [c |]; [| discriminate]. eauto. }
    destruct Hi as (node & c & Ei & Ec).
    destruct (step_Wbusy_BE g d now i st st' w node c Hstep Ei Ec)
      as (x & Hx & Hch).
    assert (Hk : (myNode.Wbusy_BE <$> Sim.nodes st') !! k
                 = Some (myNode.Wbusy_BE n')).
    { rewrite list_lookup_fmap, Ek'. reflexivity. }
    rewrite Hx in Hk.
    destruct (decide (i = k)) as [<- | Hne].
    + rewrite list_lookup_insert_eq in Hk
        by (rewrite length_fmap; eapply lookup_lt_Some, Ei).
      injection Hk as <-.
      assert (node = n) by congruence. subst node.
      destruct Hch as [-> | [[_ ->] | [-> Hreset]]]; [left; lia | left; lia |].
      right. split; [reflexivity |]. split; [reflexivity |]. eauto.
    + rewrite list_lookup_insert_ne in Hk by exact Hne.
      rewrite list_lookup_fmap, Ek in Hk. injection Hk as Hk.
      left. lia.
Qed.

(** The claim without the exception fails.  In the two-node run node 1 has
    raised its exponent from 3 to 4 at a busy assessment; its next step, the
    entry of the RTS phase, sets it back to 3, while the DATA packet of the
    attempt is neither sent nor aborted. *)
Lemma Wbusy_BE_drops_within_attempt :
  exists st st' w n n',
    run G.source busy_schedule two_nodes = Some st
    /\ step G.source deaf 1601.408%Q 1%nat st = Some (st', w)
    /\ Sim.nodes st !! 1%nat = Some n
    /\ Sim.nodes st' !! 1%nat = Some n'
    /\ G.Wbusy_exp_backoff G.source = true
    /\ Sim.tasks st !! 1%nat = Some pc_phase2_backoff
    /\ myNode.n_data_sent n' = 0 /\ myNode.n_aborted n' = 0
    /\ myNode.Wbusy_BE n = 4 /\ myNode.Wbusy_BE n' = 3.
Proof.
  eexists _, _, _, _, _.
  split; [vm_compute; reflexivity |].
  split; [vm_compute; reflexivity |].
  split; [vm_compute; reflexivity |].
  split; [vm_compute; reflexivity |].
  repeat split; reflexivity.
Qed.

Lemma Wbusy_BE_range_and_resets_witness :
  exists st n,
    run G.source busy_schedule two_nodes = Some st
    /\ Sim.nodes st !! 1%nat = Some n
    /\ G.Wbusy_BE G.source <= myNode.Wbusy_BE n <= G.Wbusy_maxBE G.source
    /\ forall d now i st' w n',
         step G.source d now i st = Some (st', w) ->
         Sim.nodes st' !! 1%nat = Some n' ->
         myNode.Wbusy_BE n <= myNode.Wbusy_BE n'
         \/ (1%nat = i /\ myNode.Wbusy_BE n' = G.Wbusy_BE G.source
             /\ exists c, Sim.tasks st !! i = Some c /\ resets_BE c n).
Proof.
  destruct (run G.source busy_schedule two_nodes) as [st |] eqn:E;
    [| vm_compute in E; discriminate].
  destruct (Sim.nodes st !! 1%nat) as [n |] eqn:En;
    [| vm_compute in E; injection E as <-; vm_compute in En; discriminate].
  exists st, n. split; [reflexivity |]. split; [exact En |].
  apply (Wbusy_BE_range_and_resets G.source two_nodes st 1 n).
  - exact source_ok.
  - apply is_start_start.
  - apply run_from_start with (sched := busy_schedule). exact E.
  - exact En.
Defined.

(** ** The two channel flags *)

Lemma py_remove_elem_of (i j : nat) (l : list nat) :
  j <> i -> j ∈ l -> j ∈ py_remove i l.
Proof.
  intros Hne. induction l as [| a l IH]; intros Hin; [exact Hin |].
  simpl. destruct (Nat.eqb_spec i a) as [-> | Hia].
  - apply elem_of_cons in Hin as [-> | Hin]; [congruence | exact Hin].
  - apply elem_of_cons in Hin as [-> | Hin]; apply elem_of_cons; auto.
Qed.

Lemma arrive_channel (g : G.settings) (now : Q) (i : nat) (st st' : Sim.t) :
  arrive g now i st = Some st' ->
  Sim.channel_busy_data st' = Sim.channel_busy_data st
  /\ Sim.channel_busy_rts st' = Sim.channel_busy_rts st
  /\ forall j, j ∈ Sim.packetsAtBS st -> j ∈ Sim.packetsAtBS st'.
Proof.
  unfold arrive. intros H.
  destruct (py_in i (Sim.packetsAtBS st)); [inversion H; auto |].
  destruct (Sim.nodes st !! i) as [node |]; [| discriminate]. simpl in H.
  destruct (sensitivity _ _) as [sens |]; [| discriminate]. simpl in H.
  destruct (Qltb _ _); [inversion H; auto |].
  destruct (checkcollision _ _ _ _ _) as [nodes col].
  inversion H; subst; clear H. simpl.
  split; [reflexivity |]. split; [reflexivity |].
  intros j Hj. apply elem_of_app. left. exact Hj.
Qed.

Lemma arrive_noCA_channel (g : G.settings) (now : Q) (i : nat)
    (st st' : Sim.t) :
  arrive_noCA g now i st = Some st' ->
  Sim.channel_busy_data st' = Sim.channel_busy_data st
  /\ Sim.channel_busy_rts st' = Sim.channel_busy_rts st
  /\ forall j, j ∈ Sim.packetsAtBS st -> j ∈ Sim.packetsAtBS st'.
Proof.
  unfold arrive_noCA. intros H.
  destruct (py_in i (Sim.packetsAtBS st)); [inversion H; auto |].
  destruct (Sim.nodes st !! i) as [node |]; [| discriminate]. simpl in H.
  destruct (sensitivity _ _) as [sens |]; [| discriminate]. simpl in H.
  destruct (Qltb _ _); [inversion H; auto |].
  destruct (checkcollision _ _ _ _ _) as [nodes col].
  destruct col; inversion H; subst; clear H; simpl;
    (split; [reflexivity |]; split; [reflexivity |];
     intros j Hj; apply elem_of_app; left; exact Hj).
Qed.

Lemma leave_channel (i : nat) (st : Sim.t) :
  Sim.channel_busy_data (leave i st) = Sim.channel_busy_data st
  /\ Sim.channel_busy_rts (leave i st) = Sim.channel_busy_rts st
  /\ forall j, j <> i -> j ∈ Sim.packetsAtBS st ->
       j ∈ Sim.packetsAtBS (leave i st).
Proof.
  unfold leave. destruct (py_in i (Sim.packetsAtBS st)); simpl.
  - split; [reflexivity |]. split; [reflexivity |].
    intros j Hne Hj. apply py_remove_elem_of; assumption.
  - auto.
Qed.

Ltac ch_local :=
  eexists; split; [reflexivity |];
  split; [cbn; first [reflexivity | assumption] |];
  split; [cbn; first [reflexivity | assumption] |];
  split; [cbn; intros; first [reflexivity | discriminate] |];
  intros ? ? ?; assumption.

Ltac ch_arrival H :=
  match type of H with
  | context [?arr ?g ?now ?i (Sim.put ?i ?node1 ?st)] =>
      let st1 := fresh "st1" in
      let Ea := fresh "Ea" in
      destruct (arr g now i (Sim.put i node1 st)) as [st1 |] eqn:Ea;
      [| discriminate H];
      simpl in H; injection H as <- _;
      let T := fresh "T" in
      let A1 := fresh "A" in
      let A2 := fresh "A" in
      let A3 := fresh "A" in
      lazymatch type of Ea with
      | arrive _ _ _ _ = _ =>
          pose proof (arrive_tasks _ _ _ _ _ Ea) as T;
          pose proof (arrive_channel _ _ _ _ _ Ea) as (A1 & A2 & A3)
      | arrive_noCA _ _ _ _ = _ =>
          pose proof (arrive_noCA_tasks _ _ _ _ _ Ea) as T;
          pose proof (arrive_noCA_channel _ _ _ _ _ Ea) as (A1 & A2 & A3)
      end;
      eexists; split; [cbn; rewrite T; reflexivity |];
      split; [cbn; rewrite ?A1; cbn; first [reflexivity | assumption] |];
      split; [cbn; rewrite ?A2; cbn; first [reflexivity | assumption] |];
      split; [cbn; intros; first [reflexivity | discriminate] |];
      intros ? ? ?; apply A3; assumption
  end.

(** What a step does to the resume points, to the two flags and to the
    packets of the other nodes at the gateway: [channel_busy_data] is
    assigned True exactly by the steps that enter the airtime wait of a DATA
    packet and False exactly by the steps that leave one, and likewise
    [channel_busy_rts] around the airtime wait of an RTS. *)
Lemma step_channel (g : G.settings) (d : draws) (now : Q) (i : nat)
    (st st' : Sim.t) (w : option Q) (c : pc) :
  step g d now i st = Some (st', w) ->
  Sim.tasks st !! i = Some c ->
  exists c',
    Sim.tasks st' = <[i := c']> (Sim.tasks st)
    /\ Sim.channel_busy_data st'
       = (if is_data_wait c' then true
          else if is_data_wait c then false else Sim.channel_busy_data st)
    /\ Sim.channel_busy_rts st'
       = (if is_rts_wait c' then true
          else if is_rts_wait c then false else Sim.channel_busy_rts st)
    /\ (is_data_wait c || is_rts_wait c = true ->
        is_data_wait c' || is_rts_wait c' = false)
    /\ forall j, j <> i -> j ∈ Sim.packetsAtBS st -> j ∈ Sim.packetsAtBS st'.
Proof.
  intros H Ec. unfold step in H. rewrite Ec in H.
  destruct (Sim.nodes st !! i) as [node |] eqn:Ei; [| discriminate].
  simpl in H. destruct c.
  - unfold block_schedule_tx, block_nc_schedule, next in H.
    split_ifs H; injection H as <- _; ch_local.
  - unfold block_want_transmit, cca_want_transmit, draw_backoff, grow_BE,
      count_transmit, next in H.
    split_ifs H; injection H as <- _; ch_local.
  - unfold block_start_CA, start_listen, next in H.
    split_ifs H; injection H as <- _; ch_local.
  - unfold block_listen1, next in H.
    destruct (nav_after_data _ _ _ _ node) as [node1 w1].
    split_ifs H; injection H as <- _; ch_local.
  - unfold block_listen1_rts, nav_after_rts, next in H.
    split_ifs H; injection H as <- _; ch_local.
  - unfold block_phase2_backoff, next in H.
    split_ifs H; injection H as <- _; ch_local.
  - unfold block_rts_loop, send_rts, cca_rts, draw_backoff, grow_BE, next in H.
    split_ifs H; first [ch_arrival H | injection H as <- _; ch_local].
  - unfold block_rts_sent, next in H. injection H as <- _.
    destruct (leave_channel i (count_rts (myNode.packet node)
                (Sim.set_channel_busy_rts false st))) as (L1 & L2 & L3).
    destruct (count_rts_parts (myNode.packet node)
                (Sim.set_channel_busy_rts false st))
      as (_ & P2 & P3 & P4 & P5).
    eexists. split; [| split; [| split; [| split]]].
    + change (Sim.tasks (Sim.goto i pc_phase2_rts ?x))
        with (<[i := pc_phase2_rts]> (Sim.tasks x)).
      rewrite leave_tasks, P2. reflexivity.
    + change (Sim.channel_busy_data (Sim.goto i pc_phase2_rts ?x))
        with (Sim.channel_busy_data x).
      rewrite L1, P5. reflexivity.
    + change (Sim.channel_busy_rts (Sim.goto i pc_phase2_rts ?x))
        with (Sim.channel_busy_rts x).
      rewrite L2, P4. reflexivity.
    + intros _. reflexivity.
    + intros j Hne Hj. apply L3; [exact Hne |]. rewrite P3. exact Hj.
  - unfold block_phase2_rts, start_listen, next in H.
    split_ifs H; injection H as <- _; ch_local.
  - unfold block_listen2, next in H.
    destruct (nav_after_data _ _ _ _ node) as [node1 w1].
    split_ifs H; injection H as <- _; ch_local.
  - unfold block_listen2_rts, nav_after_rts, next in H.
    split_ifs H; injection H as <- _; ch_local.
  - unfold block_phase3_backoff, next in H.
    split_ifs H; injection H as <- _; ch_local.
  - unfold block_phase3_transmit, cca_phase3, next in H.
    split_ifs H; first [ch_arrival H | injection H as <- _; ch_local].
  - unfold block_data_sent, next in H. injection H as <- _.
    destruct (leave_channel i (count_data (myNode.packet node)
                (Sim.set_channel_busy_data false st))) as (L1 & L2 & L3).
    destruct (count_data_parts (myNode.packet node)
                (Sim.set_channel_busy_data false st))
      as (_ & P2 & P3 & P4 & P5).
    eexists. split; [| split; [| split; [| split]]].
    + change (Sim.tasks (Sim.goto i pc_start_nav (Sim.upd i ?f ?x)))
        with (<[i := pc_start_nav]> (Sim.tasks x)).
      rewrite leave_tasks, P2. reflexivity.
    + change (Sim.channel_busy_data (Sim.goto i pc_start_nav (Sim.upd i ?f ?x)))
        with (Sim.channel_busy_data x).
      rewrite L1, P5. reflexivity.
    + change (Sim.channel_busy_rts (Sim.goto i pc_start_nav (Sim.upd i ?f ?x)))
        with (Sim.channel_busy_rts x).
      rewrite L2, P4. reflexivity.
    + intros _. reflexivity.
    + intros j Hne Hj. apply L3; [exact Hne |]. rewrite P3. exact Hj.
  - unfold block_start_nav, next in H.
    split_ifs H; injection H as <- _; ch_local.
  - unfold block_end, next in H.
    split_ifs H; injection H as <- _; ch_local.
  - unfold block_nc_wait, count_transmit, next in H.
    split_ifs H; injection H as <- _; ch_local.
  - unfold block_nc_loop, nc_after_loop, cca_noCA, draw_backoff, grow_BE, next
      in H.
    split_ifs H; first [ch_arrival H | injection H as <- _; ch_local].
  - unfold block_nc_sent, next in H. injection H as <- _.
    destruct (leave_channel i (count_data (myNode.packet node)
                (Sim.set_channel_busy_data false st))) as (L1 & L2 & L3).
    destruct (count_data_parts (myNode.packet node)
                (Sim.set_channel_busy_data false st))
      as (_ & P2 & P3 & P4 & P5).
    eexists. split; [| split; [| split; [| split]]].
    + change (Sim.tasks (Sim.goto i pc_end (Sim.upd i ?f ?x)))
        with (<[i := pc_end]> (Sim.tasks x)).
      rewrite leave_tasks, P2. reflexivity.
    + change (Sim.channel_busy_data (Sim.goto i pc_end (Sim.upd i ?f ?x)))
        with (Sim.channel_busy_data x).
      rewrite L1, P5. reflexivity.
    + change (Sim.channel_busy_rts (Sim.goto i pc_end (Sim.upd i ?f ?x)))
        with (Sim.channel_busy_rts x).
      rewrite L2, P4. reflexivity.
    + intros _. reflexivity.
    + intros j Hne Hj. apply L3; [exact Hne |]. rewrite P3. exact Hj.
  - discriminate.
Qed.

Lemma flags_free (g : G.settings) (st : Sim.t) :
  Sim.channel_busy_data st = false -> Sim.channel_busy_rts st = false ->
  reads_free g st.
Proof.
  intros Hd Hr d n.
  unfold cca_want_transmit, cca_rts, cca_phase3, cca_noCA.
  rewrite Hd, Hr.
  destruct (G.check_busy g), (G.check_busy_rts g); auto.
Qed.

Lemma on_air_other (i j : nat) (c' : pc) (st st' : Sim.t)
    (wait : pc -> bool) :
  Sim.tasks st' = <[i := c']> (Sim.tasks st) -> j <> i ->
  (exists c, Sim.tasks st !! j = Some c /\ wait c = true) ->
  exists c, Sim.tasks st' !! j = Some c /\ wait c = true.
Proof.
  intros -> Hne (c & Ec & Hc). exists c. split; [| exact Hc].
  rewrite list_lookup_insert_ne by congruence. exact Ec.
Qed.

Lemma on_air_self (i : nat) (c c' : pc) (st st' : Sim.t) (wait : pc -> bool) :
  Sim.tasks st' = <[i := c']> (Sim.tasks st) ->
  Sim.tasks st !! i = Some c ->
  (exists c0, Sim.tasks st' !! i = Some c0 /\ wait c0 = true) ->
  wait c' = true.
Proof.
  intros -> Ec (c0 & E0 & H0).
  rewrite list_lookup_insert_eq in E0 by (eapply lookup_lt_Some, Ec).
  congruence.
Qed.

(** X10 (the statement of claim C10).  A step after which the node of the
    step is inside the airtime wait of a DATA packet has set
    [channel_busy_data]; the step that ends the
    wait of a node clears the flag whatever the other nodes do: every other
    node that was inside the airtime wait of a DATA packet still is, its
    packet is still at the gateway if it was, and yet every assessment made
    then reads the channel free (unless [channel_busy_rts] is set).  The
    same holds of [channel_busy_rts] and the airtime wait of an RTS. *)
Theorem channel_busy_is_one_flag (g : G.settings) (d : draws) (now : Q)
    (i : nat) (st st' : Sim.t) (w : option Q) :
  step g d now i st = Some (st', w) ->
  (on_air_data st' i -> Sim.channel_busy_data st' = true)
  /\ (on_air_data st i ->
      Sim.channel_busy_data st' = false
      /\ forall j, j <> i -> on_air_data st j ->
           on_air_data st' j
           /\ (j ∈ Sim.packetsAtBS st -> j ∈ Sim.packetsAtBS st')
           /\ (Sim.channel_busy_rts st' = false -> reads_free g st'))
  /\ (on_air_rts st' i -> Sim.channel_busy_rts st' = true)
  /\ (on_air_rts st i ->
      Sim.channel_busy_rts st' = false
      /\ forall j, j <> i -> on_air_rts st j ->
           on_air_rts st' j
           /\ (j ∈ Sim.packetsAtBS st -> j ∈ Sim.packetsAtBS st')
           /\ (Sim.channel_busy_data st' = false -> reads_free g st')).
Proof.
  intros H.
  assert (Hc : exists c, Sim.tasks st !! i = Some c).
  { unfold step in H.
    destruct (Sim.nodes st !! i) as [node |]; [| discriminate].
    destruct (Sim.tasks st !! i) as [c |]; [| discriminate]. eauto. }
  destruct Hc as [c Ec].
  destruct (step_channel g d now i st st' w c H Ec)
    as (c' & Ht & Hd & Hr & Hpc & Hp).
  split; [| split; [| split]].
  - intros Ha. rewrite Hd, (on_air_self i c c' st st' is_data_wait Ht Ec Ha).
    reflexivity.
  - intros (c0 & E0 & H0).
    assert (c0 = c) by congruence. subst c0.
    assert (Hc' : is_data_wait c' = false).
    { apply orb_false_iff in Hpc as [? ?]; [assumption |].
      rewrite H0. reflexivity. }
    assert (Hf : Sim.channel_busy_data st' = false).
    { rewrite Hd, Hc', H0. reflexivity. }
    split; [exact Hf |].
    intros j Hne Hj. split; [| split].
    + eapply on_air_other; eauto.
    + apply Hp, Hne.
    + intros Hr'. apply flags_free; assumption.
  - intros Ha. rewrite Hr, (on_air_self i c c' st st' is_rts_wait Ht Ec Ha).
    reflexivity.
  - intros (c0 & E0 & H0).
    assert (c0 = c) by congruence. subst c0.
    assert (Hc' : is_rts_wait c' = false).
    { apply orb_false_iff in Hpc as [? ?]; [assumption |].
      rewrite H0. apply orb_true_r. }
    assert (Hf : Sim.channel_busy_rts st' = false).
    { rewrite Hr, Hc', H0. reflexivity. }
    split; [exact Hf |].
    intros j Hne Hj. split; [| split].
    + eapply on_air_other; eauto.
    + apply Hp, Hne.
    + intros Hd'. apply flags_free; assumption.
Qed.

(** The end of the DATA packet of node 1 at 9569.832 ms in the run with two
    overlapping transmissions: the flag is cleared while node 0 stays on
    the air until 9970.24 ms, and every assessment reads the channel free. *)
Lemma channel_busy_is_one_flag_witness :
  exists st st' w,
    run G.source overlap_schedule two_nodes = Some st
    /\ step G.source deaf 9569.832%Q 1%nat st = Some (st', w)
    /\ Sim.channel_busy_data st = true
    /\ Sim.channel_busy_data st' = false
    /\ on_air_data st' 0%nat
    /\ 0%nat ∈ Sim.packetsAtBS st'
    /\ reads_free G.source st'.
Proof.
  destruct (run G.source overlap_schedule two_nodes) as [st |] eqn:E;
    [| vm_compute in E; discriminate].
  destruct (step G.source deaf 9569.832%Q 1%nat st) as [[st' w] |] eqn:E';
    [| vm_compute in E; injection E as <-; vm_compute in E'; discriminate].
  exists st, st', w. split; [reflexivity |]. split; [exact E' |].
  destruct (channel_busy_is_one_flag G.source deaf 9569.832%Q 1%nat st st' w E')
    as (_ & Hend & _).
  assert (H1 : on_air_data st 1%nat).
  { exists pc_data_sent. vm_compute in E. injection E as <-.
    split; reflexivity. }
  assert (H0 : on_air_data st 0%nat).
  { exists pc_data_sent. vm_compute in E. injection E as <-.
    split; reflexivity. }
  destruct (Hend H1) as (Hf & Hothers).
  destruct (Hothers 0%nat ltac:(discriminate) H0) as (Ha & Hp & Hfree).
  split; [vm_compute in E; injection E as <-; reflexivity |].
  split; [exact Hf |]. split; [exact Ha |]. split.
  - apply Hp. vm_compute in E. injection E as <-.
    apply elem_of_cons. right. apply elem_of_cons. left. reflexivity.
  - apply Hfree. vm_compute in E. injection E as <-.
    vm_compute in E'. injection E' as <- _. reflexivity.
Defined.

(** * Further properties *)

(** ** The pairwise tests *)

Lemma Qltb_ge (a b : Q) : Qltb a b = false <-> (b <= a)%Q.
Proof.
  unfold Qltb. rewrite negb_false_iff. apply Qle_bool_iff.
Qed.

(** X1.  The power test (lines 532-546) names a packet as a casualty
    exactly when it is not at least 6 dB stronger than the other one: both
    packets when their levels are less than 6 dB apart, the weaker one
    otherwise. *)
Theorem powerCollision_capture (p1 p2 : myPacket.t) :
  ((powerCollision p1 p2).1 = true
   <-> (myPacket.rssi p1 - myPacket.rssi p2 < 6)%Q)
  /\ ((powerCollision p1 p2).2 = true
      <-> (myPacket.rssi p2 - myPacket.rssi p1 < 6)%Q).
Proof.
  unfold powerCollision.
  destruct (Qltb (Qabs (myPacket.rssi p1 - myPacket.rssi p2)) 6) eqn:E1.
  - apply Qltb_lt, Qabs_Qlt_condition in E1. destruct E1 as [Ea Eb].
    cbn [fst snd]. split; split; intros _; try reflexivity; lra.
  - apply Qltb_ge in E1.
    destruct (Qltb (myPacket.rssi p1 - myPacket.rssi p2) 6) eqn:E2.
    + apply Qltb_lt in E2. cbn [fst snd].
      assert (Hneg : (myPacket.rssi p1 - myPacket.rssi p2 <= -6)%Q).
      { revert E1. apply Qabs_case; intros; lra. }
      split; split; intros H; try reflexivity; try discriminate; lra.
    + apply Qltb_ge in E2. cbn [fst snd].
      split; split; intros H; try reflexivity; try discriminate; lra.
Qed.

(** X2.  The frequency test (lines 509-522) reports a collision only for
    carriers at most 120 apart and always for carriers at most 30 apart,
    whatever the bandwidths; the distance is taken in the unit of [freq],
    which the constructor gives in Hz. *)
Theorem frequencyCollision_window (p1 p2 : myPacket.t) :
  (frequencyCollision p1 p2 = true ->
   Z.abs (myPacket.freq p1 - myPacket.freq p2) <= 120)
  /\ (Z.abs (myPacket.freq p1 - myPacket.freq p2) <= 30 ->
      frequencyCollision p1 p2 = true).
Proof.
  unfold frequencyCollision.
  destruct (Z.leb_spec (Z.abs (myPacket.freq p1 - myPacket.freq p2)) 120),
    (Z.leb_spec (Z.abs (myPacket.freq p1 - myPacket.freq p2)) 60),
    (Z.leb_spec (Z.abs (myPacket.freq p1 - myPacket.freq p2)) 30);
    try lia;
    destruct (Qeq_bool (myPacket.bw p1) 500 || (myPacket.freq p2 =? 500)),
      (Qeq_bool (myPacket.bw p1) 250 || (myPacket.freq p2 =? 250));
    simpl; split; intros; first [reflexivity | discriminate | lia].
Qed.

Lemma frequencyCollision_window_witness :
  frequencyCollision narrow_packet narrow_packet = true.
Proof.
  apply (proj2 (frequencyCollision_window narrow_packet narrow_packet)).
  vm_compute. discriminate.
Defined.

(** X3.  The timing test (lines 548-571) reports a collision only while
    the packet already at the gateway is still on the air: if the arriving
    packet has a positive bandwidth and the test answers True, then [now] is
    before the end [addTime + rectime] of the other packet. *)
Theorem timingCollision_only_during (now : Q) (p1 p2 : myPacket.t) :
  (0 < myPacket.bw p1)%Q ->
  timingCollision now p1 p2 = true ->
  (now < myPacket.addTime p2 + myPacket.rectime p2)%Q.
Proof.
  intros Hbw. unfold timingCollision.
  destruct (Qltb _ _) eqn:E; [| discriminate]. intros _.
  apply Qltb_lt in E.
  assert (Hpre : (0 <= inject_Z (2 ^ myPacket.sf p1) / (1 * myPacket.bw p1)
                       * (8 - 5))%Q).
  { apply Qmult_le_0_compat; [| lra].
    apply Qmult_le_0_compat.
    - change 0%Q with (inject_Z 0). rewrite <- Zle_Qle.
      apply Z.pow_nonneg. lia.
    - apply Qinv_le_0_compat. lra. }
  lra.
Qed.

Lemma timingCollision_only_during_witness :
  (0 < myPacket.bw narrow_packet)%Q
  /\ timingCollision 0 narrow_packet narrow_packet = true
  /\ (0 < myPacket.addTime narrow_packet + myPacket.rectime narrow_packet)%Q.
Proof.
  split; [reflexivity |]. split; [reflexivity |].
  apply (timingCollision_only_during 0 narrow_packet narrow_packet);
    reflexivity.
Defined.

(** ** Airtime, in both bands *)

Lemma Qceiling_div_mono (a a' d : Z) :
  0 < d -> a <= a' ->
  Qceiling (inject_Z a / inject_Z d) <= Qceiling (inject_Z a' / inject_Z d).
Proof.
  intros Hd Ha. apply Qceiling_resp_le. unfold Qdiv.
  apply Qmult_le_compat_r.
  - rewrite <- Zle_Qle. exact Ha.
  - apply Qinv_le_0_compat. change 0%Q with (inject_Z 0).
    rewrite <- Zle_Qle. lia.
Qed.

Lemma Qceiling_div_nonneg (a d : Z) :
  0 < d -> 0 <= a -> 0 <= Qceiling (inject_Z a / inject_Z d).
Proof.
  intros Hd Ha.
  change 0 with (Qceiling (inject_Z 0 / inject_Z d)) at 1.
  - apply Qceiling_div_mono; assumption.
Qed.

Lemma symbol_time_pos (sf : Z) (bw : Q) : (0 < bw)%Q -> (0 < 2 ^ sf / bw)%Q.
Proof.
  intros Hbw. unfold Qdiv.
  apply Qmult_lt_0_compat.
  - apply Qpower_0_lt. reflexivity.
  - apply Qinv_lt_0_compat, Hbw.
Qed.

(** X4.  In both bands, for a positive spreading factor, a coding rate that
    is not negative and a positive bandwidth, the airtime (lines 576-612) is
    positive and a longer payload never takes less time on the air. *)
Theorem airtime_monotone (lora24GHz : bool) (sf cr pl pl' : Z) (bw : Q) :
  0 < sf -> 0 <= cr -> (0 < bw)%Q -> pl <= pl' ->
  (0 < airtime lora24GHz sf cr pl bw)%Q
  /\ (airtime lora24GHz sf cr pl bw <= airtime lora24GHz sf cr pl' bw)%Q.
Proof.
  intros Hsf Hcr Hbw Hpl.
  pose proof (symbol_time_pos sf bw Hbw) as Hsym.
  unfold airtime. destruct lora24GHz.
  - (* 2.4 GHz *)
    set (DE := if sf >? 10 then 1 else 0).
    assert (Hd : 0 < 4 * (sf - 2 * DE)).
    { unfold DE. destruct (Z.gtb_spec sf 10); lia. }
    set (Tpream := (if sf <? 7 then (12 + 6.25) * (2 ^ sf / bw)
                    else (12 + 4.25) * (2 ^ sf / bw))%Q).
    assert (HTp : (0 < Tpream)%Q).
    { unfold Tpream. destruct (sf <? 7); nra. }
    destruct (sf >=? 7).
    + set (a := Z.max (8 * pl + 16 - 4 * sf + 8 + 20 * 1) 0).
      set (a' := Z.max (8 * pl' + 16 - 4 * sf + 8 + 20 * 1) 0).
      pose proof (Qceiling_div_mono a a' _ Hd ltac:(unfold a, a'; lia)) as Hm.
      pose proof (Qceiling_div_nonneg a _ Hd ltac:(unfold a; lia)) as Hn.
      set (c := Qceiling (inject_Z a / inject_Z (4 * (sf - 2 * DE)))) in *.
      set (c' := Qceiling (inject_Z a' / inject_Z (4 * (sf - 2 * DE)))) in *.
      assert (H1 : (0 <= inject_Z (8 + c * (cr + 4)))%Q).
      { change 0%Q with (inject_Z 0). rewrite <- Zle_Qle. nia. }
      assert (H2 : (inject_Z (8 + c * (cr + 4))
                    <= inject_Z (8 + c' * (cr + 4)))%Q).
      { rewrite <- Zle_Qle. nia. }
      split; nra.
    + set (a := Z.max (8 * pl + 16 - 4 * sf + 20 * 1) 0).
      set (a' := Z.max (8 * pl' + 16 - 4 * sf + 20 * 1) 0).
      pose proof (Qceiling_div_mono a a' _ Hd ltac:(unfold a, a'; lia)) as Hm.
      pose proof (Qceiling_div_nonneg a _ Hd ltac:(unfold a; lia)) as Hn.
      set (c := Qceiling (inject_Z a / inject_Z (4 * (sf - 2 * DE)))) in *.
      set (c' := Qceiling (inject_Z a' / inject_Z (4 * (sf - 2 * DE)))) in *.
      assert (H1 : (0 <= inject_Z (8 + c * (cr + 4)))%Q).
      { change 0%Q with (inject_Z 0). rewrite <- Zle_Qle. nia. }
      assert (H2 : (inject_Z (8 + c * (cr + 4))
                    <= inject_Z (8 + c' * (cr + 4)))%Q).
      { rewrite <- Zle_Qle. nia. }
      split; nra.
  - (* sub-GHz *)
    set (DE := if Qeq_bool bw 125 && ((sf =? 11) || (sf =? 12)) then 1 else 0).
    set (H := if sf =? 6 then 1 else 0).
    assert (Hd : 0 < 4 * (sf - 2 * DE)).
    { unfold DE.
      destruct (Qeq_bool bw 125), (Z.eqb_spec sf 11), (Z.eqb_spec sf 12);
        simpl; lia. }
    pose proof (Qceiling_div_mono (8 * pl - 4 * sf + 28 + 16 - 20 * H)
                  (8 * pl' - 4 * sf + 28 + 16 - 20 * H) _ Hd ltac:(lia)) as Hm.
    set (c := Qceiling (inject_Z (8 * pl - 4 * sf + 28 + 16 - 20 * H)
                        / inject_Z (4 * (sf - 2 * DE)))) in *.
    set (c' := Qceiling (inject_Z (8 * pl' - 4 * sf + 28 + 16 - 20 * H)
                         / inject_Z (4 * (sf - 2 * DE)))) in *.
    assert (H1 : (0 <= inject_Z (8 + Z.max (c * (cr + 4)) 0))%Q).
    { change 0%Q with (inject_Z 0). rewrite <- Zle_Qle. lia. }
    assert (H2 : (inject_Z (8 + Z.max (c * (cr + 4)) 0)
                  <= inject_Z (8 + Z.max (c' * (cr + 4)) 0))%Q).
    { rewrite <- Zle_Qle. nia. }
    split; nra.
Qed.

(** The RTS of 5 bytes against a payload of 104 bytes, at SF12 and 125 kHz. *)
Lemma airtime_monotone_witness :
  (0 < airtime false 12 1 5 125)%Q
  /\ (airtime false 12 1 5 125 <= airtime false 12 1 104 125)%Q.
Proof.
  apply (airtime_monotone false 12 1 5 104 125); [lia | lia | reflexivity | lia].
Defined.

(** ** The sensitivity table *)

Lemma py_index_not_found (bw : Q) (l : list Q) :
  (forall b, b ∈ l -> ~ (b == bw)%Q) -> py_index bw l = None.
Proof.
  induction l as [| b rest IH]; intros H; [reflexivity |].
  simpl. destruct (Qeq_bool b bw) eqn:E.
  - apply Qeq_bool_iff in E. exfalso. apply (H b); [| exact E].
    apply elem_of_cons. left. reflexivity.
  - rewrite IH; [reflexivity |].
    intros b' Hb'. apply H. apply elem_of_cons. right. exact Hb'.
Qed.

Lemma py_index_found (bw : Q) (l : list Q) :
  (exists b, b ∈ l /\ (b == bw)%Q) ->
  exists k, py_index bw l = Some k /\ (k < length l)%nat.
Proof.
  induction l as [| b rest IH]; intros (b0 & Hin & Hb).
  - inversion Hin.
  - simpl. destruct (Qeq_bool b bw) eqn:E.
    + exists 0%nat. split; [reflexivity | lia].
    + apply Qeq_bool_neq in E.
      apply elem_of_cons in Hin as [-> | Hin]; [contradiction |].
      destruct IH as (k & Ek & Hk); [eauto |].
      exists (S k). rewrite Ek. split; [reflexivity | lia].
Qed.

Lemma sensitivity_in_table (lora24GHz : bool) (p : myPacket.t) :
  in_table lora24GHz (myPacket.sf p) (myPacket.bw p) ->
  exists s, sensitivity lora24GHz p = Some s /\ (-134.5 <= s <= -99)%Q.
Proof.
  intros [Hsf Hbw]. destruct lora24GHz.
  - destruct (py_index_found (myPacket.bw p)
                [203.125; 406.25; 812.5; 1625]%Q) as (k & Ek & Hk).
    { destruct Hbw as [Hb | [Hb | [Hb | Hb]]]; symmetry in Hb;
        eexists; (split; [| exact Hb]);
        repeat first [apply list_elem_of_here | apply list_elem_of_further]. }
    assert (Hc : myPacket.sf p = 5 \/ myPacket.sf p = 6 \/ myPacket.sf p = 7
                 \/ myPacket.sf p = 8 \/ myPacket.sf p = 9
                 \/ myPacket.sf p = 10 \/ myPacket.sf p = 11
                 \/ myPacket.sf p = 12) by lia.
    unfold sensitivity. rewrite Ek.
    destruct Hc as [-> | [-> | [-> | [-> | [-> | [-> | [-> | ->]]]]]]];
      simpl (sensi_row _ _); cbn [mbind option_bind];
      destruct k as [| [| [| [| k]]]]; simpl in Hk; try lia;
      (eexists; split; [reflexivity | split; discriminate]).
  - destruct (py_index_found (myPacket.bw p) [125; 250; 500]%Q)
      as (k & Ek & Hk).
    { destruct Hbw as [Hb | [Hb | Hb]]; symmetry in Hb;
        eexists; (split; [| exact Hb]);
        repeat first [apply list_elem_of_here | apply list_elem_of_further]. }
    assert (Hc : myPacket.sf p = 6 \/ myPacket.sf p = 7
                 \/ myPacket.sf p = 8 \/ myPacket.sf p = 9
                 \/ myPacket.sf p = 10 \/ myPacket.sf p = 11
                 \/ myPacket.sf p = 12) by lia.
    unfold sensitivity. rewrite Ek.
    destruct Hc as [-> | [-> | [-> | [-> | [-> | [-> | ->]]]]]];
      simpl (sensi_row _ _); cbn [mbind option_bind];
      destruct k as [| [| [| k]]]; simpl in Hk; try lia;
      (eexists; split; [reflexivity | split; discriminate]).
Qed.

(** X5.  The sensitivity looked up before a transmission (lines 341-363,
    1239-1242, 1422-1425, 1563-1566) is defined for every radio
    configuration the constructor can draw: in the sub-GHz band SF 6 to 12
    with a bandwidth of 125, 250 or 500, in the 2.4 GHz band SF 5 to 12 with
    a bandwidth of 203.125, 406.25, 812.5 or 1625; it then lies between
    -134.5 and -99 dBm.  For a bandwidth that is not in the list of the band
    the lookup fails, as [list.index] does. *)
Theorem sensitivity_defined (lora24GHz : bool) (p : myPacket.t) :
  ((if lora24GHz then 5 else 6) <= myPacket.sf p <= 12 ->
   (if lora24GHz
    then (myPacket.bw p == 203.125 \/ myPacket.bw p == 406.25
          \/ myPacket.bw p == 812.5 \/ myPacket.bw p == 1625)%Q
    else (myPacket.bw p == 125 \/ myPacket.bw p == 250
          \/ myPacket.bw p == 500)%Q) ->
   exists s, sensitivity lora24GHz p = Some s /\ (-134.5 <= s <= -99)%Q)
  /\ ((forall b,
         b ∈ (if lora24GHz then [203.125; 406.25; 812.5; 1625]
              else [125; 250; 500])%Q -> ~ (b == myPacket.bw p)%Q) ->
      sensitivity lora24GHz p = None).
Proof.
  split.
  - intros Hsf Hbw. apply sensitivity_in_table. split; assumption.
  - intros Hno. unfold sensitivity.
    destruct (sensi_row lora24GHz _) as [row |]; [| reflexivity].
    cbn [mbind option_bind].
    rewrite py_index_not_found; [reflexivity |].
    destruct lora24GHz; exact Hno.
Qed.

Lemma sensitivity_defined_witness :
  exists s,
    sensitivity false narrow_packet = Some s /\ (-134.5 <= s <= -99)%Q.
Proof.
  apply (proj1 (sensitivity_defined false narrow_packet)).
  - vm_compute. split; discriminate.
  - left. reflexivity.
Defined.

(** ** More on the arrival handler *)

Lemma outside_gateway_effect (g : G.settings) (now : Q) (p : myPacket.t)
    (b : option bool) (c r d h : bool) (n : myNode.t) :
  outside_gateway (gw_effect g now p b c r d h n) = outside_gateway n.
Proof.
  unfold gw_effect, hint_set, clear, touch.
  destruct b as [v |], c, r, d, h, (myPacket.ptype p); reflexivity.
Qed.

(** X6.  A call of the arrival handler (lines 368-501) keeps the length of
    the node table and leaves every node as it was outside the flags
    [processed] and [collided] of its packet and its reception hints
    ([receive_rts], [receive_data], their [_from] and [_time], [nav]): the
    MAC state, the retry counters, the timers, the statistics and the radio
    parameters, payload and airtime of every packet are not assigned. *)
Theorem checkcollision_writes_flags_and_hints (g : G.settings) (now : Q)
    (packetsAtBS : list nat) (self : nat) (nodes nodes' : list myNode.t)
    (col : bool) (s : myNode.t) :
  checkcollision g now packetsAtBS self nodes = (nodes', col) ->
  nodes !! self = Some s ->
  length nodes' = length nodes
  /\ outside_gateway <$> nodes' = outside_gateway <$> nodes.
Proof.
  intros H Es. split.
  - eapply checkcollision_length, H.
  - eapply (checkcollision_frame outside_gateway); eauto.
    intros. apply outside_gateway_effect.
Qed.

Lemma mark_collided_at (i k : nat) (nodes : list myNode.t) :
  mark_collided i nodes !! k
  = if decide (k = i) then touch true <$> nodes !! k else nodes !! k.
Proof.
  unfold mark_collided. destruct (decide (k = i)) as [-> | Hne].
  - apply list_lookup_alter_eq.
  - apply list_lookup_alter_ne. congruence.
Qed.

Lemma rivals_touch (c1 c2 : bool) (s o : myNode.t) :
  rivals (touch c1 s) (touch c2 o) = rivals s o.
Proof. destruct c1, c2; reflexivity. Qed.

Lemma collided_touch (c : bool) (n : myNode.t) :
  myPacket.collided (myNode.packet (touch c n))
  = c || myPacket.collided (myNode.packet n).
Proof. destruct c; reflexivity. Qed.

(** One iteration of the loop of lines 405-434, seen from the arriving
    packet. *)
Lemma collide_with_spec (g : G.settings) (now : Q) (self other : nat)
    (nodes nodes' : list myNode.t) (col col' : bool) (s : myNode.t) :
  collide_with g now self (nodes, col) other = (nodes', col') ->
  nodes !! self = Some s ->
  (exists c,
     nodes' !! self = Some (touch c s)
     /\ (col' = true ->
         col = true
         \/ (myPacket.collided (myNode.packet (touch c s)) = true
             /\ exists o, nodes !! other = Some o /\ rivals s o = true))
     /\ (col' = false -> col = false /\ (other <> self -> c = false)))
  /\ (forall k, k <> self -> k <> other -> nodes' !! k = nodes !! k).
Proof.
  unfold collide_with. intros H Es. rewrite Es in H.
  destruct (nodes !! other) as [o |] eqn:Eo.
  2: { injection H as <- <-. split; [| auto].
       exists false. split; [exact Es |]. split; [auto | intros ->; auto]. }
  fold (rivals s o) in H.
  assert (Hsame :
    (nodes', col') = (nodes, col) ->
    (exists c,
       nodes' !! self = Some (touch c s)
       /\ (col' = true ->
           col = true
           \/ (myPacket.collided (myNode.packet (touch c s)) = true
               /\ exists o0, Some o = Some o0 /\ rivals s o0 = true))
       /\ (col' = false -> col = false /\ (other <> self -> c = false)))
    /\ (forall k, k <> self -> k <> other -> nodes' !! k = nodes !! k)).
  { intros [= -> ->]. split; [| auto].
    exists false. split; [exact Es |]. split; [auto | intros ->; auto]. }
  unfold rivals in H.
  destruct (negb (myNode.nodeid o =? myPacket.nodeid (myNode.packet s)))
    eqn:Eid; [| apply Hsame; congruence].
  destruct (frequencyCollision (myNode.packet s) (myNode.packet o)
            && sfCollision (myNode.packet s) (myNode.packet o)) eqn:Efs;
    [| apply Hsame; congruence].
  assert (Hriv : rivals s o = true).
  { unfold rivals. rewrite Eid, Efs. reflexivity. }
  destruct (G.full_collision g).
  - destruct (timingCollision now (myNode.packet s) (myNode.packet o));
      [| apply Hsame; congruence].
    destruct (powerCollision (myNode.packet s) (myNode.packet o)) as [c1 c2].
    injection H as <- <-. split.
    + exists (c1 || (c2 && bool_decide (self = other))). split; [| split].
      * destruct c1, c2; rewrite ?mark_collided_at; simpl;
          repeat (case_decide; subst; simpl);
          rewrite ?mark_collided_at, ?Es; simpl;
          repeat (case_decide; subst; simpl);
          rewrite ?Es, ?bool_decide_eq_true_2, ?bool_decide_eq_false_2
            by congruence;
          try reflexivity; try congruence.
      * intros Hc. destruct col; [left; reflexivity | right].
        simpl in Hc. subst c1. split; [reflexivity | eauto].
      * intros Hc. apply orb_false_iff in Hc as [-> ->].
        split; [reflexivity |]. intros Hne.
        rewrite bool_decide_eq_false_2 by congruence.
        rewrite andb_false_r. reflexivity.
    + intros k Hs Ho.
      destruct c1, c2; rewrite ?mark_collided_at;
        repeat (case_decide; try congruence);
        rewrite ?mark_collided_at; repeat (case_decide; try congruence);
        reflexivity.
  - injection H as <- <-. split.
    + exists true. split; [| split].
      * rewrite !mark_collided_at.
        repeat (case_decide; subst; simpl); rewrite ?mark_collided_at;
          repeat (case_decide; subst; simpl); rewrite ?Es; simpl;
          try reflexivity; try congruence.
      * intros _. right. split; [reflexivity | eauto].
      * discriminate.
    + intros k Hs Ho. rewrite !mark_collided_at.
      repeat (case_decide; try congruence).
Qed.

(** The whole loop, seen from the arriving packet. *)
Lemma pairwise_spec (g : G.settings) (now : Q) (self : nat)
    (packetsAtBS : list nat) :
  forall (nodes nodes' : list myNode.t) (col col' : bool) (s : myNode.t),
    foldl (collide_with g now self) (nodes, col) packetsAtBS = (nodes', col') ->
    nodes !! self = Some s ->
    (exists c,
       nodes' !! self = Some (touch c s)
       /\ (col' = true ->
           col = true
           \/ (myPacket.collided (myNode.packet (touch c s)) = true
               /\ exists j o, j ∈ packetsAtBS /\ nodes !! j = Some o
                    /\ rivals s o = true))
       /\ (col' = false -> col = false /\ (self ∉ packetsAtBS -> c = false)))
    /\ (forall k, k <> self -> k ∉ packetsAtBS -> nodes' !! k = nodes !! k).
Proof.
  induction packetsAtBS as [| other rest IH]; intros nodes nodes' col col' s H Es.
  - simpl in H. injection H as <- <-. split; [| auto].
    exists false. split; [exact Es |]. split; auto.
  - cbn [foldl] in H.
    destruct (collide_with g now self (nodes, col) other) as [nodes1 col1] eqn:E.
    destruct (collide_with_spec _ _ _ _ _ _ _ _ _ E Es)
      as ((c1 & Es1 & P1 & P2) & F1).
    destruct (IH _ _ _ _ _ H Es1) as ((c2 & Es2 & Q1 & Q2) & F2).
    split.
    + exists (c1 || c2). rewrite touch_touch in Es2, Q1.
      split; [exact Es2 |]. split.
      * intros Hc. destruct (Q1 Hc) as [Hc1 | (Hcol & j & o1 & Hj & Ej & Hr)].
        -- destruct (P1 Hc1) as [? | (Hcol & o & Eo & Hr)]; [auto |].
           right. split.
           ++ rewrite collided_touch in *.
              destruct c1, c2, (myPacket.collided (myNode.packet s));
                auto; discriminate.
           ++ exists other, o. split; [| auto].
              apply elem_of_cons. auto.
        -- right. split; [exact Hcol |].
           destruct (collide_with_lookup _ _ _ _ _ _ _ _ j E) as [cj Ecj].
           rewrite Ej in Ecj.
           destruct (nodes !! j) as [o |] eqn:Eo; [| discriminate].
           simpl in Ecj. injection Ecj as ->.
           rewrite rivals_touch in Hr.
           exists j, o. split; [| auto].
           apply elem_of_cons. auto.
      * intros Hc. destruct (Q2 Hc) as [Hc1 Hn2].
        destruct (P2 Hc1) as [Hc0 Hn1]. split; [exact Hc0 |].
        intros Hnot. rewrite not_elem_of_cons in Hnot. destruct Hnot as [Hne Hnr].
        rewrite Hn1, Hn2 by auto. reflexivity.
    + intros k Hk Hnot. rewrite not_elem_of_cons in Hnot.
      destruct Hnot as [Hne Hnr].
      rewrite F2, F1 by auto. reflexivity.
Qed.

Lemma cancel_hints_packets (packetsAtBS : list nat) (nodes : list myNode.t) :
  myNode.packet <$> cancel_hints packetsAtBS nodes = myNode.packet <$> nodes.
Proof.
  apply list_eq. intros k. rewrite !list_lookup_fmap.
  destruct (cancel_hints_lookup packetsAtBS nodes k) as (r & d & E & _).
  rewrite E. destruct (nodes !! k) as [n |]; [| reflexivity].
  simpl. f_equal. apply clear_frame.
Qed.

Lemma propagate_hints_packets (g : G.settings) (now : Q) (self : nat)
    (nodes : list myNode.t) :
  myNode.packet <$> propagate_hints g now self nodes = myNode.packet <$> nodes.
Proof.
  unfold propagate_hints. destruct (nodes !! self) as [s |]; [| reflexivity].
  rewrite <- list_fmap_compose. apply list_fmap_ext. intros k n _.
  apply hint_one_frame.
Qed.

(** The packets after the handler are those after its pairwise loop. *)
Lemma checkcollision_packets (g : G.settings) (now : Q)
    (packetsAtBS : list nat) (self : nat) (nodes nodes' : list myNode.t)
    (col : bool) :
  checkcollision g now packetsAtBS self nodes = (nodes', col) ->
  exists nodes1,
    pairwise g now packetsAtBS self (mark_processed g packetsAtBS self nodes)
    = (nodes1, col)
    /\ myNode.packet <$> nodes' = myNode.packet <$> nodes1.
Proof.
  intros H.
  destruct (checkcollision_phases _ _ _ _ _ _ _ H) as (nodes1 & Ep & ->).
  exists nodes1. split; [exact Ep |].
  unfold at_propagation. rewrite Ep. cbn [fst].
  destruct col, (G.CA g);
    rewrite ?propagate_hints_packets, ?cancel_hints_packets; reflexivity.
Qed.

(** X7.  What the returned flag of the arrival handler means (lines
    404-434, 465-467), for an arriving packet whose node is not yet in
    [packetsAtBS]: it is 1 only if the packet is marked collided on return
    and some other node on the air sends on an overlapping carrier with the
    same spreading factor; when it is 0 the flag [collided] of the arriving
    packet is as it was.  No call clears a flag [collided], and the packets
    of the nodes that are neither arriving nor on the air are not touched. *)
Theorem checkcollision_marks (g : G.settings) (now : Q)
    (packetsAtBS : list nat) (self : nat) (nodes nodes' : list myNode.t)
    (col : bool) (s s' : myNode.t) :
  checkcollision g now packetsAtBS self nodes = (nodes', col) ->
  nodes !! self = Some s -> nodes' !! self = Some s' ->
  self ∉ packetsAtBS ->
  (col = true ->
   myPacket.collided (myNode.packet s') = true
   /\ exists j o, j ∈ packetsAtBS /\ nodes !! j = Some o /\ rivals s o = true)
  /\ (col = false ->
      myPacket.collided (myNode.packet s')
      = myPacket.collided (myNode.packet s))
  /\ (forall k n n', nodes !! k = Some n -> nodes' !! k = Some n' ->
        (myPacket.collided (myNode.packet n) = true ->
         myPacket.collided (myNode.packet n') = true)
        /\ (k <> self -> k ∉ packetsAtBS ->
            myNode.packet n' = myNode.packet n)).
Proof.
  intros H Es Es' Hself.
  destruct (checkcollision_packets _ _ _ _ _ _ _ H) as (nodes1 & Ep & Hpk).
  assert (Hpk' : forall k n', nodes' !! k = Some n' ->
            exists n1, nodes1 !! k = Some n1
                       /\ myNode.packet n' = myNode.packet n1).
  { intros k n' Ek.
    pose proof (f_equal (fun l => l !! k) Hpk) as Hk. cbn beta in Hk.
    rewrite !list_lookup_fmap, Ek in Hk.
    destruct (nodes1 !! k) as [n1 |]; [| discriminate].
    injection Hk as Hk. eauto. }
  destruct (mark_processed_lookup g packetsAtBS self nodes self) as [b Eb].
  rewrite decide_True in Eb by reflexivity. rewrite Es in Eb.
  cbn [fmap option_fmap option_map] in Eb.
  destruct (pairwise_spec g now self packetsAtBS _ _ _ _ _ Ep Eb)
    as ((c & Es1 & P1 & P2) & F).
  destruct (Hpk' _ _ Es') as (s1 & Es1' & Hs').
  rewrite Es1 in Es1'. injection Es1' as <-.
  assert (Hother : forall j, j ∈ packetsAtBS ->
            mark_processed g packetsAtBS self nodes !! j = nodes !! j).
  { intros j Hj.
    destruct (mark_processed_lookup g packetsAtBS self nodes j) as [b' E'].
    rewrite decide_False in E' by (intros ->; contradiction). exact E'. }
  split; [| split].
  - intros ->. destruct (P1 eq_refl) as [? | (Hc & j & o & Hj & Ej & Hr)];
      [discriminate |].
    rewrite Hs'. split; [exact Hc |].
    rewrite Hother in Ej by exact Hj. exists j, o. auto.
  - intros ->. destruct (P2 eq_refl) as [_ Hc]. rewrite (Hc Hself) in Hs'.
    rewrite Hs'. reflexivity.
  - intros k n n' Ek Ek'. split.
    + destruct (checkcollision_shape _ _ _ _ _ _ _ _ _ _ H Es Ek')
        as (n0 & p & b0 & c0 & r & d & h & En0 & -> & _).
      assert (n0 = n) by congruence. subst n0.
      unfold gw_effect, hint_set, clear, touch.
      destruct b0 as [v |], c0, r, d, h, (myPacket.ptype p); simpl; auto.
    + intros Hk Hnot.
      destruct (Hpk' _ _ Ek') as (n1 & En1 & ->).
      rewrite (F k Hk Hnot) in En1.
      destruct (mark_processed_lookup g packetsAtBS self nodes k) as [b' E'].
      rewrite decide_False in E' by exact Hk.
      rewrite E', Ek in En1. congruence.
Qed.

(** ** The handler on the three-node run *)

Lemma after_wf (sched : schedule) : wf G.source (after sched).
Proof.
  unfold after.
  destruct (run G.source sched three_nodes) as [st |] eqn:E; simpl.
  - eapply reachable_wf;
      [exact source_ok | apply is_start_start | eapply run_from_start, E].
  - apply start_wf, source_ok.
Qed.

Lemma after_hints (sched : schedule) (k : nat) (n : myNode.t) :
  Sim.nodes (after sched) !! k = Some n -> hint_wf n.
Proof.
  intros Ek. destruct (wf_node _ _ _ _ (after_wf sched) Ek) as (c & _ & W).
  apply W.
Qed.

(** The RTS of node 0 arrives at 1000 ms with nothing on the air: node 1,
    which is listening, records it. *)
Lemma checkcollision_propagates_hints_witness :
  exists nodes' n',
    checkcollision G.source 1000
      (Sim.packetsAtBS (after hint_schedule)) 0
      (Sim.nodes (after hint_schedule)) = (nodes', false)
    /\ nodes' !! 1%nat = Some n'
    /\ myNode.receive_rts n' = true
    /\ myNode.receive_rts_from n' = 0
    /\ myNode.receive_rts_time n' = 1000%Q
    /\ myNode.nav n' = 104.
Proof.
  destruct (checkcollision G.source 1000
              (Sim.packetsAtBS (after hint_schedule)) 0
              (Sim.nodes (after hint_schedule))) as [nodes' col] eqn:E.
  assert (Hcol : col = false).
  { pose proof E as E2. vm_compute in E2. injection E2 as _ <-. reflexivity. }
  subst col.
  destruct (Sim.nodes (after hint_schedule) !! 0%nat) as [s |] eqn:Es;
    [| vm_compute in Es; discriminate].
  destruct (Sim.nodes (after hint_schedule) !! 1%nat) as [n |] eqn:En;
    [| vm_compute in En; discriminate].
  assert (Hs : myNode.listening s = false
               /\ myPacket.ptype (myNode.packet s) = rtsPacketType
               /\ myPacket.nodeid (myNode.packet s) = 0
               /\ myPacket.data_len (myNode.packet s) = 104).
  { pose proof Es as E2. vm_compute in E2. injection E2 as <-.
    repeat split; reflexivity. }
  destruct Hs as (Hl & Hty & Hid & Hlen).
  assert (Hn : myNode.listening n = true /\ myNode.receive_rts n = false
               /\ myNode.receive_data n = false).
  { pose proof En as E2. vm_compute in E2. injection E2 as <-.
    repeat split; reflexivity. }
  destruct Hn as (Hnl & Hnr & Hnd).
  destruct (checkcollision_propagates_hints G.source 1000
              (Sim.packetsAtBS (after hint_schedule)) 0
              (Sim.nodes (after hint_schedule)) nodes' s
              (wf_ids _ _ _ _ (after_wf hint_schedule))
              (after_hints hint_schedule)
              ltac:(discriminate) Es Hl E 1%nat n En)
    as (m & n' & _ & En' & Hset & _ & Hfresh).
  destruct (Hfresh Hnr Hnd) as [Hmr Hmd].
  specialize (Hset ltac:(discriminate) Hnl Hmr Hmd).
  rewrite Hty, Hid, Hlen in Hset.
  exists nodes', n'. split; [reflexivity |]. split; [exact En' |].
  exact Hset.
Defined.

(** The RTS of node 2 arrives at 1100 ms, 100 ms into the RTS of node 0:
    both packets are marked collided, and node 1, which had recorded the
    RTS of node 0, no longer holds it. *)
Lemma checkcollision_cancels_hints_witness :
  exists nodes' col n n',
    checkcollision G.source 1100
      (Sim.packetsAtBS (after cancel_schedule)) 2
      (Sim.nodes (after cancel_schedule)) = (nodes', col)
    /\ Sim.nodes (after cancel_schedule) !! 1%nat = Some n
    /\ myNode.receive_rts n = true /\ myNode.receive_rts_from n = 0
    /\ nodes' !! 1%nat = Some n'
    /\ in_flight_collided nodes' (Sim.packetsAtBS (after cancel_schedule)) 0
    /\ myNode.receive_rts n' = false.
Proof.
  destruct (checkcollision G.source 1100
              (Sim.packetsAtBS (after cancel_schedule)) 2
              (Sim.nodes (after cancel_schedule))) as [nodes' col] eqn:E.
  destruct (Sim.nodes (after cancel_schedule) !! 2%nat) as [s |] eqn:Es;
    [| vm_compute in Es; discriminate].
  destruct (Sim.nodes (after cancel_schedule) !! 1%nat) as [n |] eqn:En;
    [| vm_compute in En; discriminate].
  destruct (nodes' !! 1%nat) as [n' |] eqn:En';
    [| pose proof E as E2; vm_compute in E2; injection E2 as <- _;
       vm_compute in En'; discriminate].
  assert (Hn : myNode.receive_rts n = true /\ myNode.receive_rts_from n = 0).
  { pose proof En as E2. vm_compute in E2. injection E2 as <-.
    split; reflexivity. }
  assert (Hfrom : myNode.receive_rts_from n' = 0).
  { pose proof E as E2. vm_compute in E2. injection E2 as <- _.
    pose proof En' as E3. vm_compute in E3. injection E3 as <-. reflexivity. }
  assert (Hin : in_flight_collided nodes'
                  (Sim.packetsAtBS (after cancel_schedule)) 0).
  { destruct (nodes' !! 0%nat) as [o |] eqn:Eo;
      [| pose proof E as E2; vm_compute in E2; injection E2 as <- _;
         vm_compute in Eo; discriminate].
    exists 0%nat, o. split; [| split; [exact Eo |]].
    - vm_compute. apply elem_of_cons. left. reflexivity.
    - pose proof E as E2. vm_compute in E2. injection E2 as <- _.
      vm_compute in Eo. injection Eo as <-. split; reflexivity. }
  assert (Hnot : 2%nat ∉ Sim.packetsAtBS (after cancel_schedule)).
  { vm_compute. intros H. apply elem_of_cons in H as [H | H];
      [discriminate | inversion H]. }
  destruct (checkcollision_cancels_hints G.source 1100
              (Sim.packetsAtBS (after cancel_schedule)) 2
              (Sim.nodes (after cancel_schedule)) nodes' col s
              (wf_ids _ _ _ _ (after_wf cancel_schedule)) Hnot Es
              ltac:(discriminate) E 1%nat n' En') as [Hrts _].
  exists nodes', col, n, n'.
  split; [reflexivity |]. split; [reflexivity |].
  split; [apply Hn |]. split; [apply Hn |]. split; [exact En' |].
  split; [exact Hin |].
  destruct (myNode.receive_rts n') eqn:F; [| reflexivity].
  exfalso. apply (Hrts eq_refl). rewrite Hfrom. exact Hin.
Defined.

Lemma checkcollision_writes_flags_and_hints_witness :
  exists nodes' col,
    checkcollision G.source 1100
      (Sim.packetsAtBS (after cancel_schedule)) 2
      (Sim.nodes (after cancel_schedule)) = (nodes', col)
    /\ length nodes' = 3%nat
    /\ outside_gateway <$> nodes'
       = outside_gateway <$> Sim.nodes (after cancel_schedule).
Proof.
  destruct (checkcollision G.source 1100
              (Sim.packetsAtBS (after cancel_schedule)) 2
              (Sim.nodes (after cancel_schedule))) as [nodes' col] eqn:E.
  destruct (Sim.nodes (after cancel_schedule) !! 2%nat) as [s |] eqn:Es;
    [| vm_compute in Es; discriminate].
  destruct (checkcollision_writes_flags_and_hints _ _ _ _ _ _ _ _ E Es)
    as [Hl Hf].
  exists nodes', col. split; [reflexivity |]. split; [| exact Hf].
  rewrite Hl. reflexivity.
Defined.

Lemma checkcollision_marks_witness :
  exists nodes' s',
    checkcollision G.source 1100
      (Sim.packetsAtBS (after cancel_schedule)) 2
      (Sim.nodes (after cancel_schedule)) = (nodes', true)
    /\ nodes' !! 2%nat = Some s'
    /\ myPacket.collided (myNode.packet s') = true.
Proof.
  destruct (checkcollision G.source 1100
              (Sim.packetsAtBS (after cancel_schedule)) 2
              (Sim.nodes (after cancel_schedule))) as [nodes' col] eqn:E.
  assert (Hcol : col = true).
  { pose proof E as E2. vm_compute in E2. injection E2 as _ <-. reflexivity. }
  subst col.
  destruct (Sim.nodes (after cancel_schedule) !! 2%nat) as [s |] eqn:Es;
    [| vm_compute in Es; discriminate].
  destruct (nodes' !! 2%nat) as [s' |] eqn:Es';
    [| pose proof E as E2; vm_compute in E2; injection E2 as <-;
       vm_compute in Es'; discriminate].
  assert (Hnot : 2%nat ∉ Sim.packetsAtBS (after cancel_schedule)).
  { vm_compute. intros H. apply elem_of_cons in H as [H | H];
      [discriminate | inversion H]. }
  destruct (checkcollision_marks _ _ _ _ _ _ _ _ _ E Es Es' Hnot)
    as (Hc & _).
  exists nodes', s'. split; [reflexivity |]. split; [exact Es' |].
  apply Hc. reflexivity.
Defined.

(** ** Invariants of a run: hints and flags *)

Lemma listening_states (n : myNode.t) :
  myNode.listening n = true ->
  myNode.ca_state n = start_phase1_listen
  \/ myNode.ca_state n = start_phase2_listen.
Proof.
  unfold myNode.listening. destruct (myNode.ca_state n); simpl;
    intros H; first [discriminate | auto].
Qed.

(** X11.  At every instant of a run a node holds a reception hint
    ([receive_rts] or [receive_data]) only while it is in one of the two
    listening states, and never both hints together; when collision
    avoidance is off every node stays in SCHEDULE_TX and holds no hint. *)
Theorem hints_only_while_listening (g : G.settings) (s0 st : Sim.t) (k : nat)
    (n : myNode.t) :
  settings_ok g -> is_start g s0 -> reachable g s0 st ->
  Sim.nodes st !! k = Some n ->
  (myNode.receive_rts n = true \/ myNode.receive_data n = true ->
   myNode.ca_state n = start_phase1_listen
   \/ myNode.ca_state n = start_phase2_listen)
  /\ ~ (myNode.receive_rts n = true /\ myNode.receive_data n = true)
  /\ (G.CA g = false ->
      myNode.ca_state n = schedule_tx
      /\ myNode.receive_rts n = false /\ myNode.receive_data n = false).
Proof.
  intros Hok Hs Hr Ek.
  destruct (wf_node g st k n (reachable_wf g s0 st Hok Hs Hr) Ek)
    as (c & _ & W).
  destruct (wf_hints _ _ _ W) as [Hl Hboth].
  split; [| split].
  - intros H. apply listening_states, Hl, H.
  - exact Hboth.
  - intros Hca. pose proof (wf_noCA _ _ _ W Hca) as Hst.
    split; [exact Hst |].
    assert (Hnl : myNode.listening n = false).
    { unfold myNode.listening. rewrite Hst. reflexivity. }
    destruct (myNode.receive_rts n) eqn:Er.
    + rewrite Hl in Hnl by auto. discriminate.
    + split; [reflexivity |].
      destruct (myNode.receive_data n) eqn:Ed; [| reflexivity].
      rewrite Hl in Hnl by auto. discriminate.
Qed.

(** Node 1 of the three-node run after the RTS of node 0 has arrived: it
    holds the RTS hint and is in the first listening state. *)
Lemma hints_only_while_listening_witness :
  exists st st' w n,
    run G.source hint_schedule three_nodes = Some st
    /\ step G.source deaf 1000 0%nat st = Some (st', w)
    /\ Sim.nodes st' !! 1%nat = Some n
    /\ myNode.receive_rts n = true
    /\ myNode.ca_state n = start_phase1_listen
    /\ myNode.receive_data n = false.
Proof.
  destruct (run G.source hint_schedule three_nodes) as [st |] eqn:E;
    [| vm_compute in E; discriminate].
  destruct (step G.source deaf 1000 0%nat st) as [[st' w] |] eqn:E';
    [| vm_compute in E; injection E as <-; vm_compute in E'; discriminate].
  destruct (Sim.nodes st' !! 1%nat) as [n |] eqn:En;
    [| vm_compute in E; injection E as <-; vm_compute in E';
       injection E' as <- _; vm_compute in En; discriminate].
  assert (Hr : myNode.receive_rts n = true
               /\ myNode.ca_state n = start_phase1_listen).
  { vm_compute in E. injection E as <-. vm_compute in E'.
    injection E' as <- _. vm_compute in En. injection En as <-.
    split; reflexivity. }
  destruct Hr as [Hr Hst].
  assert (Hreach : reachable G.source three_nodes st').
  { eapply reach_step; [eapply run_from_start, E | exact E']. }
  destruct (hints_only_while_listening G.source three_nodes st' 1%nat n
              source_ok (is_start_start _ _ _ _ _) Hreach En)
    as (_ & Hboth & _).
  exists st, st', w, n.
  split; [reflexivity |]. split; [exact E' |]. split; [exact En |].
  split; [exact Hr |]. split; [exact Hst |].
  destruct (myNode.receive_data n); [| reflexivity].
  exfalso. apply Hboth. split; [exact Hr | reflexivity].
Defined.

Lemma step_has_pc (g : G.settings) (d : draws) (now : Q) (i : nat)
    (st st' : Sim.t) (w : option Q) :
  step g d now i st = Some (st', w) -> exists c, Sim.tasks st !! i = Some c.
Proof.
  intros H. unfold step in H.
  destruct (Sim.nodes st !! i) as [node |]; [| discriminate].
  destruct (Sim.tasks st !! i) as [c |]; [| discriminate]. eauto.
Qed.

Lemma flag_sound_step (i : nat) (c c' : pc) (tasks : list pc)
    (wait : pc -> bool) (flag flag' : bool) :
  tasks !! i = Some c ->
  flag' = (if wait c' then true else if wait c then false else flag) ->
  (flag = true -> exists j c0, tasks !! j = Some c0 /\ wait c0 = true) ->
  flag' = true ->
  exists j c0, <[i := c']> tasks !! j = Some c0 /\ wait c0 = true.
Proof.
  intros Ec -> IH Hf.
  destruct (wait c') eqn:Hc'.
  - exists i, c'. split; [| exact Hc'].
    apply list_lookup_insert_eq. eapply lookup_lt_Some, Ec.
  - destruct (wait c) eqn:Hc; [discriminate |].
    destruct (IH Hf) as (j & c0 & Ej & H0).
    exists j, c0. split; [| exact H0].
    rewrite list_lookup_insert_ne; [exact Ej |].
    intros <-. congruence.
Qed.

Lemma flags_sound (g : G.settings) (s0 st : Sim.t) :
  is_start g s0 -> reachable g s0 st ->
  (Sim.channel_busy_data st = true -> exists j, on_air_data st j)
  /\ (Sim.channel_busy_rts st = true -> exists j, on_air_rts st j).
Proof.
  intros (a & b & c & rs & ->) Hr.
  induction Hr as [| st d now i st' w Hr IH H].
  - split; discriminate.
  - destruct (step_has_pc _ _ _ _ _ _ _ H) as [c0 Ec].
    destruct (step_channel g d now i st st' w c0 H Ec)
      as (c' & Ht & Hd & Hrt & _).
    destruct IH as [IHd IHr]. unfold on_air_data, on_air_rts in *.
    rewrite Ht. split; intros Hf.
    + destruct (flag_sound_step i c0 c' (Sim.tasks st) is_data_wait _ _
                  Ec Hd) as (j & c1 & Hj); [| exact Hf | eauto].
      intros F. destruct (IHd F) as (j & c1 & Hj). eauto.
    + destruct (flag_sound_step i c0 c' (Sim.tasks st) is_rts_wait _ _
                  Ec Hrt) as (j & c1 & Hj); [| exact Hf | eauto].
      intros F. destruct (IHr F) as (j & c1 & Hj). eauto.
Qed.

Lemma assessment_reads_flag (g : G.settings) (d : draws) (st : Sim.t)
    (n : myNode.t) :
  ((cca_want_transmit g d st n).2 = true ->
   Sim.channel_busy_rts st || Sim.channel_busy_data st = true)
  /\ ((cca_rts g d st n).2 = true ->
      Sim.channel_busy_rts st || Sim.channel_busy_data st = true)
  /\ ((cca_phase3 g d st n).2 = true ->
      Sim.channel_busy_rts st || Sim.channel_busy_data st = true)
  /\ ((cca_noCA g d st n).2 = true -> Sim.channel_busy_data st = true).
Proof.
  unfold cca_want_transmit, cca_rts, cca_phase3, cca_noCA.
  destruct (G.check_busy g), (G.check_busy_rts g),
    (Sim.channel_busy_rts st), (Sim.channel_busy_data st),
    (cca_detects g d); simpl; repeat split; intros H;
    first [reflexivity | discriminate H].
Qed.

(** X12.  No false alarm along a run: whenever one of the two flags is set,
    some node is inside the airtime wait of a packet of that kind, and so a
    clear-channel assessment (lines 1033-1054, 1186-1207, 1377-1397,
    1509-1527) reports a busy channel only while some node is on the air. *)
Theorem busy_only_while_on_air (g : G.settings) (s0 st : Sim.t) (d : draws)
    (n : myNode.t) :
  is_start g s0 -> reachable g s0 st ->
  (Sim.channel_busy_data st = true -> exists j, on_air_data st j)
  /\ (Sim.channel_busy_rts st = true -> exists j, on_air_rts st j)
  /\ ((cca_want_transmit g d st n).2 = true
      \/ (cca_rts g d st n).2 = true
      \/ (cca_phase3 g d st n).2 = true
      \/ (cca_noCA g d st n).2 = true ->
      exists j, on_air_data st j \/ on_air_rts st j).
Proof.
  intros Hs Hr. destruct (flags_sound g s0 st Hs Hr) as [Hd Hrts].
  split; [exact Hd |]. split; [exact Hrts |].
  destruct (assessment_reads_flag g d st n) as (A1 & A2 & A3 & A4).
  assert (Hor : Sim.channel_busy_rts st || Sim.channel_busy_data st = true ->
                exists j, on_air_data st j \/ on_air_rts st j).
  { intros H. apply orb_true_iff in H as [H | H].
    - destruct (Hrts H) as [j Hj]. eauto.
    - destruct (Hd H) as [j Hj]. eauto. }
  intros [H | [H | [H | H]]]; [auto | auto | auto |].
  destruct (Hd (A4 H)) as [j Hj]. eauto.
Qed.

(** Node 1 of the two-node run detects the RTS of node 0 at 1200 ms. *)
Lemma busy_only_while_on_air_witness :
  exists st n,
    run G.source (take 8 busy_schedule) two_nodes = Some st
    /\ Sim.nodes st !! 1%nat = Some n
    /\ (cca_want_transmit G.source keen st n).2 = true
    /\ exists j, on_air_data st j \/ on_air_rts st j.
Proof.
  destruct (run G.source (take 8 busy_schedule) two_nodes) as [st |] eqn:E;
    [| vm_compute in E; discriminate].
  destruct (Sim.nodes st !! 1%nat) as [n |] eqn:En;
    [| vm_compute in E; injection E as <-; vm_compute in En; discriminate].
  assert (Hb : (cca_want_transmit G.source keen st n).2 = true).
  { vm_compute in E. injection E as <-. vm_compute in En.
    injection En as <-. reflexivity. }
  exists st, n. split; [reflexivity |]. split; [exact En |].
  split; [exact Hb |].
  apply (busy_only_while_on_air G.source two_nodes st keen n
           (is_start_start _ _ _ _ _) (run_from_start _ _ _ _ E)).
  left. exact Hb.
Defined.

(** X13.  The reliability [CCA_prob] of an assessment at its two ends
    ([random.randint(1,100) <= CCA_prob and CCA_prob != 0]): at 0 or below
    no assessment ever reports a busy channel; at 100 or above an assessment
    that is enabled reports exactly the flags it reads, both flags with
    collision avoidance and [channel_busy_data] alone without. *)
Theorem assessment_at_the_ends (g : G.settings) (d : draws) (st : Sim.t)
    (n : myNode.t) :
  (G.CCA_prob g <= 0 -> reads_free g st)
  /\ (100 <= G.CCA_prob g ->
      (cca_want_transmit g d st n).2
      = G.check_busy g
        && (Sim.channel_busy_rts st || Sim.channel_busy_data st)
      /\ (cca_rts g d st n).2
         = G.check_busy_rts g
           && (Sim.channel_busy_rts st || Sim.channel_busy_data st)
      /\ (cca_phase3 g d st n).2
         = G.check_busy g
           && (Sim.channel_busy_rts st || Sim.channel_busy_data st)
      /\ (cca_noCA g d st n).2
         = G.check_busy g && Sim.channel_busy_data st).
Proof.
  assert (Hrange : forall u, 1 <= randint u 1 100 <= 100).
  { intros u. unfold randint.
    pose proof (Z.mod_pos_bound u (100 - 1 + 1) ltac:(lia)). lia. }
  split.
  - intros H0 d0 n0.
    assert (Hd : cca_detects g d0 = false).
    { unfold cca_detects. specialize (Hrange (u_cca d0)).
      destruct (Z.leb_spec (randint (u_cca d0) 1 100) (G.CCA_prob g));
        [| reflexivity].
      assert (G.CCA_prob g = 0) as -> by lia. reflexivity. }
    unfold cca_want_transmit, cca_rts, cca_phase3, cca_noCA. rewrite Hd.
    destruct (G.check_busy g), (G.check_busy_rts g),
      (Sim.channel_busy_rts st), (Sim.channel_busy_data st); auto.
  - intros H100.
    assert (Hd : cca_detects g d = true).
    { unfold cca_detects. specialize (Hrange (u_cca d)).
      apply andb_true_iff. split.
      - apply Z.leb_le. lia.
      - apply negb_true_iff, Z.eqb_neq. lia. }
    unfold cca_want_transmit, cca_rts, cca_phase3, cca_noCA. rewrite Hd.
    destruct (G.check_busy g), (G.check_busy_rts g),
      (Sim.channel_busy_rts st), (Sim.channel_busy_data st); auto.
Qed.

(** With [CCA_prob] set to 0 the RTS of node 0 is missed by node 1 whatever
    is drawn. *)
Lemma assessment_at_the_ends_witness :
  exists st,
    run G.source (take 8 busy_schedule) two_nodes = Some st
    /\ Sim.channel_busy_rts st = true
    /\ reads_free (G.set_CCA_prob 0 G.source) st.
Proof.
  destruct (run G.source (take 8 busy_schedule) two_nodes) as [st |] eqn:E;
    [| vm_compute in E; discriminate].
  exists st. split; [reflexivity |]. split.
  - vm_compute in E. injection E as <-. reflexivity.
  - destruct (Sim.nodes st !! 0%nat) as [n |] eqn:En;
      [| vm_compute in E; injection E as <-; vm_compute in En; discriminate].
    apply (proj1 (assessment_at_the_ends (G.set_CCA_prob 0 G.source) deaf st n)).
    vm_compute. discriminate.
Defined.

(** ** The gateway list and the counters of the report *)

Lemma n_data_sent_gw (g : G.settings) (now : Q) (p : myPacket.t)
    (b : option bool) (c r d h : bool) (n : myNode.t) :
  myNode.n_data_sent (gw_effect g now p b c r d h n) = myNode.n_data_sent n.
Proof.
  unfold gw_effect, hint_set, clear, touch.
  destruct b as [v |], c, r, d, h, (myPacket.ptype p); reflexivity.
Qed.

Lemma arrive_ledger (g : G.settings) (now : Q) (i : nat) (st st' : Sim.t) :
  arrive g now i st = Some st' ->
  enters i (Sim.packetsAtBS st) (Sim.packetsAtBS st')
  /\ Sim.nrCollisions st' = Sim.nrCollisions st
  /\ Sim.nrReceived st' = Sim.nrReceived st.
Proof.
  unfold arrive, enters. intros H.
  destruct (py_in i (Sim.packetsAtBS st)) eqn:Ein; [inversion H; auto |].
  destruct (Sim.nodes st !! i) as [node |]; [| discriminate]. simpl in H.
  destruct (sensitivity _ _) as [sens |]; [| discriminate]. simpl in H.
  destruct (Qltb _ _); [inversion H; auto |].
  destruct (checkcollision _ _ _ _ _) as [nodes col].
  inversion H; subst; clear H. simpl. auto.
Qed.

Lemma arrive_noCA_ledger (g : G.settings) (now : Q) (i : nat)
    (st st' : Sim.t) :
  arrive_noCA g now i st = Some st' ->
  enters i (Sim.packetsAtBS st) (Sim.packetsAtBS st')
  /\ Sim.nrCollisions st' = Sim.nrCollisions st
  /\ Sim.nrReceived st' = Sim.nrReceived st.
Proof.
  unfold arrive_noCA, enters. intros H.
  destruct (py_in i (Sim.packetsAtBS st)) eqn:Ein; [inversion H; auto |].
  destruct (Sim.nodes st !! i) as [node |]; [| discriminate]. simpl in H.
  destruct (sensitivity _ _) as [sens |]; [| discriminate]. simpl in H.
  destruct (Qltb _ _); [inversion H; auto |].
  destruct (checkcollision _ _ _ _ _) as [nodes col].
  destruct col; inversion H; subst; clear H; simpl; auto.
Qed.

Lemma leave_ledger (i : nat) (st : Sim.t) :
  Sim.packetsAtBS (leave i st) = exits i (Sim.packetsAtBS st)
  /\ Sim.nrCollisions (leave i st) = Sim.nrCollisions st
  /\ Sim.nrReceived (leave i st) = Sim.nrReceived st.
Proof.
  unfold leave, exits.
  destruct (py_in i (Sim.packetsAtBS st)); simpl; auto.
Qed.

Lemma count_data_ledger (p : myPacket.t) (st : Sim.t) :
  Sim.nrCollisions st <= Sim.nrCollisions (count_data p st)
  /\ Sim.nrReceived st <= Sim.nrReceived (count_data p st)
  /\ Sim.nrCollisions (count_data p st) + Sim.nrReceived (count_data p st)
     <= Sim.nrCollisions st + Sim.nrReceived st + 1.
Proof.
  unfold count_data.
  destruct (myPacket.lost p), (myPacket.collided p), (myPacket.processed p);
    simpl; lia.
Qed.

Lemma count_rts_ledger (p : myPacket.t) (st : Sim.t) :
  Sim.nrCollisions (count_rts p st) = Sim.nrCollisions st
  /\ Sim.nrReceived (count_rts p st) = Sim.nrReceived st.
Proof.
  unfold count_rts.
  destruct (myPacket.lost p), (myPacket.collided p), (myPacket.processed p);
    simpl; auto.
Qed.

Ltac lg_local Ei :=
  eexists _, _; split; [reflexivity |];
  split;
  [ cbn; first [ apply (insert_same myNode.n_data_sent _ _ _ Ei)
               | apply list_fmap_insert ]
  | unfold ledger; cbn;
    split; [first [reflexivity | left; reflexivity] |];
    split; [rewrite ?Z.add_0_r; reflexivity |];
    split; [lia |]; split; [lia |]; split; [lia |];
    intros; first [reflexivity | discriminate] ].

Ltac lg_arrival H Ei :=
  match type of H with
  | context [?arr ?g ?now ?i (Sim.put ?i ?node1 ?st)] =>
      let st1 := fresh "st1" in
      let Ea := fresh "Ea" in
      destruct (arr g now i (Sim.put i node1 st)) as [st1 |] eqn:Ea;
      [| discriminate H];
      simpl in H; injection H as <- _;
      let T := fresh "T" in
      let F := fresh "F" in
      let A1 := fresh "A" in
      let A2 := fresh "A" in
      let A3 := fresh "A" in
      lazymatch type of Ea with
      | arrive _ _ _ _ = _ =>
          pose proof (arrive_tasks _ _ _ _ _ Ea) as T;
          pose proof (arrive_frame myNode.n_data_sent
                        (fun f n => eq_refl) n_data_sent_gw _ _ _ _ _ Ea) as F;
          pose proof (arrive_ledger _ _ _ _ _ Ea) as (A1 & A2 & A3)
      | arrive_noCA _ _ _ _ = _ =>
          pose proof (arrive_noCA_tasks _ _ _ _ _ Ea) as T;
          pose proof (arrive_noCA_frame myNode.n_data_sent
                        (fun f n => eq_refl) n_data_sent_gw _ _ _ _ _ Ea) as F;
          pose proof (arrive_noCA_ledger _ _ _ _ _ Ea) as (A1 & A2 & A3)
      end;
      eexists _, (myNode.n_data_sent node1);
      split; [cbn; rewrite T; reflexivity |];
      split;
      [ cbn; rewrite F; cbn;
        etransitivity; [apply list_fmap_insert | reflexivity]
      | unfold ledger;
        split; [exact A1 |];
        split; [cbn; rewrite ?Z.add_0_r; reflexivity |];
        cbn; rewrite A2, A3; cbn;
        split; [lia |]; split; [lia |]; split; [lia |];
        intros; first [reflexivity | discriminate] ]
  end.

Lemma step_ledger (g : G.settings) (d : draws) (now : Q) (i : nat)
    (st st' : Sim.t) (w : option Q) (node : myNode.t) (c : pc) :
  step g d now i st = Some (st', w) ->
  Sim.nodes st !! i = Some node -> Sim.tasks st !! i = Some c ->
  exists c' x,
    Sim.tasks st' = <[i := c']> (Sim.tasks st)
    /\ myNode.n_data_sent <$> Sim.nodes st'
       = <[i := x]> (myNode.n_data_sent <$> Sim.nodes st)
    /\ ledger i c c' node x st st'.
Proof.
  intros H Ei Ec. unfold step in H. rewrite Ei, Ec in H. simpl in H.
  destruct c.
  - unfold block_schedule_tx, block_nc_schedule, next in H.
    split_ifs H; injection H as <- _; lg_local Ei.
  - unfold block_want_transmit, cca_want_transmit, draw_backoff, grow_BE,
      count_transmit, next in H.
    split_ifs H; injection H as <- _; lg_local Ei.
  - unfold block_start_CA, start_listen, next in H.
    split_ifs H; injection H as <- _; lg_local Ei.
  - unfold block_listen1, next in H.
    destruct (nav_after_data _ _ _ _ node) as [node1 w1] eqn:E.
    apply (f_equal fst) in E. rewrite nav_after_data_fst in E.
    simpl in E. subst node1.
    split_ifs H; injection H as <- _; lg_local Ei.
  - unfold block_listen1_rts, nav_after_rts, next in H.
    split_ifs H; injection H as <- _; lg_local Ei.
  - unfold block_phase2_backoff, next in H.
    split_ifs H; injection H as <- _; lg_local Ei.
  - unfold block_rts_loop, send_rts, cca_rts, draw_backoff, grow_BE, next in H.
    split_ifs H; first [lg_arrival H Ei | injection H as <- _; lg_local Ei].
  - unfold block_rts_sent, next in H. injection H as <- _.
    destruct (leave_ledger i (count_rts (myNode.packet node)
                (Sim.set_channel_busy_rts false st))) as (L1 & L2 & L3).
    destruct (count_rts_parts (myNode.packet node)
                (Sim.set_channel_busy_rts false st))
      as (P1 & P2 & P3 & _).
    destruct (count_rts_ledger (myNode.packet node)
                (Sim.set_channel_busy_rts false st)) as (K1 & K2).
    exists pc_phase2_rts, (myNode.n_data_sent node).
    split; [| split].
    + change (Sim.tasks (Sim.goto i pc_phase2_rts ?x))
        with (<[i := pc_phase2_rts]> (Sim.tasks x)).
      rewrite leave_tasks, P2. reflexivity.
    + rewrite nodes_goto.
      rewrite (leave_frame myNode.n_data_sent (fun f n => eq_refl)).
      rewrite P1. cbn. apply (insert_same myNode.n_data_sent _ _ _ Ei).
    + unfold ledger.
      change (Sim.packetsAtBS (Sim.goto i pc_phase2_rts ?x))
        with (Sim.packetsAtBS x).
      change (Sim.nrCollisions (Sim.goto i pc_phase2_rts ?x))
        with (Sim.nrCollisions x).
      change (Sim.nrReceived (Sim.goto i pc_phase2_rts ?x))
        with (Sim.nrReceived x).
      rewrite L1, L2, L3, P3, K1, K2. cbn.
      split; [reflexivity |]. split; [lia |].
      split; [lia |]. split; [lia |]. split; [lia |]. reflexivity.
  - unfold block_phase2_rts, start_listen, next in H.
    split_ifs H; injection H as <- _; lg_local Ei.
  - unfold block_listen2, next in H.
    destruct (nav_after_data _ _ _ _ node) as [node1 w1] eqn:E.
    apply (f_equal fst) in E. rewrite nav_after_data_fst in E.
    simpl in E. subst node1.
    split_ifs H; injection H as <- _; lg_local Ei.
  - unfold block_listen2_rts, nav_after_rts, next in H.
    split_ifs H; injection H as <- _; lg_local Ei.
  - unfold block_phase3_backoff, next in H.
    split_ifs H; injection H as <- _; lg_local Ei.
  - unfold block_phase3_transmit, cca_phase3, next in H.
    split_ifs H; first [lg_arrival H Ei | injection H as <- _; lg_local Ei].
  - unfold block_data_sent, next in H. injection H as <- _.
    destruct (leave_ledger i (count_data (myNode.packet node)
                (Sim.set_channel_busy_data false st))) as (L1 & L2 & L3).
    destruct (count_data_parts (myNode.packet node)
                (Sim.set_channel_busy_data false st))
      as (P1 & P2 & P3 & _).
    destruct (count_data_ledger (myNode.packet node)
                (Sim.set_channel_busy_data false st)) as (K1 & K2 & K3).
    exists pc_start_nav, (myNode.n_data_sent node).
    split; [| split].
    + change (Sim.tasks (Sim.goto i pc_start_nav (Sim.upd i ?f ?x)))
        with (<[i := pc_start_nav]> (Sim.tasks x)).
      rewrite leave_tasks, P2. reflexivity.
    + rewrite nodes_goto, nodes_upd, alter_frame by reflexivity.
      rewrite (leave_frame myNode.n_data_sent (fun f n => eq_refl)).
      rewrite P1. cbn. apply (insert_same myNode.n_data_sent _ _ _ Ei).
    + unfold ledger.
      change (Sim.packetsAtBS (Sim.goto i pc_start_nav (Sim.upd i ?f ?x)))
        with (Sim.packetsAtBS x).
      change (Sim.nrCollisions (Sim.goto i pc_start_nav (Sim.upd i ?f ?x)))
        with (Sim.nrCollisions x).
      change (Sim.nrReceived (Sim.goto i pc_start_nav (Sim.upd i ?f ?x)))
        with (Sim.nrReceived x).
      rewrite L1, L2, L3, P3. cbn in K1, K2, K3 |- *.
      split; [reflexivity |]. split; [lia |].
      split; [lia |]. split; [lia |]. split; [lia |]. reflexivity.
  - unfold block_start_nav, next in H.
    split_ifs H; injection H as <- _; lg_local Ei.
  - unfold block_end, next in H.
    split_ifs H; injection H as <- _; lg_local Ei.
  - unfold block_nc_wait, count_transmit, next in H.
    split_ifs H; injection H as <- _; lg_local Ei.
  - unfold block_nc_loop, nc_after_loop, cca_noCA, draw_backoff, grow_BE, next
      in H.
    split_ifs H; first [lg_arrival H Ei | injection H as <- _; lg_local Ei].
  - unfold block_nc_sent, next in H. injection H as <- _.
    destruct (leave_ledger i (count_data (myNode.packet node)
                (Sim.set_channel_busy_data false st))) as (L1 & L2 & L3).
    destruct (count_data_parts (myNode.packet node)
                (Sim.set_channel_busy_data false st))
      as (P1 & P2 & P3 & _).
    destruct (count_data_ledger (myNode.packet node)
                (Sim.set_channel_busy_data false st)) as (K1 & K2 & K3).
    exists pc_end, (myNode.n_data_sent node).
    split; [| split].
    + change (Sim.tasks (Sim.goto i pc_end (Sim.upd i ?f ?x)))
        with (<[i := pc_end]> (Sim.tasks x)).
      rewrite leave_tasks, P2. reflexivity.
    + rewrite nodes_goto, nodes_upd, alter_frame by reflexivity.
      rewrite (leave_frame myNode.n_data_sent (fun f n => eq_refl)).
      rewrite P1. cbn. apply (insert_same myNode.n_data_sent _ _ _ Ei).
    + unfold ledger.
      change (Sim.packetsAtBS (Sim.goto i pc_end (Sim.upd i ?f ?x)))
        with (Sim.packetsAtBS x).
      change (Sim.nrCollisions (Sim.goto i pc_end (Sim.upd i ?f ?x)))
        with (Sim.nrCollisions x).
      change (Sim.nrReceived (Sim.goto i pc_end (Sim.upd i ?f ?x)))
        with (Sim.nrReceived x).
      rewrite L1, L2, L3, P3. cbn in K1, K2, K3 |- *.
      split; [reflexivity |]. split; [lia |].
      split; [lia |]. split; [lia |]. split; [lia |]. reflexivity.
  - discriminate.
Qed.

Lemma sumZ_insert (l : list Z) (i : nat) (a x : Z) :
  l !! i = Some a -> sumZ (<[i := x]> l) = sumZ l - a + x.
Proof.
  revert i. induction l as [| b l IH]; intros [| i] E; try discriminate.
  - injection E as ->. unfold sumZ. simpl. lia.
  - simpl in E. specialize (IH i E). unfold sumZ in *. simpl. lia.
Qed.

Lemma sumZ_zero (l : list Z) :
  (forall k x, l !! k = Some x -> x = 0) -> sumZ l = 0.
Proof.
  induction l as [| b l IH]; intros H; [reflexivity |].
  unfold sumZ in *. simpl.
  rewrite (H 0%nat b eq_refl), IH; [reflexivity |].
  intros k x E. apply (H (S k)). exact E.
Qed.

Lemma py_remove_incl (i j : nat) (l : list nat) :
  j ∈ py_remove i l -> j ∈ l.
Proof.
  induction l as [| a l IH]; simpl; [auto |].
  destruct (Nat.eqb i a).
  - intros H. apply elem_of_cons. auto.
  - intros H. apply elem_of_cons in H as [-> | H]; apply elem_of_cons; auto.
Qed.

Lemma py_remove_NoDup (i : nat) (l : list nat) :
  NoDup l -> NoDup (py_remove i l) /\ i ∉ py_remove i l.
Proof.
  induction l as [| a l IH]; intros Hnd.
  - split; [constructor | intros H; inversion H].
  - apply NoDup_cons in Hnd as [Ha Hnd]. simpl.
    destruct (Nat.eqb_spec i a) as [-> | Hne].
    + split; assumption.
    + destruct (IH Hnd) as [IH1 IH2]. split.
      * apply NoDup_cons. split; [| exact IH1].
        intros H. apply Ha. eapply py_remove_incl, H.
      * intros H. apply elem_of_cons in H as [H | H]; auto.
Qed.

Lemma exits_spec (i : nat) (l : list nat) :
  NoDup l ->
  NoDup (exits i l) /\ forall j, j ∈ exits i l -> j ∈ l /\ j <> i.
Proof.
  intros Hnd. unfold exits. destruct (py_in i l) eqn:Ein.
  - destruct (py_remove_NoDup i l Hnd) as [H1 H2]. split; [exact H1 |].
    intros j Hj. split; [eapply py_remove_incl, Hj |].
    intros ->. contradiction.
  - split; [exact Hnd |]. intros j Hj. split; [exact Hj |].
    intros ->. apply py_in_elem_of in Hj. congruence.
Qed.

Lemma step_gateway_list (i : nat) (c c' : pc) (node : myNode.t) (x : Z)
    (st st' : Sim.t) :
  Sim.tasks st !! i = Some c ->
  Sim.tasks st' = <[i := c']> (Sim.tasks st) ->
  ledger i c c' node x st st' ->
  gateway_list_ok st -> gateway_list_ok st'.
Proof.
  intros Ec Ht (Hp & _ & _ & _ & _ & Hw) [Hnd Hin].
  assert (Hnotin : is_wait c = false -> i ∉ Sim.packetsAtBS st).
  { intros Hc Hi. destruct (Hin i Hi) as (c0 & E0 & H0). congruence. }
  assert (Hkeep : forall j, j <> i -> j ∈ Sim.packetsAtBS st ->
            exists c0, Sim.tasks st' !! j = Some c0 /\ is_wait c0 = true).
  { intros j Hne Hj. rewrite Ht, list_lookup_insert_ne by congruence.
    apply Hin, Hj. }
  assert (Hself : Sim.tasks st' !! i = Some c').
  { rewrite Ht. apply list_lookup_insert_eq. eapply lookup_lt_Some, Ec. }
  unfold gateway_list_ok.
  destruct (is_wait c') eqn:Hc'.
  - assert (Hc : is_wait c = false).
    { destruct (is_wait c); [| reflexivity]. discriminate (Hw eq_refl). }
    destruct Hp as [-> | [Hpy ->]].
    + split; [exact Hnd |]. intros j Hj. apply Hkeep; [| exact Hj].
      intros ->. exact (Hnotin Hc Hj).
    + split.
      * apply NoDup_app. split; [exact Hnd |]. split.
        -- intros j Hj Hi. apply list_elem_of_singleton in Hi as ->.
           exact (Hnotin Hc Hj).
        -- apply NoDup_singleton.
      * intros j Hj. apply elem_of_app in Hj as [Hj | Hj].
        -- apply Hkeep; [| exact Hj]. intros ->. exact (Hnotin Hc Hj).
        -- apply list_elem_of_singleton in Hj as ->. eauto.
  - destruct (is_wait c) eqn:Hc.
    + rewrite Hp. destruct (exits_spec i _ Hnd) as [E1 E2].
      split; [exact E1 |]. intros j Hj. destruct (E2 j Hj) as [Hj' Hne].
      apply Hkeep; assumption.
    + rewrite Hp. split; [exact Hnd |]. intros j Hj.
      apply Hkeep; [| exact Hj]. intros ->. exact (Hnotin eq_refl Hj).
Qed.

Lemma step_counters (i : nat) (c c' : pc) (node : myNode.t) (x : Z)
    (st st' : Sim.t) :
  Sim.nodes st !! i = Some node -> Sim.tasks st !! i = Some c ->
  Sim.tasks st' = <[i := c']> (Sim.tasks st) ->
  myNode.n_data_sent <$> Sim.nodes st'
  = <[i := x]> (myNode.n_data_sent <$> Sim.nodes st) ->
  ledger i c c' node x st st' ->
  counters_ok st -> counters_ok st'.
Proof.
  intros Ei Ec Ht Hn (_ & Hx & H1 & H2 & H3 & _) (I1 & I2 & I3).
  unfold counters_ok, sent, data_waits in *.
  rewrite Hn, Ht, list_fmap_insert.
  rewrite (sumZ_insert (myNode.n_data_sent <$> Sim.nodes st) i
             (myNode.n_data_sent node))
    by (rewrite list_lookup_fmap, Ei; reflexivity).
  rewrite (sumZ_insert (_ <$> Sim.tasks st) i
             (if is_data_wait c then 1 else 0))
    by (rewrite list_lookup_fmap, Ec; reflexivity).
  destruct (is_data_wait c), (is_data_wait c'); lia.
Qed.

Lemma reachable_ledger (g : G.settings) (s0 st : Sim.t) :
  is_start g s0 -> reachable g s0 st -> gateway_list_ok st /\ counters_ok st.
Proof.
  intros (a & b & c & rs & ->) Hr.
  induction Hr as [| st d now i st' w Hr IH H].
  - split.
    + split; [constructor |]. intros j Hj. inversion Hj.
    + assert (E1 : sumZ ((fun c0 => if is_data_wait c0 then 1 else 0)
                          <$> replicate (length rs) pc_loop) = 0).
      { apply sumZ_zero. intros k x E. rewrite list_lookup_fmap in E.
        destruct (replicate (length rs) pc_loop !! k) as [c0 |] eqn:Ek;
          [| discriminate].
        apply lookup_replicate in Ek as [-> _]. injection E as <-.
        reflexivity. }
      assert (E2 : sumZ (myNode.n_data_sent
                         <$> imap (fun i r =>
                                     myNode.init g (Z.of_nat i) a b c r) rs)
                   = 0).
      { apply sumZ_zero. intros k x E.
        rewrite list_lookup_fmap, list_lookup_imap in E.
        destruct (rs !! k); [| discriminate]. injection E as <-.
        reflexivity. }
      unfold counters_ok, sent, data_waits, start.
      cbn [Sim.nodes Sim.tasks Sim.nrCollisions Sim.nrReceived].
      rewrite E1, E2. lia.
  - pose proof H as H'. unfold step in H'.
    destruct (Sim.nodes st !! i) as [node |] eqn:Ei; [| discriminate].
    destruct (Sim.tasks st !! i) as [c0 |] eqn:Ec; [| discriminate].
    clear H'.
    destruct (step_ledger g d now i st st' w node c0 H Ei Ec)
      as (c' & x & Ht & Hn & Hl).
    destruct IH as [IH1 IH2]. split.
    + eapply step_gateway_list; eauto.
    + eapply step_counters; eauto.
Qed.

(** X14.  At every instant of a run the list [packetsAtBS] holds no node
    twice and only nodes that are inside the airtime wait of an RTS or of a
    DATA packet; a node about to put a packet on the air is therefore never
    found in the list, and the branch that prints the error of lines
    1236-1237, 1419-1420 and 1560-1561 is never taken. *)
Theorem gateway_list_is_on_air (g : G.settings) (s0 st : Sim.t) :
  is_start g s0 -> reachable g s0 st ->
  NoDup (Sim.packetsAtBS st)
  /\ (forall j, j ∈ Sim.packetsAtBS st -> on_air_data st j \/ on_air_rts st j)
  /\ (forall i c, Sim.tasks st !! i = Some c -> is_wait c = false ->
        py_in i (Sim.packetsAtBS st) = false).
Proof.
  intros Hs Hr. destruct (reachable_ledger g s0 st Hs Hr) as [[Hnd Hin] _].
  split; [exact Hnd |]. split.
  - intros j Hj. destruct (Hin j Hj) as (c & Ec & Hc).
    unfold is_wait in Hc. apply orb_true_iff in Hc as [Hc | Hc];
      [left | right]; exists c; auto.
  - intros i c Ec Hc. destruct (py_in i (Sim.packetsAtBS st)) eqn:E;
      [| reflexivity].
    apply py_in_elem_of in E. destruct (Hin i E) as (c0 & E0 & H0).
    congruence.
Qed.

(** The two overlapping DATA packets of the two-node run are both in the
    list, each once. *)
Lemma gateway_list_is_on_air_witness :
  exists st,
    run G.source overlap_schedule two_nodes = Some st
    /\ Sim.packetsAtBS st = [1%nat; 0%nat]
    /\ NoDup (Sim.packetsAtBS st)
    /\ (on_air_data st 1%nat \/ on_air_rts st 1%nat).
Proof.
  destruct (run G.source overlap_schedule two_nodes) as [st |] eqn:E;
    [| vm_compute in E; discriminate].
  assert (Hp : Sim.packetsAtBS st = [1%nat; 0%nat]).
  { vm_compute in E. injection E as <-. reflexivity. }
  destruct (gateway_list_is_on_air G.source two_nodes st
              (is_start_start _ _ _ _ _) (run_from_start _ _ _ _ E))
    as (Hnd & Hin & _).
  exists st. split; [reflexivity |]. split; [exact Hp |].
  split; [exact Hnd |].
  apply Hin. rewrite Hp. apply elem_of_cons. left. reflexivity.
Defined.

Lemma data_waits_nonneg (tasks : list pc) : 0 <= data_waits tasks.
Proof.
  induction tasks as [| c l IH]; [discriminate |].
  change (data_waits (c :: l))
    with ((if is_data_wait c then 1 else 0) + data_waits l).
  destruct (is_data_wait c); lia.
Qed.

Lemma Qdiv_le_mono (a b c : Z) :
  0 < c -> a <= b -> (inject_Z a / inject_Z c <= inject_Z b / inject_Z c)%Q.
Proof.
  intros Hc Hab. unfold Qdiv. apply Qmult_le_compat_r.
  - rewrite <- Zle_Qle. exact Hab.
  - apply Qinv_le_0_compat. change 0%Q with (inject_Z 0).
    rewrite <- Zle_Qle. lia.
Qed.

(** X15.  At every instant of a run the counters of the report are
    consistent: [nrCollisions] and [nrReceived] are not negative and together
    do not exceed [sent], the sum of [n_data_sent] over the nodes (line
    1901).  So, once a DATA packet has been sent, the two data extraction
    rates of lines 1993-1997 are defined and
    0 <= DER method 2 <= DER <= 1. *)
Theorem der_between_0_and_1 (g : G.settings) (s0 st : Sim.t) :
  is_start g s0 -> reachable g s0 st ->
  0 <= Sim.nrCollisions st /\ 0 <= Sim.nrReceived st
  /\ Sim.nrCollisions st + Sim.nrReceived st <= sent st
  /\ (0 < sent st ->
      exists x y,
        der st = Some x /\ der_method2 st = Some y
        /\ (0 <= y)%Q /\ (y <= x)%Q /\ (x <= 1)%Q).
Proof.
  intros Hs Hr.
  destruct (reachable_ledger g s0 st Hs Hr) as [_ (I1 & I2 & I3)].
  pose proof (data_waits_nonneg (Sim.tasks st)) as Hw.
  split; [exact I1 |]. split; [exact I2 |]. split; [lia |].
  intros Hpos. unfold der, der_method2.
  destruct (Z.gtb_spec (sent st) 0) as [_ | Hle]; [| lia].
  eexists _, _. split; [reflexivity |]. split; [reflexivity |].
  split; [| split].
  - assert (E : (0 == inject_Z 0 / inject_Z (sent st))%Q).
    { unfold Qdiv. rewrite Qmult_0_l. reflexivity. }
    rewrite E. apply Qdiv_le_mono; lia.
  - apply Qdiv_le_mono; lia.
  - assert (E : (1 == inject_Z (sent st) / inject_Z (sent st))%Q).
    { unfold Qdiv. rewrite Qmult_inv_r; [reflexivity |].
      intros F. apply (inject_Z_injective (sent st) 0) in F. lia. }
    rewrite E. apply Qdiv_le_mono; lia.
Qed.

(** After the first of the two overlapping DATA packets has ended: two
    packets sent, one counted as collided, none received; DER is 1/2 and
    DER method 2 is 0. *)
Lemma der_between_0_and_1_witness :
  exists st x y,
    run G.source first_done two_nodes = Some st
    /\ sent st = 2 /\ Sim.nrCollisions st = 1
    /\ der st = Some x /\ der_method2 st = Some y
    /\ (0 <= y)%Q /\ (y <= x)%Q /\ (x <= 1)%Q.
Proof.
  destruct (run G.source first_done two_nodes) as [st |] eqn:E;
    [| vm_compute in E; discriminate].
  assert (Hv : sent st = 2 /\ Sim.nrCollisions st = 1).
  { vm_compute in E. injection E as <-. split; reflexivity. }
  destruct (der_between_0_and_1 G.source two_nodes st
              (is_start_start _ _ _ _ _) (run_from_start _ _ _ _ E))
    as (_ & _ & _ & Hder).
  destruct (Hder ltac:(lia)) as (x & y & Hx & Hy & Hb).
  exists st, x, y. split; [reflexivity |].
  split; [apply Hv |]. split; [apply Hv |].
  split; [exact Hx |]. split; [exact Hy |]. exact Hb.
Defined.

(** ** The radio configuration of a packet is never assigned *)

Lemma radio_gw (g : G.settings) (now : Q) (p : myPacket.t)
    (b : option bool) (c r d h : bool) (n : myNode.t) :
  radio_of (gw_effect g now p b c r d h n) = radio_of n.
Proof.
  unfold gw_effect, hint_set, clear, touch.
  destruct b as [v |], c, r, d, h, (myPacket.ptype p); reflexivity.
Qed.

Lemma arrive_radio (g : G.settings) (now : Q) (i : nat) (st st' : Sim.t) :
  arrive g now i st = Some st' ->
  radio_of <$> Sim.nodes st' = radio_of <$> Sim.nodes st.
Proof.
  unfold arrive. intros H.
  destruct (py_in i (Sim.packetsAtBS st)); [inversion H; reflexivity |].
  destruct (Sim.nodes st !! i) as [node |] eqn:Ei; [| discriminate].
  simpl in H.
  destruct (sensitivity _ _) as [sens |]; [| discriminate]. simpl in H.
  destruct (Qltb _ _).
  - inversion H; subst; clear H. unfold Sim.upd. simpl.
    apply alter_frame. reflexivity.
  - unfold Sim.upd in H. simpl in H.
    destruct (checkcollision _ _ _ _ _) as [nodes2 col] eqn:Ecc.
    inversion H; subst; clear H. simpl.
    rewrite alter_frame by reflexivity.
    erewrite (checkcollision_frame radio_of radio_gw);
      [| exact Ecc | rewrite list_lookup_alter_eq, Ei; reflexivity].
    apply alter_frame. reflexivity.
Qed.

Lemma arrive_noCA_radio (g : G.settings) (now : Q) (i : nat)
    (st st' : Sim.t) :
  arrive_noCA g now i st = Some st' ->
  radio_of <$> Sim.nodes st' = radio_of <$> Sim.nodes st.
Proof.
  unfold arrive_noCA. intros H.
  destruct (py_in i (Sim.packetsAtBS st)); [inversion H; reflexivity |].
  destruct (Sim.nodes st !! i) as [node |] eqn:Ei; [| discriminate].
  simpl in H.
  destruct (sensitivity _ _) as [sens |]; [| discriminate]. simpl in H.
  destruct (Qltb _ _).
  - inversion H; subst; clear H. unfold Sim.upd. simpl.
    apply alter_frame. reflexivity.
  - unfold Sim.upd in H. simpl in H.
    destruct (checkcollision _ _ _ _ _) as [nodes2 col] eqn:Ecc.
    destruct col; inversion H; subst; clear H; simpl;
      rewrite !alter_frame by reflexivity;
      (erewrite (checkcollision_frame radio_of radio_gw);
         [| exact Ecc | rewrite list_lookup_alter_eq, Ei; reflexivity]);
      apply alter_frame; reflexivity.
Qed.

Lemma leave_radio (i : nat) (st : Sim.t) :
  radio_of <$> Sim.nodes (leave i st) = radio_of <$> Sim.nodes st.
Proof.
  unfold leave.
  destruct (py_in i (Sim.packetsAtBS st)); unfold Sim.upd; simpl;
    apply alter_frame; reflexivity.
Qed.

Lemma insert_radio (i : nat) (node node' : myNode.t) (l : list myNode.t) :
  l !! i = Some node -> radio_of node' = radio_of node ->
  radio_of <$> <[i := node']> l = radio_of <$> l.
Proof.
  intros Ei E. rewrite list_fmap_insert, E. apply list_insert_id.
  rewrite list_lookup_fmap, Ei. reflexivity.
Qed.

Ltac rd_local Ei :=
  cbn; first [reflexivity | apply (insert_radio _ _ _ _ Ei); reflexivity].

Ltac rd_arrival H Ei :=
  match type of H with
  | context [?arr ?g ?now ?i (Sim.put ?i ?node1 ?st)] =>
      let st1 := fresh "st1" in
      let Ea := fresh "Ea" in
      destruct (arr g now i (Sim.put i node1 st)) as [st1 |] eqn:Ea;
      [| discriminate H];
      simpl in H; injection H as <- _;
      cbn;
      lazymatch type of Ea with
      | arrive _ _ _ _ = _ => rewrite (arrive_radio _ _ _ _ _ Ea)
      | arrive_noCA _ _ _ _ = _ => rewrite (arrive_noCA_radio _ _ _ _ _ Ea)
      end;
      cbn; apply (insert_radio _ _ _ _ Ei); reflexivity
  end.

(** No step assigns the radio configuration of a packet. *)
Lemma step_radio (g : G.settings) (d : draws) (now : Q) (i : nat)
    (st st' : Sim.t) (w : option Q) :
  step g d now i st = Some (st', w) ->
  radio_of <$> Sim.nodes st' = radio_of <$> Sim.nodes st.
Proof.
  intros H. unfold step in H.
  destruct (Sim.nodes st !! i) as [node |] eqn:Ei; [| discriminate].
  destruct (Sim.tasks st !! i) as [c |] eqn:Ec; [| discriminate].
  simpl in H. destruct c.
  - unfold block_schedule_tx, block_nc_schedule, next in H.
    split_ifs H; injection H as <- _; rd_local Ei.
  - unfold block_want_transmit, cca_want_transmit, draw_backoff, grow_BE,
      count_transmit, next in H.
    split_ifs H; injection H as <- _; rd_local Ei.
  - unfold block_start_CA, start_listen, next in H.
    split_ifs H; injection H as <- _; rd_local Ei.
  - unfold block_listen1, next in H.
    destruct (nav_after_data _ _ _ _ node) as [node1 w1] eqn:E.
    apply (f_equal fst) in E. rewrite nav_after_data_fst in E.
    simpl in E. subst node1.
    split_ifs H; injection H as <- _; rd_local Ei.
  - unfold block_listen1_rts, nav_after_rts, next in H.
    split_ifs H; injection H as <- _; rd_local Ei.
  - unfold block_phase2_backoff, next in H.
    split_ifs H; injection H as <- _; rd_local Ei.
  - unfold block_rts_loop, send_rts, cca_rts, draw_backoff, grow_BE, next in H.
    split_ifs H; first [rd_arrival H Ei | injection H as <- _; rd_local Ei].
  - unfold block_rts_sent, next in H. injection H as <- _.
    rewrite nodes_goto, leave_radio.
    rewrite (proj1 (count_rts_parts _ _)). reflexivity.
  - unfold block_phase2_rts, start_listen, next in H.
    split_ifs H; injection H as <- _; rd_local Ei.
  - unfold block_listen2, next in H.
    destruct (nav_after_data _ _ _ _ node) as [node1 w1] eqn:E.
    apply (f_equal fst) in E. rewrite nav_after_data_fst in E.
    simpl in E. subst node1.
    split_ifs H; injection H as <- _; rd_local Ei.
  - unfold block_listen2_rts, nav_after_rts, next in H.
    split_ifs H; injection H as <- _; rd_local Ei.
  - unfold block_phase3_backoff, next in H.
    split_ifs H; injection H as <- _; rd_local Ei.
  - unfold block_phase3_transmit, cca_phase3, next in H.
    split_ifs H; first [rd_arrival H Ei | injection H as <- _; rd_local Ei].
  - unfold block_data_sent, next in H. injection H as <- _.
    rewrite nodes_goto, nodes_upd, alter_frame by reflexivity.
    rewrite leave_radio, (proj1 (count_data_parts _ _)). reflexivity.
  - unfold block_start_nav, next in H.
    split_ifs H; injection H as <- _; rd_local Ei.
  - unfold block_end, next in H.
    split_ifs H; injection H as <- _; rd_local Ei.
  - unfold block_nc_wait, count_transmit, next in H.
    split_ifs H; injection H as <- _; rd_local Ei.
  - unfold block_nc_loop, nc_after_loop, cca_noCA, draw_backoff, grow_BE, next
      in H.
    split_ifs H; first [rd_arrival H Ei | injection H as <- _; rd_local Ei].
  - unfold block_nc_sent, next in H. injection H as <- _.
    rewrite nodes_goto, nodes_upd, alter_frame by reflexivity.
    rewrite leave_radio, (proj1 (count_data_parts _ _)). reflexivity.
  - discriminate.
Qed.

Lemma reachable_radio (g : G.settings) (a b c : Z)
    (rs : list myPacket.radio) (st : Sim.t) :
  reachable g (start g a b c rs) st -> radio_of <$> Sim.nodes st = rs.
Proof.
  intros Hr. induction Hr as [| st d now i st' w Hr IH H].
  - unfold start. cbn [Sim.nodes]. apply list_eq. intros k.
    rewrite list_lookup_fmap, list_lookup_imap.
    destruct (rs !! k) as [r |]; [| reflexivity]. destruct r. reflexivity.
  - rewrite (step_radio g d now i st st' w H). exact IH.
Qed.

Lemma radio_at (g : G.settings) (a b c : Z) (rs : list myPacket.radio)
    (st : Sim.t) (k : nat) (n : myNode.t) :
  reachable g (start g a b c rs) st -> Sim.nodes st !! k = Some n ->
  rs !! k = Some (radio_of n).
Proof.
  intros Hr Ek. rewrite <- (reachable_radio g a b c rs st Hr).
  rewrite list_lookup_fmap, Ek. reflexivity.
Qed.

(** X16.  No step of a run assigns the radio configuration of a packet
    (transmission power, SF, bandwidth, coding rate, received power,
    carrier): at every instant the packet of node [k] has the configuration
    it was built with.  So, when the configurations of the start are in the
    sensitivity table, the lookup
    [sensi[sf - 6, [125,250,500].index(bw) + 1]] of lines 1239-1242,
    1422-1425 and 1563-1566 is defined for the packet of every node at every
    instant.  (Nothing is stated of the other statements of [transmit] that
    can raise.) *)
Theorem radio_is_never_assigned (g : G.settings) (a b c : Z)
    (rs : list myPacket.radio) (st : Sim.t) (k : nat) (n : myNode.t) :
  reachable g (start g a b c rs) st -> Sim.nodes st !! k = Some n ->
  rs !! k = Some (radio_of n)
  /\ ((forall r, r ∈ rs ->
         in_table (G.lora24GHz g) (myPacket.r_sf r) (myPacket.r_bw r)) ->
      exists s,
        sensitivity (G.lora24GHz g) (myNode.packet n) = Some s
        /\ (-134.5 <= s <= -99)%Q).
Proof.
  intros Hr Ek. pose proof (radio_at g a b c rs st k n Hr Ek) as E.
  split; [exact E |]. intros Hrs.
  apply sensitivity_in_table.
  apply (Hrs (radio_of n)). eapply list_elem_of_lookup_2, E.
Qed.

(** Node 1 of the two-node run after its busy assessment, its backoff and
    its entry into the CA procedure: still SF12 at 125 kHz, received at
    -100 dBm on 860 MHz, with a sensitivity of -133.25 dBm. *)
Lemma radio_is_never_assigned_witness :
  exists st n,
    run G.source busy_schedule two_nodes = Some st
    /\ Sim.nodes st !! 1%nat = Some n
    /\ radio_of n = example_radio
    /\ exists s,
         sensitivity false (myNode.packet n) = Some s
         /\ (-134.5 <= s <= -99)%Q.
Proof.
  destruct (run G.source busy_schedule two_nodes) as [st |] eqn:E;
    [| vm_compute in E; discriminate].
  destruct (Sim.nodes st !! 1%nat) as [n |] eqn:En;
    [| vm_compute in E; injection E as <-; vm_compute in En; discriminate].
  destruct (radio_is_never_assigned G.source 20000 expoDistribType 104
              (replicate 2 example_radio) st 1%nat n
              (run_from_start _ _ _ _ E) En) as [Hr Hs].
  exists st, n. split; [reflexivity |]. split; [exact En |]. split.
  - simpl in Hr. congruence.
  - apply Hs. intros r Hin. apply elem_of_replicate in Hin as [-> _].
    split; [vm_compute; split; discriminate | left; reflexivity].
Defined.

(** ** The frequency test on the packets of a run *)

Lemma choice_of_three (u x y z : Z) :
  choice u [x; y; z] = x \/ choice u [x; y; z] = y \/ choice u [x; y; z] = z.
Proof.
  unfold choice. cbn [length].
  pose proof (Z.mod_pos_bound u (Z.of_nat 3) ltac:(lia)) as Hb.
  assert (Hc : u mod Z.of_nat 3 = 0 \/ u mod Z.of_nat 3 = 1
               \/ u mod Z.of_nat 3 = 2) by lia.
  destruct Hc as [-> | [-> | ->]]; auto.
Qed.

(** Two carriers of [__init__] in the same band and experiment are equal or
    at least 4 MHz apart. *)
Lemma init_freq_apart (lora24GHz : bool) (experiment u1 u2 v1 v2 : Z) :
  init_freq lora24GHz experiment u1 u2 = init_freq lora24GHz experiment v1 v2
  \/ 4000000 <= Z.abs (init_freq lora24GHz experiment u1 u2
                        - init_freq lora24GHz experiment v1 v2).
Proof.
  unfold init_freq. destruct (experiment =? 1), lora24GHz; auto.
  - destruct (choice_of_three u2 2403000000 2425000000 2479000000)
      as [-> | [-> | ->]],
      (choice_of_three v2 2403000000 2425000000 2479000000)
      as [-> | [-> | ->]]; auto; right; lia.
  - destruct (choice_of_three u2 860000000 864000000 868000000)
      as [-> | [-> | ->]],
      (choice_of_three v2 860000000 864000000 868000000)
      as [-> | [-> | ->]]; auto; right; lia.
Qed.

(** On carriers that are equal or at least 4 MHz apart the function answers
    as the rule does, in both readings of its unit: True exactly for equal
    carriers. *)
Lemma frequencyCollision_apart (p1 p2 : myPacket.t) :
  myPacket.freq p1 = myPacket.freq p2
  \/ 4000000 <= Z.abs (myPacket.freq p1 - myPacket.freq p2) ->
  frequencyCollision p1 p2 = frequencyCollision_spec_kHz p1 p2
  /\ frequencyCollision p1 p2 = frequencyCollision_spec p1 p2
  /\ (frequencyCollision p1 p2 = true <-> myPacket.freq p1 = myPacket.freq p2).
Proof.
  intros H. unfold frequencyCollision, frequencyCollision_spec_kHz,
    frequencyCollision_spec.
  destruct H as [E | Hfar].
  - rewrite E, Z.sub_diag. cbn [Z.abs Z.leb Z.compare].
    destruct (Qeq_bool (myPacket.bw p1) 500), (Qeq_bool (myPacket.bw p2) 500),
      (Qeq_bool (myPacket.bw p1) 250), (Qeq_bool (myPacket.bw p2) 250),
      (myPacket.freq p2 =? 500), (myPacket.freq p2 =? 250);
      cbn; repeat split; auto.
  - assert (Hne : myPacket.freq p1 <> myPacket.freq p2) by lia.
    destruct (Z.leb_spec (Z.abs (myPacket.freq p1 - myPacket.freq p2)) 120),
      (Z.leb_spec (Z.abs (myPacket.freq p1 - myPacket.freq p2)) 60),
      (Z.leb_spec (Z.abs (myPacket.freq p1 - myPacket.freq p2)) 30),
      (Z.leb_spec (Z.abs (myPacket.freq p1 - myPacket.freq p2)) 120000),
      (Z.leb_spec (Z.abs (myPacket.freq p1 - myPacket.freq p2)) 60000),
      (Z.leb_spec (Z.abs (myPacket.freq p1 - myPacket.freq p2)) 30000);
      try lia.
    cbn. repeat split; auto; try discriminate; try contradiction.
Qed.

(** C1.  For every two packets of a run, in particular the arriving packet
    and a packet at the gateway, [frequencyCollision] returns True exactly
    when the rule of the design does: carriers at most 120 kHz apart and a
    bandwidth of 500 on either packet, or else at most 60 kHz apart and a
    bandwidth of 250 on either packet, or else at most 30 kHz apart.  The
    carriers are those [__init__] assigns (lines 841-857: equal, or 4 MHz or
    more apart) and no step assigns [freq]; so the answer is True exactly
    for packets on the same carrier, whether the windows are read in kHz or
    in the unit of [freq], and the branches that read [p2.freq] where the
    bandwidth of [p2] is meant never decide. *)
Theorem frequencyCollision_in_flight (g : G.settings) (a b c : Z)
    (rs : list myPacket.radio) (st : Sim.t) (j k : nat) (n1 n2 : myNode.t) :
  on_carriers g rs -> reachable g (start g a b c rs) st ->
  Sim.nodes st !! j = Some n1 -> Sim.nodes st !! k = Some n2 ->
  let p1 := myNode.packet n1 in
  let p2 := myNode.packet n2 in
  frequencyCollision p1 p2 = frequencyCollision_spec_kHz p1 p2
  /\ frequencyCollision p1 p2 = frequencyCollision_spec p1 p2
  /\ (frequencyCollision p1 p2 = true <-> myPacket.freq p1 = myPacket.freq p2).
Proof.
  intros Hc Hr Ej Ek p1 p2. apply frequencyCollision_apart.
  pose proof (radio_at g a b c rs st j n1 Hr Ej) as E1.
  pose proof (radio_at g a b c rs st k n2 Hr Ek) as E2.
  destruct (Hc _ (list_elem_of_lookup_2 _ _ _ E1)) as (u1 & u2 & F1).
  destruct (Hc _ (list_elem_of_lookup_2 _ _ _ E2)) as (v1 & v2 & F2).
  cbn in F1, F2. unfold p1, p2. rewrite F1, F2. apply init_freq_apart.
Qed.

(** The two overlapping DATA packets of the two-node run: both on
    860 MHz, in collision for the function and for the rule. *)
Lemma frequencyCollision_in_flight_witness :
  exists st n1 n2,
    run G.source overlap_schedule two_nodes = Some st
    /\ Sim.nodes st !! 0%nat = Some n1 /\ Sim.nodes st !! 1%nat = Some n2
    /\ frequencyCollision (myNode.packet n1) (myNode.packet n2) = true
    /\ frequencyCollision_spec_kHz (myNode.packet n1) (myNode.packet n2)
       = true.
Proof.
  destruct (run G.source overlap_schedule two_nodes) as [st |] eqn:E;
    [| vm_compute in E; discriminate].
  destruct (Sim.nodes st !! 0%nat) as [n1 |] eqn:E1;
    [| vm_compute in E; injection E as <-; vm_compute in E1; discriminate].
  destruct (Sim.nodes st !! 1%nat) as [n2 |] eqn:E2;
    [| vm_compute in E; injection E as <-; vm_compute in E2; discriminate].
  assert (Hc : on_carriers G.source (replicate 2 example_radio)).
  { intros r Hin. apply elem_of_replicate in Hin as [-> _].
    exists 0, 0. reflexivity. }
  destruct (frequencyCollision_in_flight G.source 20000 expoDistribType 104
              (replicate 2 example_radio) st 0%nat 1%nat n1 n2 Hc
              (run_from_start _ _ _ _ E) E1 E2) as (Hk & _ & Hsame).
  assert (Ht : frequencyCollision (myNode.packet n1) (myNode.packet n2)
               = true).
  { apply Hsame. vm_compute in E. injection E as <-.
    vm_compute in E1. injection E1 as <-.
    vm_compute in E2. injection E2 as <-. reflexivity. }
  exists st, n1, n2. split; [reflexivity |]. split; [exact E1 |].
  split; [exact E2 |]. split; [exact Ht |]. rewrite <- Hk. exact Ht.
Defined.


(** ** The gateway does not read the statistics of the assessments *)

Lemma forget_cca_idem (n : myNode.t) : forget_cca (forget_cca n) = forget_cca n.
Proof. reflexivity. Qed.

Lemma fmap_forget_idem (l : list myNode.t) :
  forget_cca <$> (forget_cca <$> l) = forget_cca <$> l.
Proof.
  rewrite <- list_fmap_compose. apply list_fmap_ext. intros k n _.
  reflexivity.
Qed.

Lemma alter_forget (h : myNode.t -> myNode.t) (i : nat) (l : list myNode.t) :
  (forall n, h (forget_cca n) = forget_cca (h n)) ->
  alter h i (forget_cca <$> l) = forget_cca <$> alter h i l.
Proof.
  intros Hh. symmetry. apply list_fmap_alter.
  apply Forall_forall. intros n _. symmetry. apply Hh.
Qed.

Lemma insert_forget (i : nat) (n : myNode.t) (l : list myNode.t) :
  forget_cca <$> <[i := n]> l = <[i := forget_cca n]> (forget_cca <$> l).
Proof. apply list_fmap_insert. Qed.

Lemma is_processed_forget (nodes : list myNode.t) (i : nat) :
  is_processed (forget_cca <$> nodes) i = is_processed nodes i.
Proof.
  unfold is_processed. rewrite list_lookup_fmap.
  destruct (nodes !! i); reflexivity.
Qed.

Lemma count_processed_forget (nodes : list myNode.t) (packetsAtBS : list nat) :
  count_processed (forget_cca <$> nodes) packetsAtBS
  = count_processed nodes packetsAtBS.
Proof.
  induction packetsAtBS as [| j rest IH]; [reflexivity |].
  simpl. rewrite is_processed_forget, IH. reflexivity.
Qed.

Lemma mark_processed_forget (g : G.settings) (packetsAtBS : list nat)
    (self : nat) (nodes : list myNode.t) :
  mark_processed g packetsAtBS self (forget_cca <$> nodes)
  = forget_cca <$> mark_processed g packetsAtBS self nodes.
Proof.
  unfold mark_processed. rewrite count_processed_forget.
  destruct (_ >? _); apply alter_forget; reflexivity.
Qed.

Lemma mark_collided_forget (i : nat) (nodes : list myNode.t) :
  mark_collided i (forget_cca <$> nodes)
  = forget_cca <$> mark_collided i nodes.
Proof. apply alter_forget. reflexivity. Qed.

Lemma collide_with_forget (g : G.settings) (now : Q) (self other : nat)
    (nodes : list myNode.t) (col : bool) :
  collide_with g now self (forget_cca <$> nodes, col) other
  = (forget_cca <$> (collide_with g now self (nodes, col) other).1,
     (collide_with g now self (nodes, col) other).2).
Proof.
  unfold collide_with. rewrite !list_lookup_fmap.
  destruct (nodes !! self) as [s |]; [| reflexivity].
  destruct (nodes !! other) as [o |]; [| reflexivity].
  cbn [fmap option_fmap option_map].
  change (myNode.packet (forget_cca s)) with (myNode.packet s).
  change (myNode.packet (forget_cca o)) with (myNode.packet o).
  change (myNode.nodeid (forget_cca o)) with (myNode.nodeid o).
  destruct (negb _); [| reflexivity].
  destruct (_ && _); [| reflexivity].
  destruct (G.full_collision g).
  - destruct (timingCollision _ _ _); [| reflexivity].
    destruct (powerCollision _ _) as [[|] [|]]; cbn [fst snd];
      rewrite ?mark_collided_forget; reflexivity.
  - cbn [fst snd]. rewrite !mark_collided_forget. reflexivity.
Qed.

Lemma pairwise_forget (g : G.settings) (now : Q) (self : nat)
    (packetsAtBS : list nat) :
  forall (nodes : list myNode.t) (col : bool),
    foldl (collide_with g now self) (forget_cca <$> nodes, col) packetsAtBS
    = (forget_cca
         <$> (foldl (collide_with g now self) (nodes, col) packetsAtBS).1,
       (foldl (collide_with g now self) (nodes, col) packetsAtBS).2).
Proof.
  induction packetsAtBS as [| other rest IH]; intros nodes col;
    [reflexivity |].
  cbn [foldl]. rewrite collide_with_forget.
  destruct (collide_with g now self (nodes, col) other) as [nodes1 col1].
  apply IH.
Qed.

Lemma cancel_one_forget (o n : myNode.t) :
  cancel_one (forget_cca o) (forget_cca n) = forget_cca (cancel_one o n).
Proof.
  unfold cancel_one.
  change (myNode.packet (forget_cca o)) with (myNode.packet o).
  change (myNode.nodeid (forget_cca o)) with (myNode.nodeid o).
  change (myNode.receive_rts (forget_cca n)) with (myNode.receive_rts n).
  change (myNode.receive_rts_from (forget_cca n))
    with (myNode.receive_rts_from n).
  destruct (myNode.receive_rts n && _ && _); cbn;
    destruct (_ && _ && _); reflexivity.
Qed.

Lemma cancel_hints_forget (packetsAtBS : list nat) :
  forall nodes : list myNode.t,
    cancel_hints packetsAtBS (forget_cca <$> nodes)
    = forget_cca <$> cancel_hints packetsAtBS nodes.
Proof.
  induction packetsAtBS as [| j rest IH]; intros nodes; [reflexivity |].
  rewrite !cancel_hints_cons, list_lookup_fmap.
  destruct (nodes !! j) as [o |]; cbn [fmap option_fmap option_map];
    [| apply IH].
  rewrite <- IH. f_equal.
  rewrite <- !list_fmap_compose. apply list_fmap_ext. intros k n _.
  apply cancel_one_forget.
Qed.

Lemma hint_one_forget (g : G.settings) (now : Q) (p : myPacket.t)
    (n : myNode.t) :
  hint_one g now p (forget_cca n) = forget_cca (hint_one g now p n).
Proof.
  unfold hint_one, myNode.listening.
  change (myNode.nodeid (forget_cca n)) with (myNode.nodeid n).
  change (myNode.ca_state (forget_cca n)) with (myNode.ca_state n).
  change (myNode.receive_rts (forget_cca n)) with (myNode.receive_rts n).
  change (myNode.receive_data (forget_cca n)) with (myNode.receive_data n).
  destruct (negb _); [| reflexivity].
  destruct (_ || _); [| reflexivity].
  destruct (_ && _); [| reflexivity].
  destruct (myPacket.ptype p); reflexivity.
Qed.

Lemma propagate_hints_forget (g : G.settings) (now : Q) (self : nat)
    (nodes : list myNode.t) :
  propagate_hints g now self (forget_cca <$> nodes)
  = forget_cca <$> propagate_hints g now self nodes.
Proof.
  unfold propagate_hints. rewrite list_lookup_fmap.
  destruct (nodes !! self) as [s |]; [| reflexivity].
  cbn [fmap option_fmap option_map].
  change (myNode.packet (forget_cca s)) with (myNode.packet s).
  rewrite <- !list_fmap_compose. apply list_fmap_ext. intros k n _.
  apply hint_one_forget.
Qed.

Lemma checkcollision_forget (g : G.settings) (now : Q)
    (packetsAtBS : list nat) (self : nat) (nodes : list myNode.t) :
  checkcollision g now packetsAtBS self (forget_cca <$> nodes)
  = (forget_cca <$> (checkcollision g now packetsAtBS self nodes).1,
     (checkcollision g now packetsAtBS self nodes).2).
Proof.
  unfold checkcollision, pairwise.
  rewrite mark_processed_forget, pairwise_forget.
  destruct (foldl _ _ _) as [nodes1 col1]. cbn [fst snd].
  destruct (G.CA g), col1; cbn [fst snd];
    rewrite ?cancel_hints_forget, ?propagate_hints_forget; reflexivity.
Qed.

(** ** The operations on the state commute with [forget] *)

Lemma forget_idem (st : Sim.t) : forget (forget st) = forget st.
Proof. unfold forget. cbn. rewrite fmap_forget_idem. reflexivity. Qed.

Lemma forget_goto (i : nat) (c : pc) (st : Sim.t) :
  forget (Sim.goto i c st) = Sim.goto i c (forget st).
Proof. reflexivity. Qed.

Lemma forget_put (i : nat) (n : myNode.t) (st : Sim.t) :
  forget (Sim.put i n st) = Sim.put i (forget_cca n) (forget st).
Proof. unfold forget, Sim.put. cbn. rewrite insert_forget. reflexivity. Qed.

Lemma forget_upd (i : nat) (h : myNode.t -> myNode.t) (st : Sim.t) :
  (forall n, h (forget_cca n) = forget_cca (h n)) ->
  forget (Sim.upd i h st) = Sim.upd i h (forget st).
Proof.
  intros Hh. unfold forget, Sim.upd. cbn.
  rewrite (alter_forget h i _ Hh). reflexivity.
Qed.

Lemma forget_set_nodes (l : list myNode.t) (st : Sim.t) :
  forget (Sim.set_nodes l st) = Sim.set_nodes (forget_cca <$> l) (forget st).
Proof. reflexivity. Qed.

Lemma forget_set_packetsAtBS (l : list nat) (st : Sim.t) :
  forget (Sim.set_packetsAtBS l st) = Sim.set_packetsAtBS l (forget st).
Proof. reflexivity. Qed.

Lemma forget_busy_rts (b : bool) (st : Sim.t) :
  forget (Sim.set_channel_busy_rts b st)
  = Sim.set_channel_busy_rts b (forget st).
Proof. reflexivity. Qed.

Lemma forget_busy_data (b : bool) (st : Sim.t) :
  forget (Sim.set_channel_busy_data b st)
  = Sim.set_channel_busy_data b (forget st).
Proof. reflexivity. Qed.

Lemma forget_endSim (t : Q) (st : Sim.t) :
  forget (Sim.set_endSim t st) = Sim.set_endSim t (forget st).
Proof. reflexivity. Qed.

Lemma forget_count_transmit (now : Q) (st : Sim.t) :
  forget (count_transmit now st) = count_transmit now (forget st).
Proof.
  unfold count_transmit. cbn. destruct (_ >? _); reflexivity.
Qed.

Lemma forget_count_rts (p : myPacket.t) (st : Sim.t) :
  forget (count_rts p st) = count_rts p (forget st).
Proof.
  unfold count_rts.
  destruct (myPacket.lost p), (myPacket.collided p), (myPacket.processed p);
    reflexivity.
Qed.

Lemma forget_count_data (p : myPacket.t) (st : Sim.t) :
  forget (count_data p st) = count_data p (forget st).
Proof.
  unfold count_data.
  destruct (myPacket.lost p), (myPacket.collided p), (myPacket.processed p);
    reflexivity.
Qed.

Lemma forget_leave (i : nat) (st : Sim.t) :
  forget (leave i st) = leave i (forget st).
Proof.
  unfold leave.
  change (Sim.packetsAtBS (forget st)) with (Sim.packetsAtBS st).
  destruct (py_in i (Sim.packetsAtBS st));
    rewrite forget_upd by reflexivity; reflexivity.
Qed.

Lemma forget_arrive (g : G.settings) (now : Q) (i : nat) (st : Sim.t) :
  arrive g now i (forget st) = forget <$> arrive g now i st.
Proof.
  unfold arrive.
  change (Sim.packetsAtBS (forget st)) with (Sim.packetsAtBS st).
  destruct (py_in i (Sim.packetsAtBS st)); [reflexivity |].
  change (Sim.nodes (forget st)) with (forget_cca <$> Sim.nodes st).
  rewrite list_lookup_fmap.
  destruct (Sim.nodes st !! i) as [node |]; [| reflexivity].
  cbn [fmap option_fmap option_map mbind option_bind].
  change (myNode.packet (forget_cca node)) with (myNode.packet node).
  destruct (sensitivity _ _) as [sens |]; [| reflexivity].
  cbn [mbind option_bind].
  destruct (Qltb _ _).
  - cbn [fmap option_fmap option_map].
    rewrite forget_upd by reflexivity. reflexivity.
  - rewrite <- !forget_upd by reflexivity.
    change (Sim.packetsAtBS (forget ?s)) with (Sim.packetsAtBS s).
    change (Sim.nodes (forget ?s)) with (forget_cca <$> Sim.nodes s).
    rewrite checkcollision_forget.
    destruct (checkcollision _ _ _ _ _) as [nodes col].
    cbn [fst snd fmap option_fmap option_map].
    repeat first [ rewrite forget_upd by reflexivity
                 | rewrite forget_set_packetsAtBS
                 | rewrite forget_set_nodes ].
    reflexivity.
Qed.

Lemma forget_arrive_noCA (g : G.settings) (now : Q) (i : nat) (st : Sim.t) :
  arrive_noCA g now i (forget st) = forget <$> arrive_noCA g now i st.
Proof.
  unfold arrive_noCA.
  change (Sim.packetsAtBS (forget st)) with (Sim.packetsAtBS st).
  destruct (py_in i (Sim.packetsAtBS st)); [reflexivity |].
  change (Sim.nodes (forget st)) with (forget_cca <$> Sim.nodes st).
  rewrite list_lookup_fmap.
  destruct (Sim.nodes st !! i) as [node |]; [| reflexivity].
  cbn [fmap option_fmap option_map mbind option_bind].
  change (myNode.packet (forget_cca node)) with (myNode.packet node).
  destruct (sensitivity _ _) as [sens |]; [| reflexivity].
  cbn [mbind option_bind].
  destruct (Qltb _ _).
  - cbn [fmap option_fmap option_map].
    rewrite forget_upd by reflexivity. reflexivity.
  - rewrite <- !forget_upd by reflexivity.
    change (Sim.packetsAtBS (forget ?s)) with (Sim.packetsAtBS s).
    change (Sim.nodes (forget ?s)) with (forget_cca <$> Sim.nodes s).
    rewrite checkcollision_forget.
    destruct (checkcollision _ _ _ _ _) as [nodes col].
    cbn [fst snd fmap option_fmap option_map].
    destruct col;
      repeat first [ rewrite forget_upd by reflexivity
                   | rewrite forget_set_packetsAtBS
                   | rewrite forget_set_nodes ];
      reflexivity.
Qed.

(** ** With [CCA_prob = 0] the two switches do not matter *)

Lemma cca_detects_off (g : G.settings) (d : draws) :
  G.CCA_prob g = 0 -> cca_detects g d = false.
Proof. unfold cca_detects. intros ->. apply andb_false_r. Qed.

Ltac restat_tac :=
  cbv beta iota zeta delta [orb];
  match goal with
  | |- exists a b c e, (?N, _) = _ =>
      exists (myNode.n_cca N), (myNode.n_busy_rts N),
        (myNode.n_busy_rts_p1 N), (myNode.n_busy_data N);
      reflexivity
  end.

Lemma cca_want_transmit_off (g : G.settings) (d : draws) (st : Sim.t)
    (n : myNode.t) :
  G.CCA_prob g = 0 ->
  exists a b c e, cca_want_transmit g d st n = (restat a b c e n, false).
Proof.
  intros H. unfold cca_want_transmit. rewrite (cca_detects_off g d H).
  destruct n.
  destruct (G.check_busy g), (Sim.channel_busy_rts st),
    (Sim.channel_busy_data st); restat_tac.
Qed.

Lemma cca_rts_off (g : G.settings) (d : draws) (st : Sim.t) (n : myNode.t) :
  G.CCA_prob g = 0 ->
  exists a b c e, cca_rts g d st n = (restat a b c e n, false).
Proof.
  intros H. unfold cca_rts. rewrite (cca_detects_off g d H).
  destruct n.
  destruct (G.check_busy_rts g), (Sim.channel_busy_rts st),
    (Sim.channel_busy_data st); restat_tac.
Qed.

Lemma cca_phase3_off (g : G.settings) (d : draws) (st : Sim.t) (n : myNode.t) :
  G.CCA_prob g = 0 ->
  exists a b c e, cca_phase3 g d st n = (restat a b c e n, false).
Proof.
  intros H. unfold cca_phase3. rewrite (cca_detects_off g d H).
  destruct n.
  destruct (G.check_busy g), (Sim.channel_busy_rts st),
    (Sim.channel_busy_data st); restat_tac.
Qed.

Lemma cca_noCA_off (g : G.settings) (d : draws) (st : Sim.t) (n : myNode.t) :
  G.CCA_prob g = 0 ->
  exists a b c e, cca_noCA g d st n = (restat a b c e n, false).
Proof.
  intros H. unfold cca_noCA. rewrite (cca_detects_off g d H).
  destruct n.
  destruct (G.check_busy g), (Sim.channel_busy_data st);
    restat_tac.
Qed.

Lemma arrive_equiv (g : G.settings) (now : Q) (i : nat) (sa sb : Sim.t) :
  forget sa = forget sb ->
  forget <$> arrive g now i sa = forget <$> arrive g now i sb.
Proof. intros E. rewrite <- !forget_arrive, E. reflexivity. Qed.

Lemma arrive_noCA_equiv (g : G.settings) (now : Q) (i : nat)
    (sa sb : Sim.t) :
  forget sa = forget sb ->
  forget <$> arrive_noCA g now i sa = forget <$> arrive_noCA g now i sb.
Proof. intros E. rewrite <- !forget_arrive_noCA, E. reflexivity. Qed.

Lemma arrive_unchecked (b1 b2 : bool) (g : G.settings) (now : Q) (i : nat)
    (st : Sim.t) :
  arrive (unchecked b1 b2 g) now i st = arrive g now i st.
Proof. reflexivity. Qed.

Lemma arrive_noCA_unchecked (b1 b2 : bool) (g : G.settings) (now : Q)
    (i : nat) (st : Sim.t) :
  arrive_noCA (unchecked b1 b2 g) now i st = arrive_noCA g now i st.
Proof. reflexivity. Qed.

Lemma bind_forget (a1 a2 : option Sim.t) (k1 k2 : Sim.t -> result) :
  forget <$> a1 = forget <$> a2 ->
  (forall s1 s2, forget s1 = forget s2 ->
     forget_result (k1 s1) = forget_result (k2 s2)) ->
  forget_result (a1 ≫= k1) = forget_result (a2 ≫= k2).
Proof.
  intros E Hk. destruct a1 as [s1 |], a2 as [s2 |]; try discriminate;
    [| reflexivity].
  apply Hk. exact (f_equal (from_option id (forget s1)) E).
Qed.

Ltac sim_norm :=
  cbn [forget_cca restat unchecked set_check_busy_rts G.set_check_busy
       G.full_collision G.check_busy G.max_payload_size G.targetSentPacket
       G.CA G.CA1 G.CA2 G.lora24GHz G.n_retry G.n_retry_rts G.CCA_prob
       G.Wbusy_min G.Wbusy_BE G.Wbusy_maxBE G.Wbusy_add_max_toa
       G.Wbusy_exp_backoff G.P G.WL G.W2 G.W3 G.Wnav G.W2afterNAV
       G.check_busy_rts G.experiment G.maxBSReceives
       myNode.nodeid myNode.period myNode.distrib myNode.packet
       myNode.data_len myNode.data_rectime myNode.rts_rectime
       myNode.n_data_sent myNode.n_rts_sent myNode.ca_state
       myNode.want_transmit_time myNode.ca_listen_start_time
       myNode.ca_listen_end_time myNode.total_listen_time myNode.P
       myNode.my_P myNode.backoff myNode.receive_rts myNode.receive_rts_time
       myNode.receive_rts_from myNode.n_receive_nav_rts_p1
       myNode.n_receive_nav_rts_p2 myNode.receive_data
       myNode.receive_data_time myNode.receive_data_from
       myNode.n_receive_nav_data_p1 myNode.n_receive_nav_data_p2 myNode.nav
       myNode.cca myNode.n_cca myNode.n_busy_rts myNode.n_busy_rts_p1
       myNode.n_busy_data myNode.n_retry myNode.total_retry
       myNode.n_retry_rts myNode.total_retry_rts myNode.n_aborted
       myNode.cycle myNode.W2 myNode.latency myNode.Wbusy_BE
       myNode.set_packet myNode.set_n_data_sent myNode.set_n_rts_sent
       myNode.set_ca_state myNode.set_want_transmit_time
       myNode.set_ca_listen_start_time myNode.set_ca_listen_end_time
       myNode.set_total_listen_time myNode.set_my_P myNode.set_backoff
       myNode.set_receive_rts myNode.set_receive_rts_time
       myNode.set_receive_rts_from myNode.set_n_receive_nav_rts_p1
       myNode.set_n_receive_nav_rts_p2 myNode.set_receive_data
       myNode.set_receive_data_time myNode.set_receive_data_from
       myNode.set_n_receive_nav_data_p1 myNode.set_n_receive_nav_data_p2
       myNode.set_nav myNode.set_cca myNode.set_n_cca myNode.set_n_busy_rts
       myNode.set_n_busy_rts_p1 myNode.set_n_busy_data myNode.set_n_retry
       myNode.set_total_retry myNode.set_n_retry_rts
       myNode.set_total_retry_rts myNode.set_n_aborted myNode.set_cycle
       myNode.set_W2 myNode.set_latency myNode.set_Wbusy_BE
       myNode.upd_packet fst snd].

Ltac sim_cca :=
  match goal with
  | |- context [cca_want_transmit ?g ?d ?st ?n] =>
      let E := fresh "E" in
      destruct (cca_want_transmit_off g d st n eq_refl) as (? & ? & ? & ? & E);
      rewrite E; clear E
  | |- context [cca_rts ?g ?d ?st ?n] =>
      let E := fresh "E" in
      destruct (cca_rts_off g d st n eq_refl) as (? & ? & ? & ? & E);
      rewrite E; clear E
  | |- context [cca_phase3 ?g ?d ?st ?n] =>
      let E := fresh "E" in
      destruct (cca_phase3_off g d st n eq_refl) as (? & ? & ? & ? & E);
      rewrite E; clear E
  | |- context [cca_noCA ?g ?d ?st ?n] =>
      let E := fresh "E" in
      destruct (cca_noCA_off g d st n eq_refl) as (? & ? & ? & ? & E);
      rewrite E; clear E
  end.

Ltac sim_split :=
  match goal with
  | |- context [if ?b then _ else _] => destruct b eqn:?
  end.

Ltac sim_state :=
  repeat first
    [ rewrite forget_goto | rewrite forget_put | rewrite forget_busy_rts
    | rewrite forget_busy_data | rewrite forget_endSim
    | rewrite forget_count_transmit | rewrite forget_count_rts
    | rewrite forget_count_data | rewrite forget_leave
    | rewrite forget_upd by reflexivity | rewrite forget_idem ].

Ltac sim_leaf :=
  first
    [ cbn [forget_result]; sim_state; reflexivity
    | rewrite ?arrive_unchecked, ?arrive_noCA_unchecked;
      apply bind_forget;
      [ first [apply arrive_equiv | apply arrive_noCA_equiv];
        sim_state; reflexivity
      | let s1 := fresh "s" in
        let s2 := fresh "s" in
        let E := fresh "E" in
        intros s1 s2 E; cbn [forget_result]; sim_state; rewrite E;
        reflexivity ] ].

Ltac sim_go :=
  sim_norm; repeat first [progress sim_cca; sim_norm | sim_split; sim_norm].

(** A step from the state without the statistics, under other values of
    [check_busy] and [check_busy_rts], is the step of the run without the
    statistics: same successor, same timeout. *)
Lemma step_forget (g : G.settings) (b1 b2 : bool) (d : draws) (now : Q)
    (i : nat) (st : Sim.t) :
  G.CCA_prob g = 0 ->
  forget_result (step (unchecked b1 b2 g) d now i (forget st))
  = forget_result (step g d now i st).
Proof.
  intros Hprob. destruct g. cbn [G.CCA_prob] in Hprob. subst.
  unfold step.
  change (Sim.nodes (forget st)) with (forget_cca <$> Sim.nodes st).
  change (Sim.tasks (forget st)) with (Sim.tasks st).
  rewrite list_lookup_fmap.
  destruct (Sim.nodes st !! i) as [node |]; [| reflexivity].
  cbn [fmap option_fmap option_map mbind option_bind].
  destruct (Sim.tasks st !! i) as [c |]; [| reflexivity].
  cbn [mbind option_bind].
  destruct node.
  destruct c;
    unfold block_schedule_tx, block_nc_schedule, block_want_transmit,
      block_start_CA, block_listen1, block_listen1_rts, block_phase2_backoff,
      block_rts_loop, block_rts_sent, block_phase2_rts, block_listen2,
      block_listen2_rts, block_phase3_backoff, block_phase3_transmit,
      block_data_sent, block_start_nav, block_end, block_nc_wait,
      block_nc_loop, block_nc_sent, send_rts, nc_after_loop, start_listen,
      listen_time, backoff_time, nav_after_data, nav_after_rts,
      transmit_wait_CA, transmit_wait_noCA, next;
    change (Sim.nrProcessed (forget st)) with (Sim.nrProcessed st);
    sim_go; sim_leaf.
Qed.

Lemma unchecked_id (g : G.settings) :
  unchecked (G.check_busy g) (G.check_busy_rts g) g = g.
Proof. destruct g. reflexivity. Qed.

Lemma step_equiv (g : G.settings) (b1 b2 : bool) (d : draws) (now : Q)
    (i : nat) (sa sb : Sim.t) :
  G.CCA_prob g = 0 -> forget sa = forget sb ->
  forget_result (step (unchecked b1 b2 g) d now i sa)
  = forget_result (step g d now i sb).
Proof.
  intros Hprob E.
  rewrite <- (step_forget g b1 b2 d now i sb Hprob), <- E.
  pose proof (step_forget (unchecked b1 b2 g) (G.check_busy (unchecked b1 b2 g))
                (G.check_busy_rts (unchecked b1 b2 g)) d now i sa Hprob) as H.
  rewrite unchecked_id in H. symmetry. exact H.
Qed.

Lemma run_equiv (g : G.settings) (b1 b2 : bool) (sched : schedule) :
  G.CCA_prob g = 0 ->
  forall sa sb, forget sa = forget sb ->
    forget <$> run (unchecked b1 b2 g) sched sa = forget <$> run g sched sb.
Proof.
  intros Hprob. induction sched as [| [[d now] i] rest IH]; intros sa sb E.
  - simpl. rewrite E. reflexivity.
  - simpl. pose proof (step_equiv g b1 b2 d now i sa sb Hprob E) as H.
    destruct (step (unchecked b1 b2 g) d now i sa) as [[sa' wa] |],
      (step g d now i sb) as [[sb' wb] |]; try discriminate; [| reflexivity].
    apply IH. simpl in H. congruence.
Qed.

(** X17.  With [CCA_prob = 0] the values of [check_busy] and
    [check_busy_rts] do not matter: from the same state, every step yields
    the same timeout and leads to the same state, and so does every run, up
    to the four counters of the assessments ([n_cca], [n_busy_rts],
    [n_busy_rts_p1], [n_busy_data]), which no statement of [transmit] reads. *)
Theorem CCA_prob_0_makes_check_busy_moot (g : G.settings) (b1 b2 : bool)
    (sched : schedule) (st : Sim.t) :
  G.CCA_prob g = 0 ->
  (forall d now i,
     forget_result (step (unchecked b1 b2 g) d now i st)
     = forget_result (step g d now i st))
  /\ forget <$> run (unchecked b1 b2 g) sched st = forget <$> run g sched st.
Proof.
  intros Hprob. split.
  - intros d now i. apply step_equiv; [exact Hprob | reflexivity].
  - apply run_equiv; [exact Hprob | reflexivity].
Qed.

(** The two-node schedule under the settings of the script with
    [CCA_prob = 0], and with both checks switched off in addition: the runs
    end in the same state up to the counters, and the counter [n_cca] of
    node 1 tells them apart. *)
Lemma CCA_prob_0_makes_check_busy_moot_witness :
  exists st st' n n',
    run (G.set_CCA_prob 0 G.source) busy_schedule two_nodes = Some st
    /\ run (unchecked false false (G.set_CCA_prob 0 G.source))
         busy_schedule two_nodes = Some st'
    /\ forget st' = forget st
    /\ Sim.nodes st !! 1%nat = Some n /\ Sim.nodes st' !! 1%nat = Some n'
    /\ myNode.n_cca n' = 0 /\ 0 < myNode.n_cca n.
Proof.
  destruct (run (G.set_CCA_prob 0 G.source) busy_schedule two_nodes)
    as [st |] eqn:E; [| vm_compute in E; discriminate].
  destruct (run (unchecked false false (G.set_CCA_prob 0 G.source))
              busy_schedule two_nodes)
    as [st' |] eqn:E'; [| vm_compute in E'; discriminate].
  destruct (Sim.nodes st !! 1%nat) as [n |] eqn:En;
    [| vm_compute in E; injection E as <-; vm_compute in En; discriminate].
  destruct (Sim.nodes st' !! 1%nat) as [n' |] eqn:En';
    [| vm_compute in E'; injection E' as <-; vm_compute in En'; discriminate].
  assert (H : forget <$> Some st' = forget <$> Some st).
  { rewrite <- E, <- E'.
    apply (CCA_prob_0_makes_check_busy_moot (G.set_CCA_prob 0 G.source)
             false false busy_schedule two_nodes eq_refl). }
  exists st, st', n, n'.
  split; [reflexivity |]. split; [reflexivity |].
  split; [exact (f_equal (from_option id (forget st)) H) |].
  split; [exact En |]. split; [exact En' |]. split.
  - vm_compute in E'. injection E' as <-. vm_compute in En'.
    injection En' as <-. reflexivity.
  - vm_compute in E. injection E as <-. vm_compute in En.
    injection En as <-. reflexivity.
Defined.

(** ** The packet on the air has the type of its phase *)

Lemma shape_gw (g : G.settings) (now : Q) (p : myPacket.t)
    (b : option bool) (c r d h : bool) (n : myNode.t) :
  shape (gw_effect g now p b c r d h n) = shape n.
Proof.
  unfold gw_effect, hint_set, clear, touch.
  destruct b as [v |], c, r, d, h, (myPacket.ptype p); reflexivity.
Qed.

Lemma arrive_shape (g : G.settings) (now : Q) (i : nat) (st st' : Sim.t) :
  arrive g now i st = Some st' ->
  shape <$> Sim.nodes st' = shape <$> Sim.nodes st.
Proof.
  unfold arrive. intros H.
  destruct (py_in i (Sim.packetsAtBS st)); [inversion H; reflexivity |].
  destruct (Sim.nodes st !! i) as [node |] eqn:Ei; [| discriminate].
  simpl in H.
  destruct (sensitivity _ _) as [sens |]; [| discriminate]. simpl in H.
  destruct (Qltb _ _).
  - inversion H; subst; clear H. unfold Sim.upd. simpl.
    apply alter_frame. reflexivity.
  - unfold Sim.upd in H. simpl in H.
    destruct (checkcollision _ _ _ _ _) as [nodes2 col] eqn:Ecc.
    inversion H; subst; clear H. simpl.
    rewrite alter_frame by reflexivity.
    erewrite (checkcollision_frame shape shape_gw);
      [| exact Ecc | rewrite list_lookup_alter_eq, Ei; reflexivity].
    apply alter_frame. reflexivity.
Qed.

Lemma arrive_noCA_shape (g : G.settings) (now : Q) (i : nat)
    (st st' : Sim.t) :
  arrive_noCA g now i st = Some st' ->
  shape <$> Sim.nodes st' = shape <$> Sim.nodes st.
Proof.
  unfold arrive_noCA. intros H.
  destruct (py_in i (Sim.packetsAtBS st)); [inversion H; reflexivity |].
  destruct (Sim.nodes st !! i) as [node |] eqn:Ei; [| discriminate].
  simpl in H.
  destruct (sensitivity _ _) as [sens |]; [| discriminate]. simpl in H.
  destruct (Qltb _ _).
  - inversion H; subst; clear H. unfold Sim.upd. simpl.
    apply alter_frame. reflexivity.
  - unfold Sim.upd in H. simpl in H.
    destruct (checkcollision _ _ _ _ _) as [nodes2 col] eqn:Ecc.
    destruct col; inversion H; subst; clear H; simpl;
      rewrite !alter_frame by reflexivity;
      (erewrite (checkcollision_frame shape shape_gw);
         [| exact Ecc | rewrite list_lookup_alter_eq, Ei; reflexivity]);
      apply alter_frame; reflexivity.
Qed.

Lemma leave_shape (i : nat) (st : Sim.t) :
  shape <$> Sim.nodes (leave i st) = shape <$> Sim.nodes st.
Proof.
  unfold leave.
  destruct (py_in i (Sim.packetsAtBS st)); unfold Sim.upd; simpl;
    apply alter_frame; reflexivity.
Qed.

Lemma shape_at (i : nat) (node : myNode.t) (l l0 : list myNode.t) :
  l0 !! i = Some node -> shape <$> l = shape <$> l0 ->
  exists n, l !! i = Some n /\ shape n = shape node.
Proof.
  intros Ei E. apply (f_equal (fun x => x !! i)) in E.
  rewrite !list_lookup_fmap, Ei in E.
  destruct (l !! i) as [n |]; [| discriminate].
  exists n. split; [reflexivity |]. simpl in E. congruence.
Qed.

Lemma typed_reset (l : bool) (r : Z) (n node : myNode.t) :
  shape n = shape node ->
  myNode.ca_state node = start_phase3_transmit ->
  typed_shape l (shape node) ->
  typed_shape l
    (shape (myNode.set_ca_state schedule_tx
              (myNode.set_nav 0
                 (myNode.set_cca false (myNode.set_n_retry r n))))).
Proof.
  unfold shape, typed_shape. cbn. intros E Hs (T1 & T2 & T3 & T4 & T5).
  injection E as _ E2 E3 E4 E5 E6 E7 E8.
  rewrite E2, E3, E4, E5, E6, E7, E8. rewrite Hs in T2.
  repeat split; auto. discriminate.
Qed.

(** Closes [typed_shape l (shape node) -> typed_shape l (shape node')] for a
    [node'] written with setters, the state of [node] being known from the
    test of the block. *)
Ltac ty_tac :=
  let T1 := fresh "T" in
  let T2 := fresh "T" in
  let T3 := fresh "T" in
  let T4 := fresh "T" in
  let T5 := fresh "T" in
  unfold typed_shape, shape; cbn;
  intros (T1 & T2 & T3 & T4 & T5);
  bool_hyps; use_state; cbn in *;
  repeat split;
  first [ assumption | reflexivity
        | intros; first [discriminate | congruence | auto] ].

Ltac ty_local Ei :=
  first
    [ eexists; split;
      [ cbn; apply (insert_same shape _ _ _ Ei) | intros T; exact T ]
    | eexists; split; [ cbn; apply list_fmap_insert | ty_tac ] ].

Ltac ty_arrival H Ei :=
  match type of H with
  | context [?arr ?g ?now ?i (Sim.put ?i ?node1 ?st)] =>
      let st1 := fresh "st1" in
      let Ea := fresh "Ea" in
      destruct (arr g now i (Sim.put i node1 st)) as [st1 |] eqn:Ea;
      [| discriminate H];
      simpl in H; injection H as <- _;
      exists (shape node1); split;
      [ cbn;
        lazymatch type of Ea with
        | arrive _ _ _ _ = _ => rewrite (arrive_shape _ _ _ _ _ Ea)
        | arrive_noCA _ _ _ _ = _ => rewrite (arrive_noCA_shape _ _ _ _ _ Ea)
        end;
        cbn; etransitivity; [apply list_fmap_insert | reflexivity]
      | ty_tac ]
  end.

Lemma step_shape (g : G.settings) (d : draws) (now : Q) (i : nat)
    (st st' : Sim.t) (w : option Q) (node : myNode.t) (c : pc) :
  step g d now i st = Some (st', w) ->
  Sim.nodes st !! i = Some node -> Sim.tasks st !! i = Some c ->
  (c = pc_data_sent -> myNode.ca_state node = start_phase3_transmit) ->
  exists x,
    shape <$> Sim.nodes st' = <[i := x]> (shape <$> Sim.nodes st)
    /\ (typed_shape (G.lora24GHz g) (shape node) ->
        typed_shape (G.lora24GHz g) x).
Proof.
  intros H Ei Ec Hsent. unfold step in H. rewrite Ei, Ec in H. simpl in H.
  destruct c.
  - unfold block_schedule_tx, block_nc_schedule, next in H.
    split_ifs H; injection H as <- _; ty_local Ei.
  - unfold block_want_transmit, cca_want_transmit, draw_backoff, grow_BE,
      count_transmit, next in H.
    split_ifs H; injection H as <- _; ty_local Ei.
  - unfold block_start_CA, start_listen, next in H.
    split_ifs H; injection H as <- _; ty_local Ei.
  - unfold block_listen1, next in H.
    destruct (nav_after_data _ _ _ _ node) as [node1 w1] eqn:E.
    apply (f_equal fst) in E. rewrite nav_after_data_fst in E.
    simpl in E. subst node1.
    split_ifs H; injection H as <- _; ty_local Ei.
  - unfold block_listen1_rts, nav_after_rts, next in H.
    split_ifs H; injection H as <- _; ty_local Ei.
  - unfold block_phase2_backoff, next in H.
    split_ifs H; injection H as <- _; ty_local Ei.
  - unfold block_rts_loop, send_rts, cca_rts, draw_backoff, grow_BE, next in H.
    split_ifs H; first [ty_arrival H Ei | injection H as <- _; ty_local Ei].
  - unfold block_rts_sent, next in H. injection H as <- _.
    exists (shape node). split; [| auto].
    rewrite nodes_goto, leave_shape.
    rewrite (proj1 (count_rts_parts _ _)). cbn.
    apply (insert_same shape _ _ _ Ei).
  - unfold block_phase2_rts, start_listen, next in H.
    split_ifs H; injection H as <- _; ty_local Ei.
  - unfold block_listen2, next in H.
    destruct (nav_after_data _ _ _ _ node) as [node1 w1] eqn:E.
    apply (f_equal fst) in E. rewrite nav_after_data_fst in E.
    simpl in E. subst node1.
    split_ifs H; injection H as <- _; ty_local Ei.
  - unfold block_listen2_rts, nav_after_rts, next in H.
    split_ifs H; injection H as <- _; ty_local Ei.
  - unfold block_phase3_backoff, next in H.
    split_ifs H; injection H as <- _; ty_local Ei.
  - unfold block_phase3_transmit, cca_phase3, next in H.
    split_ifs H; first [ty_arrival H Ei | injection H as <- _; ty_local Ei].
  - unfold block_data_sent, next in H. injection H as <- _.
    rewrite nodes_goto, nodes_upd.
    assert (El : shape <$> Sim.nodes
                             (leave i (count_data (myNode.packet node)
                                (Sim.set_channel_busy_data false st)))
                 = shape <$> Sim.nodes st).
    { rewrite leave_shape, (proj1 (count_data_parts _ _)). reflexivity. }
    destruct (shape_at i node _ _ Ei El) as (n & En & Es).
    eexists. split.
    + rewrite (alter_insert _ _ _ _ En), list_fmap_insert, El.
      reflexivity.
    + apply typed_reset; auto.
  - unfold block_start_nav, next in H.
    split_ifs H; injection H as <- _; ty_local Ei.
  - unfold block_end, next in H.
    split_ifs H; injection H as <- _; ty_local Ei.
  - unfold block_nc_wait, count_transmit, next in H.
    split_ifs H; injection H as <- _; ty_local Ei.
  - unfold block_nc_loop, nc_after_loop, cca_noCA, draw_backoff, grow_BE, next
      in H.
    split_ifs H; first [ty_arrival H Ei | injection H as <- _; ty_local Ei].
  - unfold block_nc_sent, next in H. injection H as <- _.
    exists (shape node). split; [| auto].
    rewrite nodes_goto, nodes_upd, alter_frame by reflexivity.
    rewrite leave_shape, (proj1 (count_data_parts _ _)). cbn.
    apply (insert_same shape _ _ _ Ei).
  - discriminate.
Qed.

Lemma reachable_typed (g : G.settings) (s0 st : Sim.t) :
  settings_ok g -> is_start g s0 -> reachable g s0 st ->
  forall k n, Sim.nodes st !! k = Some n -> typed (G.lora24GHz g) n.
Proof.
  intros Hok Hs Hr. pose proof Hs as (a & b & c & rs & E0).
  induction Hr as [| st d now i st' w Hr IH H]; intros k n Ek.
  - subst s0. unfold start in Ek. simpl in Ek. rewrite list_lookup_imap in Ek.
    destruct (rs !! k) as [r |]; [| discriminate]. injection Ek as <-.
    unfold typed, typed_shape, shape. cbn.
    repeat split; intros; first [discriminate | reflexivity].
  - pose proof H as H'. unfold step in H'.
    destruct (Sim.nodes st !! i) as [node |] eqn:Ei; [| discriminate].
    destruct (Sim.tasks st !! i) as [c0 |] eqn:Ec; [| discriminate].
    clear H'.
    assert (Hsent : c0 = pc_data_sent ->
                    myNode.ca_state node = start_phase3_transmit).
    { destruct (wf_node g st i node (reachable_wf g s0 st Hok Hs Hr) Ei)
        as (c1 & Ec1 & W).
      assert (c1 = c0) by congruence. subst c1. apply (wf_pc_data _ _ _ W). }
    destruct (step_shape g d now i st st' w node c0 H Ei Ec Hsent)
      as (x & Hx & Hty).
    apply (f_equal (fun l => l !! k)) in Hx.
    rewrite list_lookup_fmap, Ek in Hx. unfold typed.
    destruct (decide (k = i)) as [-> | Hne].
    + rewrite list_lookup_insert_eq in Hx
        by (rewrite length_fmap; eapply lookup_lt_Some, Ei).
      assert (Hn : shape n = x) by (simpl in Hx; congruence).
      rewrite Hn. apply Hty, (IH i node Ei).
    + rewrite list_lookup_insert_ne, list_lookup_fmap in Hx by congruence.
      destruct (Sim.nodes st !! k) as [n0 |] eqn:E1; [| discriminate].
      assert (Hn : shape n = shape n0) by (simpl in Hx; congruence).
      rewrite Hn. apply (IH k n0 E1).
Qed.

(** X18.  At every instant of a run the packet of every node has the type
    of the MAC state of the node (an RTS from START_CA to PHASE3_BACKOFF,
    DATA in SCHEDULE_TX, WANT_TRANSMIT and PHASE3_TRANSMIT), its [pl] is 5
    for an RTS and [data_len] for DATA, and its [rectime] is the airtime of
    that [pl].  So the packet a node has on the air during the airtime wait
    of an RTS is an RTS of 5 bytes, and the one it has on the air during the
    airtime wait of a DATA packet is DATA of [data_len] bytes. *)
Theorem packet_has_the_type_of_its_phase (g : G.settings) (s0 st : Sim.t)
    (k : nat) (n : myNode.t) (c : pc) :
  settings_ok g -> is_start g s0 -> reachable g s0 st ->
  Sim.nodes st !! k = Some n -> Sim.tasks st !! k = Some c ->
  let p := myNode.packet n in
  rectime_ok (G.lora24GHz g) p
  /\ (rts_phase (myNode.ca_state n) = true ->
      myPacket.ptype p = rtsPacketType /\ myPacket.pl p = 5)
  /\ (data_phase (myNode.ca_state n) = true ->
      myPacket.ptype p = dataPacketType
      /\ myPacket.pl p = myPacket.data_len p)
  /\ (is_rts_wait c = true ->
      myPacket.ptype p = rtsPacketType /\ myPacket.pl p = 5)
  /\ (is_data_wait c = true ->
      myPacket.ptype p = dataPacketType
      /\ myPacket.pl p = myPacket.data_len p).
Proof.
  intros Hok Hs Hr Ek Ec p.
  destruct (reachable_typed g s0 st Hok Hs Hr k n Ek)
    as (T1 & T2 & T3 & T4 & T5).
  destruct (wf_node g st k n (reachable_wf g s0 st Hok Hs Hr) Ek)
    as (c1 & Ec1 & W).
  assert (c1 = c) by congruence. subst c1.
  assert (Hrts : rts_phase (myNode.ca_state n) = true ->
                 myPacket.ptype p = rtsPacketType /\ myPacket.pl p = 5).
  { intros H. split; [exact (T1 H) | exact (T3 (T1 H))]. }
  assert (Hdata : data_phase (myNode.ca_state n) = true ->
                  myPacket.ptype p = dataPacketType
                  /\ myPacket.pl p = myPacket.data_len p).
  { intros H. split; [exact (T2 H) | exact (T4 (T2 H))]. }
  split; [exact T5 |]. split; [exact Hrts |]. split; [exact Hdata |]. split.
  - intros Hc. apply Hrts.
    rewrite (wf_pc_rts _ _ _ W); [reflexivity |].
    destruct c; try discriminate. auto.
  - intros Hc. apply Hdata. destruct c; try discriminate.
    + rewrite (wf_pc_data _ _ _ W eq_refl). reflexivity.
    + rewrite (wf_noCA _ _ _ W); [reflexivity |].
      apply (wf_pc_noCA _ _ _ W). auto.
Qed.

(** Node 1 of the run with two overlapping DATA packets, on the air with
    its DATA of 104 bytes. *)
Lemma packet_has_the_type_of_its_phase_witness :
  exists st n,
    run G.source overlap_schedule two_nodes = Some st
    /\ Sim.nodes st !! 1%nat = Some n
    /\ Sim.tasks st !! 1%nat = Some pc_data_sent
    /\ myPacket.ptype (myNode.packet n) = dataPacketType
    /\ myPacket.pl (myNode.packet n) = myPacket.data_len (myNode.packet n)
    /\ rectime_ok false (myNode.packet n).
Proof.
  destruct (run G.source overlap_schedule two_nodes) as [st |] eqn:E;
    [| vm_compute in E; discriminate].
  destruct (Sim.nodes st !! 1%nat) as [n |] eqn:En;
    [| vm_compute in E; injection E as <-; vm_compute in En; discriminate].
  assert (Ec : Sim.tasks st !! 1%nat = Some pc_data_sent).
  { vm_compute in E. injection E as <-. reflexivity. }
  destruct (packet_has_the_type_of_its_phase G.source two_nodes st 1%nat n
              pc_data_sent source_ok (is_start_start _ _ _ _ _)
              (run_from_start _ _ _ _ E) En Ec)
    as (Hrec & _ & _ & _ & Hdata).
  exists st, n. split; [reflexivity |]. split; [exact En |].
  split; [exact Ec |].
  destruct (Hdata eq_refl) as [H1 H2].
  split; [exact H1 |]. split; [exact H2 | exact Hrec].
Defined.

(** ** The airtime wait is the airtime of the packet *)

Ltac at_local :=
  eexists; split; [reflexivity | cbn; intros; discriminate].

Ltac at_arrival H :=
  match type of H with
  | context [?arr ?g ?now ?i (Sim.put ?i ?node1 ?st)] =>
      let st1 := fresh "st1" in
      let Ea := fresh "Ea" in
      destruct (arr g now i (Sim.put i node1 st)) as [st1 |] eqn:Ea;
      [| discriminate H];
      simpl in H; injection H as <- <-;
      let T := fresh "T" in
      lazymatch type of Ea with
      | arrive _ _ _ _ = _ => pose proof (arrive_tasks _ _ _ _ _ Ea) as T
      | arrive_noCA _ _ _ _ = _ =>
          pose proof (arrive_noCA_tasks _ _ _ _ _ Ea) as T
      end;
      eexists; split; [cbn; rewrite T; reflexivity |];
      intros _; split; [reflexivity |];
      bool_hyps;
      first [ left; split; reflexivity
            | right; left; split; [reflexivity |]; split;
              [reflexivity | assumption]
            | right; right; split; reflexivity ]
  end.

(** A step that enters an airtime wait yields the [rectime] of the packet
    of its node; it starts at the RTS loop, at the test of phase 3 with a
    DATA packet, or at the loop of the mode without CA. *)
Lemma step_airtime (g : G.settings) (d : draws) (now : Q) (i : nat)
    (st st' : Sim.t) (w : option Q) (node : myNode.t) (c : pc) :
  step g d now i st = Some (st', w) ->
  Sim.nodes st !! i = Some node -> Sim.tasks st !! i = Some c ->
  exists c',
    Sim.tasks st' = <[i := c']> (Sim.tasks st)
    /\ (is_wait c' = true ->
        w = Some (myPacket.rectime (myNode.packet node))
        /\ ((c = pc_rts_loop /\ c' = pc_rts_sent)
            \/ (c = pc_phase3_transmit /\ c' = pc_data_sent
                /\ myPacket.ptype (myNode.packet node) = dataPacketType)
            \/ (c = pc_nc_loop /\ c' = pc_nc_sent))).
Proof.
  intros H Ei Ec. unfold step in H. rewrite Ei, Ec in H. simpl in H.
  destruct c.
  - unfold block_schedule_tx, block_nc_schedule, next in H.
    split_ifs H; injection H as <- _; at_local.
  - unfold block_want_transmit, cca_want_transmit, draw_backoff, grow_BE,
      count_transmit, next in H.
    split_ifs H; injection H as <- _; at_local.
  - unfold block_start_CA, start_listen, next in H.
    split_ifs H; injection H as <- _; at_local.
  - unfold block_listen1, next in H.
    destruct (nav_after_data _ _ _ _ node) as [node1 w1].
    split_ifs H; injection H as <- _; at_local.
  - unfold block_listen1_rts, nav_after_rts, next in H.
    split_ifs H; injection H as <- _; at_local.
  - unfold block_phase2_backoff, next in H.
    split_ifs H; injection H as <- _; at_local.
  - unfold block_rts_loop, send_rts, cca_rts, draw_backoff, grow_BE, next in H.
    split_ifs H; first [at_arrival H | injection H as <- _; at_local].
  - unfold block_rts_sent, next in H. injection H as <- _.
    exists pc_phase2_rts. split; [| cbn; intros; discriminate].
    change (Sim.tasks (Sim.goto i pc_phase2_rts ?x))
      with (<[i := pc_phase2_rts]> (Sim.tasks x)).
    rewrite leave_tasks, (proj1 (proj2 (count_rts_parts _ _))). reflexivity.
  - unfold block_phase2_rts, start_listen, next in H.
    split_ifs H; injection H as <- _; at_local.
  - unfold block_listen2, next in H.
    destruct (nav_after_data _ _ _ _ node) as [node1 w1].
    split_ifs H; injection H as <- _; at_local.
  - unfold block_listen2_rts, nav_after_rts, next in H.
    split_ifs H; injection H as <- _; at_local.
  - unfold block_phase3_backoff, next in H.
    split_ifs H; injection H as <- _; at_local.
  - unfold block_phase3_transmit, cca_phase3, next in H.
    split_ifs H; first [at_arrival H | injection H as <- _; at_local].
  - unfold block_data_sent, next in H. injection H as <- _.
    exists pc_start_nav. split; [| cbn; intros; discriminate].
    change (Sim.tasks (Sim.goto i pc_start_nav (Sim.upd i ?f ?x)))
      with (<[i := pc_start_nav]> (Sim.tasks x)).
    rewrite leave_tasks, (proj1 (proj2 (count_data_parts _ _))). reflexivity.
  - unfold block_start_nav, next in H.
    split_ifs H; injection H as <- _; at_local.
  - unfold block_end, next in H.
    split_ifs H; injection H as <- _; at_local.
  - unfold block_nc_wait, count_transmit, next in H.
    split_ifs H; injection H as <- _; at_local.
  - unfold block_nc_loop, nc_after_loop, cca_noCA, draw_backoff, grow_BE, next
      in H.
    split_ifs H; first [at_arrival H | injection H as <- _; at_local].
  - unfold block_nc_sent, next in H. injection H as <- _.
    exists pc_end. split; [| cbn; intros; discriminate].
    change (Sim.tasks (Sim.goto i pc_end (Sim.upd i ?f ?x)))
      with (<[i := pc_end]> (Sim.tasks x)).
    rewrite leave_tasks, (proj1 (proj2 (count_data_parts _ _))). reflexivity.
  - discriminate.
Qed.

(** X19.  Along a run, the step that puts a packet on the air yields a
    timeout equal to the airtime of that packet: the airtime of 5 bytes at
    the radio configuration of the node for an RTS (lines 1252-1253), the
    airtime of [data_len] bytes for a DATA packet (lines 1435-1436 and
    1580-1581). *)
Theorem airtime_wait_is_the_airtime (g : G.settings) (s0 st st' : Sim.t)
    (d : draws) (now : Q) (i : nat) (w : option Q) (node : myNode.t) :
  settings_ok g -> is_start g s0 -> reachable g s0 st ->
  step g d now i st = Some (st', w) ->
  Sim.nodes st !! i = Some node ->
  let p := myNode.packet node in
  (on_air_rts st' i ->
   w = Some (airtime (G.lora24GHz g) (myPacket.sf p) (myPacket.cr p) 5
               (myPacket.bw p)))
  /\ (on_air_data st' i ->
      w = Some (airtime (G.lora24GHz g) (myPacket.sf p) (myPacket.cr p)
                  (myPacket.data_len p) (myPacket.bw p))).
Proof.
  intros Hok Hs Hr H Ei p.
  destruct (wf_node g st i node (reachable_wf g s0 st Hok Hs Hr) Ei)
    as (c & Ec & W).
  destruct (reachable_typed g s0 st Hok Hs Hr i node Ei)
    as (T1 & T2 & T3 & T4 & T5).
  destruct (step_airtime g d now i st st' w node c H Ei Ec)
    as (c' & Ht & Hw).
  fold p in T1, T2, T3, T4, T5, Hw.
  split.
  - intros Ha.
    pose proof (on_air_self i c c' st st' is_rts_wait Ht Ec Ha) as Hc'.
    destruct Hw as [-> Hcase]; [unfold is_wait; rewrite Hc'; apply orb_true_r |].
    destruct Hcase as [[-> ->] | [(_ & -> & _) | [_ ->]]]; try discriminate.
    assert (Hst : myNode.ca_state node = start_phase2_rts)
      by (apply (wf_pc_rts _ _ _ W); auto).
    rewrite Hst in T1. rewrite T5, (T3 (T1 eq_refl)). reflexivity.
  - intros Ha.
    pose proof (on_air_self i c c' st st' is_data_wait Ht Ec Ha) as Hc'.
    destruct Hw as [-> Hcase]; [unfold is_wait; rewrite Hc'; reflexivity |].
    destruct Hcase as [[_ ->] | [(_ & _ & Hty) | [-> _]]]; try discriminate.
    + rewrite T5, (T4 Hty). reflexivity.
    + assert (Hst : myNode.ca_state node = schedule_tx).
      { apply (wf_noCA _ _ _ W), (wf_pc_noCA _ _ _ W). auto. }
      rewrite Hst in T2. rewrite T5, (T4 (T2 eq_refl)). reflexivity.
Qed.

(** The RTS of node 0 in the three-node run: 827.392 ms on the air. *)
Lemma airtime_wait_is_the_airtime_witness :
  exists st st' w,
    run G.source hint_schedule three_nodes = Some st
    /\ step G.source deaf 1000 0%nat st = Some (st', w)
    /\ on_air_rts st' 0%nat
    /\ w = Some (airtime false 12 1 5 125)
    /\ (airtime false 12 1 5 125 == 827.392)%Q.
Proof.
  destruct (run G.source hint_schedule three_nodes) as [st |] eqn:E;
    [| vm_compute in E; discriminate].
  destruct (step G.source deaf 1000 0%nat st) as [[st' w] |] eqn:E';
    [| vm_compute in E; injection E as <-; vm_compute in E'; discriminate].
  destruct (Sim.nodes st !! 0%nat) as [n |] eqn:En;
    [| vm_compute in E; injection E as <-; vm_compute in En; discriminate].
  assert (Ha : on_air_rts st' 0%nat).
  { exists pc_rts_sent. vm_compute in E. injection E as <-.
    vm_compute in E'. injection E' as <- _. split; reflexivity. }
  assert (Hp : myPacket.sf (myNode.packet n) = 12
               /\ myPacket.cr (myNode.packet n) = 1
               /\ myPacket.bw (myNode.packet n) = 125%Q).
  { vm_compute in E. injection E as <-. vm_compute in En.
    injection En as <-. repeat split; reflexivity. }
  destruct Hp as (H1 & H2 & H3).
  destruct (airtime_wait_is_the_airtime G.source three_nodes st st' deaf 1000
              0%nat w n source_ok (is_start_start _ _ _ _ _)
              (run_from_start _ _ _ _ E) E' En) as [Hrts _].
  specialize (Hrts Ha). rewrite H1, H2, H3 in Hrts.
  exists st, st', w. split; [reflexivity |]. split; [exact E' |].
  split; [exact Ha |]. split; [exact Hrts |]. reflexivity.
Defined.
